(** * CMIP6-to-MET extraction and assembly pipeline

    A shallow embedding of the extraction and MET-assembly script
    ([extract_daily_data_from_netcdf], [calculate_tav_amp],
    [calculate_saturation_vapor_pressure], [calculate_vapor_pressure],
    [create_met_file]) together with the properties stated for it.

    Conventions of the embedding.
    - A pandas [Timestamp] of a daily series is a calendar day; it is
      modelled as a record (year, month, day).  Comparison of timestamps is
      comparison of their proleptic Gregorian ordinals ([toordinal]).
    - A float cell is modelled as [option Q]: [None] is NaN, [Some q] is the
      rational number the float denotes.  Arithmetic on cells is exact
      rational arithmetic; [np.exp] is a parameter of the development.
    - A raised (uncaught) Python exception is the result [None]. *)

From Stdlib Require Import ZArith QArith Qround Qabs List String Ascii Bool Lia Lqa.
From Stdlib Require Import Sorting.Sorted Sorting.Permutation.
Import ListNotations.

Open Scope Z_scope.

(* ================================================================== *)
(** * The calendar ([calendar], [pd.Timestamp], [pd.date_range])        *)
(* ================================================================== *)

Module Calendar.

(** [calendar.isleap]: [year % 4 == 0 and (year % 100 != 0 or year % 400 == 0)]. *)
Definition isleap (y : Z) : bool :=
  (y mod 4 =? 0) && (negb (y mod 100 =? 0) || (y mod 400 =? 0)).

(** [366 if calendar.isleap(year) else 365]. *)
Definition days_in_year (y : Z) : Z := if isleap y then 366 else 365.

Definition days_in_month (y m : Z) : Z :=
  if m =? 2 then (if isleap y then 29 else 28)
  else if (m =? 4) || (m =? 6) || (m =? 9) || (m =? 11) then 30
  else 31.

(** Number of days of year [y] that precede the first day of month [m]. *)
Definition days_before_month (y m : Z) : Z :=
  let l := if isleap y then 1 else 0 in
  if m <=? 1 then 0
  else if m =? 2 then 31
  else if m =? 3 then 59 + l
  else if m =? 4 then 90 + l
  else if m =? 5 then 120 + l
  else if m =? 6 then 151 + l
  else if m =? 7 then 181 + l
  else if m =? 8 then 212 + l
  else if m =? 9 then 243 + l
  else if m =? 10 then 273 + l
  else if m =? 11 then 304 + l
  else 334 + l.

(** Number of days before January 1 of year [y]. *)
Definition days_before_year (y : Z) : Z :=
  let p := y - 1 in 365 * p + p / 4 - p / 100 + p / 400.

Record date : Type := mkdate { year : Z; month : Z; day : Z }.

Definition valid_date (d : date) : bool :=
  (1 <=? month d) && (month d <=? 12) &&
  (1 <=? day d) && (day d <=? days_in_month (year d) (month d)).

(** [Timestamp.dayofyear]. *)
Definition dayofyear (d : date) : Z :=
  days_before_month (year d) (month d) + day d.

(** [Timestamp.toordinal]: January 1 of year 1 is day 1. *)
Definition toordinal (d : date) : Z :=
  days_before_year (year d) + dayofyear d.

Definition date_eqb (a b : date) : bool := toordinal a =? toordinal b.
Definition date_ltb (a b : date) : bool := toordinal a <? toordinal b.
Definition date_leb (a b : date) : bool := toordinal a <=? toordinal b.

(** [d + pd.Timedelta(days=1)]. *)
Definition next_day (d : date) : date :=
  if day d <? days_in_month (year d) (month d)
  then mkdate (year d) (month d) (day d + 1)
  else if month d <? 12
       then mkdate (year d) (month d + 1) 1
       else mkdate (year d + 1) 1 1.

(** [pd.date_range(start=start, periods=n, freq='D')]. *)
Fixpoint date_range_periods (start : date) (n : nat) : list date :=
  match n with
  | O => []
  | S k => start :: date_range_periods (next_day start) k
  end.

(** [pd.date_range(start=start, end=stop, freq='D')]: the days
    [start + i] for [0 <= i <= stop - start]. *)
Definition date_range (start stop : date) : list date :=
  date_range_periods start (Z.to_nat (toordinal stop - toordinal start + 1)).

(** [pd.Timestamp(year=y, month=1, day=1)] and
    [pd.Timestamp(year=y, month=12, day=31)]. *)
Definition jan1 (y : Z) : date := mkdate y 1 1.
Definition dec31 (y : Z) : date := mkdate y 12 31.

End Calendar.

(* ================================================================== *)
(** * Cells, series and data frames                                     *)
(* ================================================================== *)

Module Frame.
Import Calendar.

(** A float64 cell; [None] is NaN. *)
Definition value : Type := option Q.

Definition vlift2 (f : Q -> Q -> Q) (a b : value) : value :=
  match a, b with
  | Some x, Some y => Some (f x y)
  | _, _ => None
  end.

Definition vadd : value -> value -> value := vlift2 Qplus.
Definition vmul : value -> value -> value := vlift2 Qmult.
Definition vdiv : value -> value -> value := vlift2 Qdiv.

(** [pd.notna]. *)
Definition notna (v : value) : bool :=
  match v with Some _ => true | None => false end.

(** A keyed table: one row per entry, the key being the [date] column. *)
Definition keyed (A : Type) : Type := list (date * A).

(** A Daily Series: the columns [date] and [value] of a frame, row by row. *)
Definition series : Type := keyed value.

(** A column of a [DataFrame] with its dtype. *)
Inductive column : Type :=
| ColDate (c : list date)      (* datetime64[ns] *)
| ColNum (c : list value).     (* float64 *)

(** A [DataFrame]: its columns in order, by name. *)
Definition DataFrame : Type := list (string * column).

Fixpoint get_col (name : string) (df : DataFrame) : option column :=
  match df with
  | [] => None
  | (n, c) :: rest => if String.eqb n name then Some c else get_col name rest
  end.

(** [df[name] = c]: an existing column is replaced in place, a new one is
    appended after the last column. *)
Fixpoint set_col (name : string) (c : column) (df : DataFrame) : DataFrame :=
  match df with
  | [] => [(name, c)]
  | (n, c0) :: rest =>
      if String.eqb n name then (n, c) :: rest
      else (n, c0) :: set_col name c rest
  end.

Definition col_length (c : column) : nat :=
  match c with ColDate l => List.length l | ColNum l => List.length l end.

(** [len(df)]. *)
Definition df_len (df : DataFrame) : nat :=
  match df with [] => O | (_, c) :: _ => col_length c end.

(** [pd.to_datetime(df['date'])] on a column that already holds timestamps;
    [None] when the frame has no such column ([KeyError]).  Other dtypes are
    outside the model and are treated as raising. *)
Definition to_datetime (name : string) (df : DataFrame) : option column :=
  match get_col name df with
  | Some (ColDate l) => Some (ColDate l)
  | _ => None
  end.

Definition num_col (name : string) (df : DataFrame) : option (list value) :=
  match get_col name df with
  | Some (ColNum l) => Some l
  | _ => None
  end.

Definition date_col (name : string) (df : DataFrame) : option (list date) :=
  match get_col name df with
  | Some (ColDate l) => Some l
  | _ => None
  end.

(** [df[['date', vname]]] read row by row. *)
Definition rows_of (vname : string) (df : DataFrame) : option series :=
  match date_col "date" df, num_col vname df with
  | Some ds, Some vs => Some (combine ds vs)
  | _, _ => None
  end.

(** The frame with columns [date], [value] holding a series. *)
Definition frame_of (s : series) : DataFrame :=
  [("date"%string, ColDate (map fst s)); ("value"%string, ColNum (map snd s))].

(** ** Fills *)

Fixpoint ffill_from (last : value) (l : list value) : list value :=
  match l with
  | [] => []
  | Some x :: t => Some x :: ffill_from (Some x) t
  | None :: t => last :: ffill_from last t
  end.

(** [Series.ffill()]. *)
Definition ffill (l : list value) : list value := ffill_from None l.

(** [Series.bfill()]. *)
Definition bfill (l : list value) : list value := rev (ffill (rev l)).

(** [Series.fillna(x)]. *)
Definition fillna (x : Q) (l : list value) : list value :=
  map (fun v => match v with Some y => Some y | None => Some x end) l.

(** ** Joins on [date] *)

Definition matches {A} (d : date) (r : keyed A) : list A :=
  map snd (filter (fun x => date_eqb (fst x) d) r).

Definition has_key {A} (d : date) (r : keyed A) : bool :=
  existsb (fun x => date_eqb (fst x) d) r.

(** [l.merge(r, on='date')] (inner join): one row per pair of matching rows. *)
Definition inner_merge {A B} (l : keyed A) (r : keyed B) : keyed (A * B) :=
  flat_map (fun x => map (fun b => (fst x, (snd x, b))) (matches (fst x) r)) l.

(** [l.merge(r, on='date', how='left')]: a left row without a match is kept
    with the missing value [nb]. *)
Definition left_merge {A B} (nb : B) (l : keyed A) (r : keyed B) : keyed (A * B) :=
  flat_map (fun x =>
              match matches (fst x) r with
              | [] => [(fst x, (snd x, nb))]
              | ms => map (fun b => (fst x, (snd x, b))) ms
              end) l.

(** [l.merge(r, on='date', how='outer')]: the rows of the left join followed
    by the right rows without a match.  (pandas orders the result by key;
    the callers below never observe the row order of an outer join.) *)
Definition outer_merge {A B} (na : A) (nb : B) (l : keyed A) (r : keyed B)
  : keyed (A * B) :=
  left_merge nb l r ++
  map (fun y => (fst y, (na, snd y)))
      (filter (fun y => negb (has_key (fst y) l)) r).

(** [Index.is_unique] on the date key. *)
Fixpoint is_unique (l : list date) : bool :=
  match l with
  | [] => true
  | d :: t => negb (existsb (date_eqb d) t) && is_unique t
  end.

Fixpoint lookup {A} (d : date) (r : keyed A) : option A :=
  match r with
  | [] => None
  | (k, a) :: t => if date_eqb k d then Some a else lookup d t
  end.

(** [df.reindex(idx)] for a frame indexed by date: raises on duplicate
    labels, a label without a row yields the missing row [na]. *)
Definition reindex {A} (na : A) (idx : list date) (r : keyed A) : option (keyed A) :=
  if is_unique (map fst r)
  then Some (map (fun d => (d, match lookup d r with Some a => a | None => na end)) idx)
  else None.

(** Minimum and maximum of a non-empty date column. *)
Definition date_min (a b : date) : date := if date_ltb b a then b else a.
Definition date_max (a b : date) : date := if date_ltb a b then b else a.

Definition min_date (l : list date) : option date :=
  match l with [] => None | d :: t => Some (fold_left date_min t d) end.
Definition max_date (l : list date) : option date :=
  match l with [] => None | d :: t => Some (fold_left date_max t d) end.

(** ** Means *)

Definition dropna (l : list value) : list Q :=
  flat_map (fun v => match v with Some x => [x] | None => [] end) l.

Definition Qsum (l : list Q) : Q := fold_right Qplus 0%Q l.

(** [Series.mean()]: NaN cells are skipped; the mean of no cell is NaN. *)
Definition mean (l : list value) : value :=
  match dropna l with
  | [] => None
  | xs => Some (Qsum xs / inject_Z (Z.of_nat (List.length xs)))%Q
  end.

End Frame.

(* ================================================================== *)
(** * Grid Locator and Variable Extractor
      ([extract_daily_data_from_netcdf])                                *)
(* ================================================================== *)

Module Extractor.
Import Calendar Frame.

(** What the extractor reads from one NetCDF file (file names are ASCII).
    - [nc_name]: [os.path.basename(nc_file)];
    - [nc_var]: whether a data variable matches the variable identifier
      ([var_name is not None] after the name search);
    - [nc_lat], [nc_lon]: the 1-D axes of the coordinates whose names
      contain "lat" / "lon", when present;
    - [nc_cell i j]: [ds[var_name].isel(lat=i, lon=j).values] flattened,
      [None] when reading it raises;
    - [nc_time]: the time axis obtained from the file's own time coordinate
      (decoded, or offset from "days since"), [None] when the file has no
      usable time axis. *)
Record NcFile : Type := mkNcFile {
  nc_name : string;
  nc_var : bool;
  nc_lat : option (list Q);
  nc_lon : option (list Q);
  nc_cell : nat -> nat -> option (list value);
  nc_time : option (list date)
}.

(** The diagnostics printed by the extractor. *)
Inductive message : Type :=
| ErrNoFiles
| WarnOutsideTolerance (alat alon : Q)
| UsingGridPoint (alat alon : Q)
| WarnSampleFile
| ErrNoStructure
| ErrFile (name : string)
| ErrNoData
| OkExtracted (records : nat).

(** ** Grid Locator *)

Definition Qltb (a b : Q) : bool := negb (Qle_bool b a).

(** [np.abs(axis - target)]. *)
Definition abs_diff (axis : list Q) (target : Q) : list Q :=
  map (fun a => Qabs (a - target)) axis.

(** [ndarray.argmin()]: scan from the left, replace the running minimum
    only by a strictly smaller element. *)
Fixpoint argmin_from (best : Q) (besti i : nat) (l : list Q) : nat :=
  match l with
  | [] => besti
  | x :: t => if Qltb x best then argmin_from x i (S i) t
              else argmin_from best besti (S i) t
  end.

(** [None]: [ValueError] on an empty sequence. *)
Definition np_argmin (l : list Q) : option nat :=
  match l with
  | [] => None
  | x :: t => Some (argmin_from x 0 1 t)
  end.

Record located : Type := mklocated {
  lat_idx : nat;
  lon_idx : nat;
  actual_lat : Q;
  actual_lon : Q;
  within_tolerance : bool
}.

(** Nearest grid point and tolerance check of the sample file. *)
Definition grid_locator (lat lon : list Q) (target_lat target_lon tolerance : Q)
  : option located :=
  match np_argmin (abs_diff lat target_lat),
        np_argmin (abs_diff lon target_lon) with
  | Some i, Some j =>
      let alat := nth i lat 0%Q in
      let alon := nth j lon 0%Q in
      Some (mklocated i j alat alon
              (negb (Qltb tolerance (Qabs (alat - target_lat)) ||
                     Qltb tolerance (Qabs (alon - target_lon)))))
  | _, _ => None
  end.

(** The sample-file block: the cached indices and what is printed. *)
Definition locate_in_sample (f : NcFile) (target_lat target_lon tolerance : Q)
  : option located * list message :=
  match nc_lat f, nc_lon f with
  | Some lat, Some lon =>
      match grid_locator lat lon target_lat target_lon tolerance with
      | Some p =>
          (Some p,
           [if within_tolerance p
            then UsingGridPoint (actual_lat p) (actual_lon p)
            else WarnOutsideTolerance (actual_lat p) (actual_lon p)])
      | None => (None, [WarnSampleFile])
      end
  | _, _ => (None, [])
  end.

(** ** Time axis of one file *)

Definition is_digit (c : ascii) : bool :=
  let n := nat_of_ascii c in (48 <=? n)%nat && (n <=? 57)%nat.

Definition digit_val (c : ascii) : Z := Z.of_nat (nat_of_ascii c) - 48.

(** The number written by the first four characters, when all are digits. *)
Definition four_digits (s : string) : option Z :=
  match s with
  | String a (String b (String c (String d _))) =>
      if is_digit a && is_digit b && is_digit c && is_digit d
      then Some (1000 * digit_val a + 100 * digit_val b
                 + 10 * digit_val c + digit_val d)
      else None
  | _ => None
  end.

(** [[int(m) for m in re.findall(r'\d{4}', s)]]: non-overlapping matches,
    leftmost first; [skip] characters of the last match are still to pass. *)
Fixpoint findall_d4_skip (skip : nat) (s : string) : list Z :=
  match s with
  | EmptyString => []
  | String _ r =>
      match skip with
      | S k => findall_d4_skip k r
      | O => match four_digits s with
             | Some y => y :: findall_d4_skip 3 r
             | None => findall_d4_skip 0 r
             end
      end
  end.

Definition findall_d4 (s : string) : list Z := findall_d4_skip 0 s.

(** The first candidate with [2000 <= year_candidate <= 2100]. *)
Definition filename_year (name : string) : option Z :=
  find (fun y => (2000 <=? y) && (y <=? 2100)) (findall_d4 name).

(** Method 2: dates from the year in the file name, 2035 when there is none. *)
Definition dates_from_filename (name : string) (n : nat) : list date :=
  match filename_year name with
  | Some y => date_range_periods (jan1 y) n
  | None => date_range_periods (jan1 2035) n
  end.

(** The time axis before its length is reconciled with the data. *)
Definition time_values (f : NcFile) (n : nat) : list date :=
  match nc_time f with
  | Some t => t
  | None => dates_from_filename (nc_name f) n
  end.

(** Trim or extend the dates to [n] entries; [None] is the [IndexError] of
    [time_values[-1]] on an empty axis. *)
Definition fit_length (t : list date) (n : nat) : option (list date) :=
  if (List.length t =? n)%nat then Some t
  else if (n <? List.length t)%nat then Some (firstn n t)
  else match rev t with
       | [] => None
       | last_date :: _ =>
           Some (t ++ date_range_periods (next_day last_date) (n - List.length t))
       end.

(** One iteration of the file loop: the frame appended to [all_data], if
    any, and the error printed when the file is skipped. *)
Definition file_frame (f : NcFile) (i j : nat) : option series * list message :=
  match nc_cell f i j with
  | None => (None, [ErrFile (nc_name f)])
  | Some values =>
      let n := List.length values in
      match fit_length (time_values f n) n with
      | None => (None, [ErrFile (nc_name f)])
      | Some t =>
          if (0 <? n)%nat then (Some (combine (firstn n t) values), [])
          else (None, [])
      end
  end.

Fixpoint all_frames (files : list NcFile) (i j : nat)
  : list series * list message :=
  match files with
  | [] => ([], [])
  | f :: rest =>
      let '(fr, m1) := file_frame f i j in
      let '(frs, m2) := all_frames rest i j in
      (match fr with Some s => s :: frs | None => frs end, m1 ++ m2)
  end.

(** ** Concatenation, sort and removal of duplicate dates *)

(** [drop_duplicates(subset='date', keep='first')]. *)
Fixpoint drop_duplicates_from (seen : list date) (s : series) : series :=
  match s with
  | [] => []
  | (d, v) :: t =>
      if existsb (date_eqb d) seen then drop_duplicates_from seen t
      else (d, v) :: drop_duplicates_from (d :: seen) t
  end.

Definition drop_duplicates (s : series) : series := drop_duplicates_from [] s.

Section WithSort.

(** [sort_values('date')]: pandas sorts with its default algorithm
    (quicksort), which is not stable; the sort is a parameter, and the
    results below ask only that it returns its rows ordered by date. *)
Variable sort_values : series -> series.

(** The tail of the extractor: [pd.concat], sort, drop duplicates. *)
Definition combine_frames (all_data : list series) : series :=
  drop_duplicates (sort_values (List.concat all_data)).

(** [extract_daily_data_from_netcdf] on the files found for the variable
    (already in sorted order): the returned frame, [None] for
    [return None], and the diagnostics printed. *)
Definition extract_daily_data_from_netcdf
  (nc_files : list NcFile) (target_lat target_lon tolerance : Q)
  : option series * list message :=
  match nc_files with
  | [] => (None, [ErrNoFiles])
  | sample :: _ =>
      let '(loc, m0) := locate_in_sample sample target_lat target_lon tolerance in
      match (if nc_var sample then loc else None) with
      | None => (None, m0 ++ [ErrNoStructure])
      | Some p =>
          let '(all_data, m1) := all_frames nc_files (lat_idx p) (lon_idx p) in
          match all_data with
          | [] => (None, m0 ++ m1 ++ [ErrNoData])
          | _ =>
              let combined := combine_frames all_data in
              (Some combined, m0 ++ m1 ++ [OkExtracted (List.length combined)])
          end
      end
  end.

End WithSort.

(** A stable insertion sort by date, one admissible [sort_values]. *)
Fixpoint insert_by_date (x : date * value) (l : series) : series :=
  match l with
  | [] => [x]
  | y :: t => if date_leb (fst x) (fst y) then x :: y :: t
              else y :: insert_by_date x t
  end.

Definition insertion_sort (s : series) : series :=
  fold_right insert_by_date [] s.

End Extractor.

(* ================================================================== *)
(** * Derived Variable Calculator                                       *)
(* ================================================================== *)

Module Derived.
Import Calendar Frame.

Definition vsub : value -> value -> value := vlift2 Qminus.

(** [(df['maxt'] + df['mint']) / 2.0]. *)
Definition tmean_of (r : value * value) : value :=
  vdiv (vadd (fst r) (snd r)) (Some 2%Q).

Definition ym_eqb (a b : Z * Z) : bool :=
  (fst a =? fst b) && (snd a =? snd b).

Definition year_month (d : date) : Z * Z := (year d, month d).

(** The distinct group keys, by first appearance. *)
Fixpoint group_keys (seen : list (Z * Z)) (l : list (Z * Z)) : list (Z * Z) :=
  match l with
  | [] => []
  | k :: t => if existsb (ym_eqb k) seen then group_keys seen t
              else k :: group_keys (k :: seen) t
  end.

(** [df.groupby(['year', 'month'])['tmean'].mean()].  (pandas lists the
    groups by ascending key; a mean does not depend on the order of its
    terms and the order of the groups is not observed otherwise.) *)
Definition monthly_means (t : keyed value) : list ((Z * Z) * value) :=
  map (fun k =>
         (k, mean (map snd (filter (fun x => ym_eqb (year_month (fst x)) k) t))))
      (group_keys [] (map (fun x => year_month (fst x)) t)).

(** [monthly_means[monthly_means.index.get_level_values('month') == m].mean()]. *)
Definition mean_of_month (m : Z) (mm : list ((Z * Z) * value)) : value :=
  mean (map snd (filter (fun g => snd (fst g) =? m) mm)).

(** [calculate_tav_amp]: [df] is indexed by date and has the columns
    [maxt] and [mint]. *)
Definition calculate_tav_amp (df : keyed (value * value)) : value * value :=
  let tmean := map (fun r => (fst r, tmean_of (snd r))) df in
  let mm := monthly_means tmean in
  let tav := mean (map snd tmean) in
  let jan_means := mean_of_month 1 mm in
  let jul_means := mean_of_month 7 mm in
  let amp := vdiv (vsub jan_means jul_means) (Some 2%Q) in
  (tav, amp).

Section WithExp.

(** [np.exp] on finite floats. *)
Variable np_exp : Q -> Q.

(** [calculate_saturation_vapor_pressure]:
    [0.611 * np.exp(17.27 * temperature / (temperature + 237.3))]. *)
Definition calculate_saturation_vapor_pressure (temperature : value) : value :=
  match temperature with
  | Some t => Some (0.611 * np_exp (17.27 * t / (t + 237.3)))%Q
  | None => None
  end.

(** [calculate_vapor_pressure]: the frames are read as (date, value) rows. *)
Definition calculate_vapor_pressure (hurs_df tasmax_df tasmin_df : series) : series :=
  let temp_df :=
    map (fun r => (fst r, tmean_of (snd r))) (inner_merge tasmax_df tasmin_df) in
  let merged := inner_merge hurs_df temp_df in
  map (fun r =>
         let es_kpa := calculate_saturation_vapor_pressure (snd (snd r)) in
         let ea_kpa := vmul (vdiv (fst (snd r)) (Some 100%Q)) es_kpa in
         (fst r, vmul (Some 10%Q) ea_kpa))
      merged.

End WithExp.

End Derived.

(* ================================================================== *)
(** * Text formatting ([f"{n:4d}"], [f"{x:6.1f}"])                       *)
(* ================================================================== *)

Module Text.

Definition digit_char (d : Z) : ascii := ascii_of_nat (48 + Z.to_nat d).

(** Decimal digits of [n >= 0], most significant first, in front of [acc]. *)
Fixpoint digits_fuel (fuel : nat) (n : Z) (acc : string) : string :=
  match fuel with
  | O => acc
  | S f =>
      let acc' := String (digit_char (n mod 10)) acc in
      if n <? 10 then acc' else digits_fuel f (n / 10) acc'
  end.

Definition str_of_nonneg (n : Z) : string :=
  digits_fuel (S (Z.to_nat (Z.log2 n))) n "".

(** [str(n)] for an integer. *)
Definition str_of_int (n : Z) : string :=
  if n <? 0 then String "-" (str_of_nonneg (- n)) else str_of_nonneg n.

Fixpoint spaces (n : nat) : string :=
  match n with O => EmptyString | S k => String " " (spaces k) end.

(** Right-justify in a field of at least [w] characters; a longer text is
    kept whole. *)
Definition pad_left (w : nat) (s : string) : string :=
  (spaces (w - String.length s) ++ s)%string.

(** [f"{n:{w}d}"]. *)
Definition format_d (w : nat) (n : Z) : string := pad_left w (str_of_int n).

(** Round to the nearest integer, ties to the even one. *)
Definition round_half_even (q : Q) : Z :=
  let f := Qfloor q in
  match Qcompare (q - inject_Z f) (1 # 2) with
  | Lt => f
  | Gt => f + 1
  | Eq => if Z.even f then f else f + 1
  end.

(** The value written with one decimal, counted in tenths. *)
Definition tenths (x : Q) : Z := round_half_even (x * 10).

(** [f"{x:{w}.1f}"] for a finite [x]: a value below zero keeps its sign even
    when it rounds to zero. *)
Definition format_f1 (w : nat) (x : Q) : string :=
  let a := Z.abs (tenths x) in
  let body := (str_of_nonneg (a / 10) ++ "." ++ str_of_nonneg (a mod 10))%string in
  pad_left w (if Qle_bool 0 x then body else String "-" body).

End Text.

(* ================================================================== *)
(** * Series Assembler and MET Writer ([create_met_file])               *)
(* ================================================================== *)

Module Met.
Import Calendar Frame Derived Text.

(** The frames passed to [create_met_file]; they are the caller's objects,
    so the state of each after the call is part of the result. *)
Record Inputs : Type := mkInputs {
  tasmax_df : DataFrame;
  tasmin_df : DataFrame;
  pr_df : DataFrame;
  rsds_df : option DataFrame;
  hurs_df : option DataFrame
}.

(** One row of [met_data].  A blank cell (the empty string or NaN) of a
    numeric column is [None]. *)
Record MetRow : Type := mkMetRow {
  r_year : Z;
  r_day : Z;
  r_radn : value;
  r_maxt : value;
  r_mint : value;
  r_rain : value;
  r_evap : value;
  r_vp : value;
  r_code : string
}.

Record MetOutput : Type := mkMetOutput {
  out_tav : value;
  out_amp : value;
  out_data : list MetRow;        (* met_data, also written as CSV *)
  out_lines : list string;       (* the data rows of the MET file *)
  out_total_days : nat;          (* len(met_data), the third result *)
  out_expected_days : Z          (* the calendar expectation it is checked against *)
}.

(** ** Computations in the presence of the caller's frames *)

Definition M (A : Type) : Type := Inputs -> option A * Inputs.

Definition ret {A} (a : A) : M A := fun s => (Some a, s).

(** An uncaught exception: the frames stay as they are at that point. *)
Definition raise {A} : M A := fun s => (None, s).

Definition bind {A B} (m : M A) (k : A -> M B) : M B :=
  fun s => match m s with
           | (Some a, s') => k a s'
           | (None, s') => (None, s')
           end.

Definition get : M Inputs := fun s => (Some s, s).
Definition put (s : Inputs) : M unit := fun _ => (Some tt, s).

Definition lift {A} (o : option A) : M A :=
  match o with Some a => ret a | None => raise end.

Notation "x <- c ;; k" := (bind c (fun x => k))
  (at level 61, c at next level, right associativity).

Definition set_tasmin (df : DataFrame) : M unit :=
  s <- get ;; put (mkInputs (tasmax_df s) df (pr_df s) (rsds_df s) (hurs_df s)).
Definition set_pr (df : DataFrame) : M unit :=
  s <- get ;; put (mkInputs (tasmax_df s) (tasmin_df s) df (rsds_df s) (hurs_df s)).
Definition set_rsds (df : DataFrame) : M unit :=
  s <- get ;; put (mkInputs (tasmax_df s) (tasmin_df s) (pr_df s) (Some df) (hurs_df s)).

(** ** The MET Writer: one data row *)

Definition blank6 : string := "      ".

(** A 6-character field for radiation, evaporation and vapor pressure. *)
Definition field_or_blank (v : value) : string :=
  match v with
  | Some x => format_f1 6 x
  | None => blank6
  end.

(** [row[c] if pd.notna(row[c]) else 0.0], then [f"{...:6.1f}"]. *)
Definition field_or_zero (v : value) : string :=
  match v with
  | Some x => format_f1 6 x
  | None => format_f1 6 0
  end.

Definition code_str : string := "222222".

Definition sp (a b : string) : string := (a ++ " " ++ b)%string.

Definition newline : string := String (ascii_of_nat 10) EmptyString.

(** The [line] written for one row of [met_data]. *)
Definition format_row (row : MetRow) : string :=
  (sp (format_d 4 (r_year row))
  (sp (format_d 4 (r_day row))
  (sp (field_or_blank (r_radn row))
  (sp (field_or_zero (r_maxt row))
  (sp (field_or_zero (r_mint row))
  (sp (field_or_zero (r_rain row))
  (sp (field_or_blank (r_evap row))
  (sp (field_or_blank (r_vp row))
      code_str))))))) ++ newline)%string.

(** ** The Series Assembler *)

(** [col.ffill().bfill()] followed by [fillna(0.0)]. *)
Definition fill_numeric (c : list value) : list value :=
  fillna 0 (bfill (ffill c)).

(** [pd.DataFrame({'date': rng}).merge(df[['date', 'value']], on='date',
    how='left')] with the value column forward and backward filled. *)
Definition complete_on (rng : list date) (s : series) : series :=
  let m := left_merge None (map (fun d => (d, tt)) rng) s in
  combine (map fst m) (bfill (ffill (map (fun r => snd (snd r)) m))).

(** The day-366 rows without a vapor pressure take that of day 365 of the
    same year.  (The source updates the table row by row; the rows it reads
    are day-365 rows, which it never writes.) *)
Definition copy_day365 (vp : series) : series :=
  map (fun r =>
         if (dayofyear (fst r) =? 366) && negb (notna (snd r)) then
           match find (fun r' => (year (fst r') =? year (fst r)) &&
                                 (dayofyear (fst r') =? 365)) vp with
           | Some r365 => (fst r, snd r365)
           | None => r
           end
         else r)
      vp.

(** [met_data['year'].unique()]. *)
Fixpoint unique_years (seen : list Z) (l : list Z) : list Z :=
  match l with
  | [] => []
  | y :: t => if existsb (Z.eqb y) seen then unique_years seen t
              else y :: unique_years (y :: seen) t
  end.

(** [sum(366 if calendar.isleap(year) else 365 for year in years)]. *)
Definition expected_days (years : list Z) : Z :=
  fold_right Z.add 0 (map days_in_year years).

Fixpoint build_rows (dates : list date) (radn maxt mint rain vp : list value)
  : list MetRow :=
  match dates, radn, maxt, mint, rain, vp with
  | d :: ds, a :: radn', b :: maxt', c :: mint', e :: rain', v :: vp' =>
      mkMetRow (year d) (dayofyear d) a b c e None v code_str
      :: build_rows ds radn' maxt' mint' rain' vp'
  | _, _, _, _, _, _ => []
  end.

Definition merged_row : Type := ((value * value) * value) * value.

Definition nan_row : merged_row := (((None, None), None), None).

Definition col_maxt (r : date * merged_row) : value := fst (fst (fst (snd r))).
Definition col_mint (r : date * merged_row) : value := snd (fst (fst (snd r))).
Definition col_rain (r : date * merged_row) : value := snd (fst (snd r)).
Definition col_radn (r : date * merged_row) : value := snd (snd r).

(** The covering range: from the minimum date to the maximum date, the
    latter moved to December 31 when it falls earlier in its year. *)
Definition covering_range (dates : list date) : option (list date) :=
  match min_date dates, max_date dates with
  | Some lo, Some hi =>
      let last_day_of_year := dec31 (year hi) in
      let hi' := if date_ltb hi last_day_of_year then last_day_of_year else hi in
      Some (date_range lo hi')
  | _, _ => None
  end.

Section WithExp.

Variable np_exp : Q -> Q.

(** The vapor-pressure column on the covering range; [None]: the alignment
    of a column with duplicate labels raises. *)
Definition vp_column (rng : list date) (maxt mint : series) (hurs : option series)
  : option (list value) :=
  match hurs with
  | Some (h :: hs) =>
      let hurs_complete := complete_on rng (h :: hs) in
      let tasmax_complete := complete_on rng maxt in
      let tasmin_complete := complete_on rng mint in
      let vp_df := calculate_vapor_pressure np_exp hurs_complete
                     tasmax_complete tasmin_complete in
      if is_unique (map fst vp_df)
      then Some (map (fun d => match lookup d vp_df with
                               | Some v => v
                               | None => None
                               end) rng)
      else None
  | _ => Some (map (fun _ => None) rng)
  end.

(** The part of [create_met_file] after the input frames are read: merge,
    reindex, fill, derive, format. *)
Definition assemble (maxt mint rain radn : series) (hurs : option series)
  : option MetOutput :=
  let merged :=
    outer_merge ((None, None), None) None
      (outer_merge (None, None) None
         (outer_merge None None maxt mint) rain) radn in
  match covering_range (map fst merged) with
  | None => None
  | Some complete_date_range =>
  match reindex nan_row complete_date_range merged with
  | None => None
  | Some merged =>
  let maxt_c := fill_numeric (map col_maxt merged) in
  let mint_c := fill_numeric (map col_mint merged) in
  let rain_c := fill_numeric (map col_rain merged) in
  let radn_c := fill_numeric (map col_radn merged) in
  match vp_column complete_date_range maxt mint hurs with
  | None => None
  | Some vp0 =>
  let '(tav, amp) :=
    calculate_tav_amp (combine complete_date_range (combine maxt_c mint_c)) in
  let vp1 := map snd (copy_day365 (combine complete_date_range vp0)) in
  let vp_c := match hurs with
              | Some (_ :: _) => bfill (ffill vp1)
              | _ => vp1
              end in
  let met_data := build_rows complete_date_range radn_c maxt_c mint_c rain_c vp_c in
  Some (mkMetOutput tav amp met_data (map format_row met_data)
          (List.length met_data)
          (expected_days (unique_years [] (map r_year met_data))))
  end end end.

(** [create_met_file].  Frames without the columns [date] (timestamps) and
    [value] (floats) are outside the model: reading them raises.  The header
    block of the MET file and the file names are not modelled. *)
Definition create_met_file : M MetOutput :=
  s <- get ;;
  (* merged = tasmax_df.copy() *)
  maxt <- lift (rows_of "value" (tasmax_df s)) ;;
  (* tasmin_df['date'] = pd.to_datetime(tasmin_df['date']) *)
  c <- lift (to_datetime "date" (tasmin_df s)) ;;
  _ <- set_tasmin (set_col "date" c (tasmin_df s)) ;;
  s <- get ;;
  mint <- lift (rows_of "value" (tasmin_df s)) ;;
  (* pr_df['date'] = pd.to_datetime(pr_df['date']) *)
  c <- lift (to_datetime "date" (pr_df s)) ;;
  _ <- set_pr (set_col "date" c (pr_df s)) ;;
  s <- get ;;
  rain <- lift (rows_of "value" (pr_df s)) ;;
  (* if rsds_df is None or len(rsds_df) == 0: raise ValueError *)
  rsds <- lift (match rsds_df s with
                | Some df => if (df_len df =? 0)%nat then None else Some df
                | None => None
                end) ;;
  (* rsds_df['date'] = pd.to_datetime(rsds_df['date']) *)
  c <- lift (to_datetime "date" rsds) ;;
  let rsds := set_col "date" c rsds in
  _ <- set_rsds rsds ;;
  (* rsds_df['value_mj'] = rsds_df['value'] * 0.0864 *)
  v <- lift (num_col "value" rsds) ;;
  let rsds := set_col "value_mj" (ColNum (map (fun x => vmul x (Some 0.0864%Q)) v)) rsds in
  _ <- set_rsds rsds ;;
  radn <- lift (rows_of "value_mj" rsds) ;;
  (* if hurs_df is not None and len(hurs_df) > 0: hurs_df_copy = hurs_df.copy() *)
  hurs <- match hurs_df s with
          | Some df =>
              if (df_len df =? 0)%nat then ret None
              else h <- lift (rows_of "value" df) ;; ret (Some h)
          | None => ret None
          end ;;
  lift (assemble maxt mint rain radn hurs).

End WithExp.

End Met.

(* ================================================================== *)
(** * Reading a MET data row back by its fixed-width columns            *)
(* ================================================================== *)

(** The reader follows the column layout of the MET format as the
    specification gives it: year (4 characters), day of year (4), then
    radiation, maximum temperature, minimum temperature, rainfall,
    evaporation and vapor pressure (6 each, one decimal, six spaces when
    absent) and the 6-character source code, the fields separated by one
    space.  It is the inverse against which the writer is checked. *)
Module MetReader.
Import Frame Met.

Fixpoint take (n : nat) (s : string) : string :=
  match n, s with
  | S k, String c r => String c (take k r)
  | _, _ => EmptyString
  end.

Fixpoint drop (n : nat) (s : string) : string :=
  match n, s with
  | S k, String _ r => drop k r
  | _, _ => s
  end.

Definition is_space (c : ascii) : bool := Ascii.eqb c " ".

Fixpoint lstrip (s : string) : string :=
  match s with
  | String c r => if is_space c then lstrip r else s
  | EmptyString => EmptyString
  end.

Definition is_digit (c : ascii) : bool :=
  let n := nat_of_ascii c in (48 <=? n)%nat && (n <=? 57)%nat.

Fixpoint parse_digits (acc : Z) (s : string) : option Z :=
  match s with
  | EmptyString => Some acc
  | String c r =>
      if is_digit c
      then parse_digits (10 * acc + (Z.of_nat (nat_of_ascii c) - 48)) r
      else None
  end.

(** A non-empty run of digits. *)
Definition parse_nat (s : string) : option Z :=
  match s with
  | EmptyString => None
  | _ => parse_digits 0 s
  end.

(** A right-justified integer field. *)
Definition parse_int_field (s : string) : option Z :=
  match lstrip s with
  | String c r =>
      if Ascii.eqb c "-" then option_map Z.opp (parse_nat r)
      else parse_nat (String c r)
  | EmptyString => None
  end.

(** The text before the first "." and the text after it. *)
Fixpoint split_dot (s : string) : string * option string :=
  match s with
  | EmptyString => (EmptyString, None)
  | String c r =>
      if Ascii.eqb c "." then (EmptyString, Some r)
      else let '(a, b) := split_dot r in (String c a, b)
  end.

Fixpoint pow10 (k : nat) : positive :=
  match k with O => 1%positive | S j => (10 * pow10 j)%positive end.

(** A decimal number "[-]ddd.ddd", read exactly. *)
Definition parse_decimal (s : string) : option Q :=
  let '(neg, body) := match s with
                      | String c r => if Ascii.eqb c "-" then (true, r) else (false, s)
                      | EmptyString => (false, s)
                      end in
  match split_dot body with
  | (ip, Some fp) =>
      match parse_nat ip, parse_nat fp with
      | Some i, Some f =>
          let k := String.length fp in
          let n := i * Zpos (pow10 k) + f in
          Some ((if neg then - n else n) # pow10 k)
      | _, _ => None
      end
  | (_, None) => None
  end.

(** A right-justified numeric field; six spaces read as an absent value. *)
Definition parse_num_field (s : string) : option value :=
  match lstrip s with
  | EmptyString => Some None
  | t => option_map Some (parse_decimal t)
  end.

Definition field (start len : nat) (line : string) : string :=
  take len (drop start line).

Definition separators_ok (line : string) : bool :=
  forallb (fun i => String.eqb (field i 1 line) " ")
          [4; 9; 16; 23; 30; 37; 44; 51]%nat.

(** One data row, read by column positions; [None] when the line does not
    have the layout. *)
Definition parse_row (line : string) : option MetRow :=
  if negb ((String.length line =? 59)%nat && separators_ok line
           && String.eqb (field 58 1 line) newline) then None
  else
  match parse_int_field (field 0 4 line), parse_int_field (field 5 4 line),
        parse_num_field (field 10 6 line), parse_num_field (field 17 6 line),
        parse_num_field (field 24 6 line), parse_num_field (field 31 6 line),
        parse_num_field (field 38 6 line), parse_num_field (field 45 6 line) with
  | Some y, Some d, Some radn, Some maxt, Some mint, Some rain, Some evap, Some vp =>
      Some (mkMetRow y d radn maxt mint rain evap vp (field 52 6 line))
  | _, _, _, _, _, _, _, _ => None
  end.

End MetReader.

(* ================================================================== *)
(** * Vocabulary of the statements                                      *)
(* ================================================================== *)

Module Statements.
Import Calendar Frame Extractor Derived Text Met.

Local Open Scope Z_scope.

(** [i] is the first index of [axis] whose value is nearest to [target]. *)
Definition first_nearest (axis : list Q) (target : Q) (i : nat) : Prop :=
  (i < List.length axis)%nat /\
  (forall j, (j < List.length axis)%nat ->
     (Qabs (nth i axis 0 - target) <= Qabs (nth j axis 0 - target))%Q) /\
  (forall j, (j < i)%nat ->
     (Qabs (nth i axis 0 - target) < Qabs (nth j axis 0 - target))%Q).

(** The grid point the extractor caches from its sample file. *)
Definition located_point (nc_files : list NcFile) (target_lat target_lon tolerance : Q)
  : option located :=
  match nc_files with
  | [] => None
  | sample :: _ => fst (locate_in_sample sample target_lat target_lon tolerance)
  end.

(** Rows in ascending order of date, allowing equal dates. *)
Definition by_date (a b : date * value) : Prop :=
  toordinal (fst a) <= toordinal (fst b).

(** Rows in strictly ascending order of date. *)
Definition strictly_by_date (a b : date * value) : Prop :=
  toordinal (fst a) < toordinal (fst b).




(** What identifies the calendar day of a row: year and day of year. *)
Definition row_key (r : MetRow) : Z * Z := (r_year r, r_day r).
Definition date_key (d : date) : Z * Z := (year d, dayofyear d).

(** The frames handed to [create_met_file] for given Daily Series. *)
Definition inputs_of (maxt mint rain radn : series) (hurs : option series) : Inputs :=
  mkInputs (frame_of maxt) (frame_of mint) (frame_of rain)
           (Some (frame_of radn)) (option_map frame_of hurs).

Definition all_valid (s : series) : Prop :=
  Forall (fun d => valid_date d = true) (map fst s).

(** A Daily Series has one row per date. *)
Definition unique_dates (s : series) : Prop := is_unique (map fst s) = true.

(** The reported vapor pressure as the specification writes it, for
    relative humidity [rh] (percent) and the mean [t] of the day's maximum
    and minimum temperature:
    10 x (RH/100) x 0.611 x exp(17.27 T / (T + 237.3)). *)
Definition vp_formula (np_exp : Q -> Q) (rh maxt mint : Q) : Q :=
  let t := ((maxt + mint) / 2)%Q in
  (10 * (rh / 100) * 0.611 * np_exp (17.27 * t / (t + 237.3)))%Q.

(** The annual amplitude as the specification writes it: the mean over the
    years of the January monthly-mean temperatures minus that of the July
    monthly-mean temperatures, divided by 2. *)
Definition rows_of_month (y m : Z) (t : keyed value) : list value :=
  map snd (filter (fun x => (year (fst x) =? y) && (month (fst x) =? m)) t).

Definition years_with_month (m : Z) (t : keyed value) : list Z :=
  unique_years [] (map (fun x => year (fst x))
                       (filter (fun x => month (fst x) =? m) t)).

Definition monthly_mean_temperatures (m : Z) (t : keyed value) : list value :=
  map (fun y => mean (rows_of_month y m t)) (years_with_month m t).

Definition daily_means (df : keyed (value * value)) : keyed value :=
  map (fun r => (fst r, tmean_of (snd r))) df.

Definition amp_formula (df : keyed (value * value)) : value :=
  vdiv (vsub (mean (monthly_mean_temperatures 1 (daily_means df)))
             (mean (monthly_mean_temperatures 7 (daily_means df))))
       (Some 2%Q).

(** The rows of January and of July. *)
Definition january_july (df : keyed (value * value)) : keyed (value * value) :=
  filter (fun r => (month (fst r) =? 1) || (month (fst r) =? 7)) df.

(** Every monthly mean of the list is the number [c]. *)
Definition all_equal_to (c : Q) (l : list value) : Prop :=
  l <> [] /\ Forall (fun v => exists x, v = Some x /\ (x == c)%Q) l.

(** A text made of decimal digits only. *)
Fixpoint all_digits (s : string) : bool :=
  match s with
  | EmptyString => true
  | String c r => MetReader.is_digit c && all_digits r
  end.

(** The value, rounded to one decimal, can be written in six characters:
    it lies between -999.9 and 9999.9. *)
Definition fits6 (v : value) : Prop :=
  match v with
  | Some x => -9999 <= tenths x <= 99999
  | None => True
  end.

(** A row whose cells fit their columns. *)
Definition in_layout (r : MetRow) : Prop :=
  0 <= r_year r <= 9999 /\ 0 <= r_day r <= 9999 /\
  fits6 (r_radn r) /\ fits6 (r_maxt r) /\ fits6 (r_mint r) /\
  fits6 (r_rain r) /\ fits6 (r_evap r) /\ fits6 (r_vp r).

(** A cell rounded to one decimal; an absent cell stays absent. *)
Definition rounded (v : value) : value :=
  match v with
  | Some x => Some (tenths x # 10)
  | None => None
  end.

(** The same, an absent cell being written as 0.0. *)
Definition rounded_or_zero (v : value) : value :=
  match v with
  | Some x => Some (tenths x # 10)
  | None => Some (0 # 10)
  end.

(** What a reader finds in the line written for a row. *)
Definition written_row (r : MetRow) : MetRow :=
  mkMetRow (r_year r) (r_day r)
           (rounded (r_radn r))
           (rounded_or_zero (r_maxt r)) (rounded_or_zero (r_mint r))
           (rounded_or_zero (r_rain r))
           (rounded (r_evap r)) (rounded (r_vp r))
           "222222".

End Statements.

(* ================================================================== *)
(** * Processing one coordinate ([process_coordinate], the main block)  *)
(* ================================================================== *)

Module Pipeline.
Import Calendar Frame Extractor Met.

(** The dictionary [extracted_data]: keys in the order of their first
    assignment; a key assigned again keeps its place and takes the new
    frame. *)
Definition dict : Type := list (string * series).

Fixpoint dict_get (k : string) (d : dict) : option series :=
  match d with
  | [] => None
  | (k', v) :: rest => if String.eqb k' k then Some v else dict_get k rest
  end.

Fixpoint dict_set (k : string) (v : series) (d : dict) : dict :=
  match d with
  | [] => [(k, v)]
  | (k', v') :: rest =>
      if String.eqb k' k then (k', v) :: rest
      else (k', v') :: dict_set k v rest
  end.

(** [k in extracted_data]. *)
Definition dict_mem (k : string) (d : dict) : bool :=
  match dict_get k d with Some _ => true | None => false end.

Definition required_vars : list string :=
  ["tasmax"; "tasmin"; "pr"; "rsds"]%string.

(** The dictionary returned by [process_coordinate] (the coordinates, the
    model and the scenario are copied from the arguments). *)
Record Summary : Type := mkSummary {
  variables_extracted : list string;
  num_variables : nat;
  sum_tav : value;
  sum_amp : value;
  num_rows : nat;
  date_range_start : option date;    (* tasmax_df['date'].min() *)
  date_range_end : option date       (* tasmax_df['date'].max() *)
}.

(** How a run ends: an uncaught exception, [return None], or the summary. *)
Inductive outcome : Type :=
| Raised
| ReturnedNone
| Returned (summary : Summary).

Section WithEnvironment.

Variable sort_values : series -> series.
Variable np_exp : Q -> Q.

(** The NetCDF files found in the data directory for each variable. *)
Variable nc_files_of : string -> list NcFile.

(** One iteration of the loop over [variables]. *)
Definition extract_variable (latitude longitude tolerance : Q)
  (extracted_data : dict) (variable : string) : dict :=
  match fst (extract_daily_data_from_netcdf sort_values (nc_files_of variable)
               latitude longitude tolerance) with
  | Some df =>
      if (0 <? List.length df)%nat then dict_set variable df extracted_data
      else extracted_data
  | None => extracted_data
  end.

Definition extract_variables (variables : list string)
  (latitude longitude tolerance : Q) : dict :=
  fold_left (extract_variable latitude longitude tolerance) variables [].

(** [process_coordinate]: how the call ends and the table written as the
    MET file, if one is written.  [data_dir_exists] is
    [os.path.exists(data_dir)]. *)
Definition process_coordinate (data_dir_exists : bool) (variables : list string)
  (latitude longitude tolerance : Q) : outcome * option MetOutput :=
  if negb data_dir_exists then (ReturnedNone, None)
  else
    let extracted_data := extract_variables variables latitude longitude tolerance in
    let missing_vars :=
      filter (fun v => negb (dict_mem v extracted_data)) required_vars in
    match missing_vars with
    | _ :: _ => (ReturnedNone, None)
    | [] =>
        match dict_get "tasmax" extracted_data,
              dict_get "tasmin" extracted_data,
              dict_get "pr" extracted_data with
        | Some tasmax, Some tasmin, Some pr =>
            match dict_get "rsds" extracted_data with
            | None => (ReturnedNone, None)
            | Some rsds =>
                let hurs := dict_get "hurs" extracted_data in
                let frames :=
                  mkInputs (frame_of tasmax) (frame_of tasmin) (frame_of pr)
                           (Some (frame_of rsds)) (option_map frame_of hurs) in
                match fst (create_met_file np_exp frames) with
                | None => (Raised, None)
                | Some out =>
                    (Returned
                       (mkSummary (map fst extracted_data)
                                  (List.length extracted_data)
                                  (out_tav out) (out_amp out)
                                  (out_total_days out)
                                  (min_date (map fst tasmax))
                                  (max_date (map fst tasmax))),
                     Some out)
                end
            end
        | _, _, _ => (Raised, None)
        end
    end.

(** The main block: the coordinates are validated before anything is read. *)
Definition main (data_dir_exists : bool) (VARIABLES : list string)
  (LATITUDE LONGITUDE COORD_TOLERANCE : Q) : outcome * option MetOutput :=
  if negb (Qle_bool (-90) LATITUDE && Qle_bool LATITUDE 90) then (Raised, None)
  else if negb (Qle_bool (-180) LONGITUDE && Qle_bool LONGITUDE 180)
       then (Raised, None)
       else process_coordinate data_dir_exists VARIABLES
              LATITUDE LONGITUDE COORD_TOLERANCE.

End WithEnvironment.

End Pipeline.

(* ================================================================== *)
(** * Vocabulary for columns with gaps                                  *)
(* ================================================================== *)

Module Gaps.
Import Frame.

(** Every cell of the column is NaN. *)
Definition all_nan (l : list value) : Prop := Forall (fun v => v = None) l.

(** No cell of the column is NaN. *)
Definition no_nan (l : list value) : Prop := Forall (fun v => v <> None) l.

(** The cell [b] carries the number of the cell [a], when [a] has one. *)
Definition keeps (a b : value) : Prop := forall x, a = Some x -> b = Some x.

End Gaps.

(* ================================================================== *)
(** * Vocabulary for the files of a run                                 *)
(* ================================================================== *)

Module RunStatements.
Import Calendar Frame Extractor Pipeline.

(** The time axes the files carry hold calendar dates. *)
Definition axes_valid (files : list NcFile) : Prop :=
  Forall (fun f => match nc_time f with
                   | Some t => Forall (fun d => valid_date d = true) t
                   | None => True
                   end) files.

(** The frame the extractor returns for a variable, if any. *)
Definition extracted (sort_values : series -> series)
  (nc_files_of : string -> list NcFile) (latitude longitude tolerance : Q)
  (variable : string) : option series :=
  fst (extract_daily_data_from_netcdf sort_values (nc_files_of variable)
         latitude longitude tolerance).

End RunStatements.

(* ================================================================== *)
(** * The earlier [create_met_file] of the script                       *)
(* ================================================================== *)

(** The script defines [create_met_file] twice.  The earlier definition,
    used by the main block that precedes the later one, merges and writes
    without completing the calendar, filling gaps or deriving the vapor
    pressure; radiation is optional and the code field is left blank. *)
Module Legacy.
Import Calendar Frame Derived Text Met.

Record Output : Type := mkOutput {
  tav : value;
  amp : value;
  met_data : list MetRow;
  lines : list string;
  num_rows : nat
}.

(** The [line] written for one row: the code field is six spaces. *)
Definition format_row (row : MetRow) : string :=
  (sp (format_d 4 (r_year row))
  (sp (format_d 4 (r_day row))
  (sp (field_or_blank (r_radn row))
  (sp (field_or_zero (r_maxt row))
  (sp (field_or_zero (r_mint row))
  (sp (field_or_zero (r_rain row))
  (sp (field_or_blank (r_evap row))
  (sp (field_or_blank (r_vp row))
      blank6))))))) ++ newline)%string.

(** One row of [met_data]: [evap], [vp] and [code] hold the empty string. *)
Definition row_of (r : date * merged_row) : MetRow :=
  mkMetRow (year (fst r)) (dayofyear (fst r))
           (col_radn r) (col_maxt r) (col_mint r) (col_rain r)
           None None "".

Section WithSort.

(** [merged.sort_values('date')] on the merged frame. *)
Variable sort_values : keyed merged_row -> keyed merged_row.

(** The part after the input frames are read: merge, sort, format. *)
Definition assemble (maxt mint rain : series) (radn : option series) : Output :=
  let m2 := outer_merge (None, None) None (outer_merge None None maxt mint) rain in
  let merged :=
    match radn with
    | Some r => outer_merge ((None, None), None) None m2 r
    | None => map (fun x => (fst x, (snd x, None))) m2   (* merged['radn'] = '' *)
    end in
  let merged := sort_values merged in
  let '(tav, amp) :=
    calculate_tav_amp (map (fun r => (fst r, (col_maxt r, col_mint r))) merged) in
  let met_data := map row_of merged in
  mkOutput tav amp met_data (map format_row met_data) (List.length met_data).

(** The earlier [create_met_file]; the humidity frame is no argument of
    it and stays as it is. *)
Definition create_met_file : M Output :=
  s <- get ;;
  maxt <- lift (rows_of "value" (tasmax_df s)) ;;
  c <- lift (to_datetime "date" (tasmin_df s)) ;;
  _ <- set_tasmin (set_col "date" c (tasmin_df s)) ;;
  s <- get ;;
  mint <- lift (rows_of "value" (tasmin_df s)) ;;
  c <- lift (to_datetime "date" (pr_df s)) ;;
  _ <- set_pr (set_col "date" c (pr_df s)) ;;
  s <- get ;;
  rain <- lift (rows_of "value" (pr_df s)) ;;
  (* if rsds_df is not None and len(rsds_df) > 0: ... else: merged['radn'] = '' *)
  radn <- match rsds_df s with
          | Some rsds =>
              if (df_len rsds =? 0)%nat then ret None
              else
                c <- lift (to_datetime "date" rsds) ;;
                let rsds := set_col "date" c rsds in
                _ <- set_rsds rsds ;;
                v <- lift (num_col "value" rsds) ;;
                let rsds :=
                  set_col "value_mj"
                    (ColNum (map (fun x => vmul x (Some 0.0864%Q)) v)) rsds in
                _ <- set_rsds rsds ;;
                r <- lift (rows_of "value_mj" rsds) ;;
                ret (Some r)
          | None => ret None
          end ;;
  ret (assemble maxt mint rain radn).

End WithSort.

End Legacy.

(* ================================================================== *)
(** * The check for missing files ([find_files_for_target])             *)
(* ================================================================== *)

Module MissingFiles.
Import Text.

Local Open Scope string_scope.

(** [f"{x:.2f}"] for a finite [x]. *)
Definition hundredths (x : Q) : Z := round_half_even (x * 100).

Definition format_f2 (x : Q) : string :=
  let a := Z.abs (hundredths x) in
  let body := str_of_nonneg (a / 100) ++ "."
              ++ String (digit_char ((a mod 100) / 10))
                   (String (digit_char (a mod 10)) EmptyString) in
  if Qle_bool 0 x then body else String "-" body.

(** [s.replace(c, new)] for a one-character [c]. *)
Fixpoint replace (c : ascii) (new : string) (s : string) : string :=
  match s with
  | EmptyString => EmptyString
  | String a r =>
      if Ascii.eqb a c then new ++ replace c new r
      else String a (replace c new r)
  end.

(** [str.lower], [str.upper] on ASCII text. *)
Definition lower_char (c : ascii) : ascii :=
  let n := nat_of_ascii c in
  if (65 <=? n)%nat && (n <=? 90)%nat then ascii_of_nat (n + 32) else c.

Definition upper_char (c : ascii) : ascii :=
  let n := nat_of_ascii c in
  if (97 <=? n)%nat && (n <=? 122)%nat then ascii_of_nat (n - 32) else c.

Fixpoint map_chars (f : ascii -> ascii) (s : string) : string :=
  match s with
  | EmptyString => EmptyString
  | String a r => String (f a) (map_chars f r)
  end.

Definition lower : string -> string := map_chars lower_char.
Definition upper : string -> string := map_chars upper_char.

(** The dictionary [files]. *)
Record Files : Type := mkFiles {
  silo_met : option string;
  cmip6_obs_met : option string;
  cmip6_future_met : option string;
  vp_obs : option string;
  vp_future : option string;
  evap_obs : option string;
  evap_future : option string
}.

(** [if files[key]:] - neither [None] nor the empty string. *)
Definition truthy (o : option string) : bool :=
  match o with
  | Some s => negb (String.eqb s "")
  | None => false
  end.

Section WithFileSystem.

(** [os.path.exists] and [os.path.join]. *)
Variable path_exists : string -> bool.
Variable join : string -> string -> string.

(** [for p in paths: if os.path.exists(p): files[key] = p; break]. *)
Fixpoint first_existing (paths : list string) (cur : option string)
  : option string :=
  match paths with
  | [] => cur
  | p :: rest => if path_exists p then Some p else first_existing rest cur
  end.

(** [for a in l: <body>; if files[key]: break]. *)
Fixpoint until_truthy {A : Type} (body : A -> option string -> option string)
  (l : list A) (cur : option string) : option string :=
  match l with
  | [] => cur
  | a :: rest =>
      let cur' := body a cur in
      if truthy cur' then cur' else until_truthy body rest cur'
  end.

Definition lat_str_variants (lat : Q) : list string :=
  [replace "-" "neg" (format_f2 lat);
   format_f2 lat;
   replace "." "_" (format_f2 (Qabs lat))].

Definition lon_str_variants (lon : Q) : list string :=
  [format_f2 lon; replace "." "_" (format_f2 lon)].

Definition scenario_variants (scenario : string) : list string :=
  [scenario; lower scenario; upper scenario].

Definition is_obs (scenario : string) : bool := String.eqb (lower scenario) "obs".

Definition find_silo (lat lon : Q) (input_met_dir : string) : option string :=
  until_truthy
    (fun lat_var =>
       until_truthy
         (fun lon_var =>
            first_existing
              (map (fun year_range =>
                      join input_met_dir
                        ("SILO_" ++ year_range ++ "_" ++ lat_var ++ "_" ++ lon_var
                         ++ ".met"))
                   ["1986-2014"; "1985-2014"]))
         (lon_str_variants lon))
    (lat_str_variants lat) None.

Definition find_obs (model : string) (lat lon : Q) (input_met_dir : string)
  : option string :=
  until_truthy
    (fun lat_var =>
       first_existing
         (map (fun lon_var =>
                 join input_met_dir
                   (model ++ "_obs_" ++ lat_var ++ "_" ++ lon_var ++ ".met"))
              (lon_str_variants lon)))
    (lat_str_variants lat) None.

Definition find_future (model scenario : string) (lat lon : Q)
  (input_met_dir : string) : option string :=
  until_truthy
    (fun lat_var =>
       until_truthy
         (fun lon_var =>
            first_existing
              (map (fun scen_var =>
                      join input_met_dir
                        (model ++ "_" ++ scen_var ++ "_" ++ lat_var ++ "_" ++ lon_var
                         ++ ".met"))
                   (scenario_variants scenario)))
         (lon_str_variants lon))
    (lat_str_variants lat) None.

(** The four proxy entries while the last loop runs. *)
Record Proxies : Type := mkProxies {
  p_vp_obs : option string;
  p_vp_future : option string;
  p_evap_obs : option string;
  p_evap_future : option string
}.

Definition all_found (p : Proxies) : bool :=
  truthy (p_vp_obs p) && truthy (p_vp_future p) &&
  truthy (p_evap_obs p) && truthy (p_evap_future p).

(** The two file names tried for a proxy: with and without [.csv]. *)
Definition proxy_paths (proxy_output_dir model scen lat_var lon_var kind : string)
  : list string :=
  [join proxy_output_dir
     (model ++ "_" ++ scen ++ "_" ++ lat_var ++ "_" ++ lon_var ++ "_" ++ kind ++ ".csv");
   join proxy_output_dir
     (model ++ "_" ++ scen ++ "_" ++ lat_var ++ "_" ++ lon_var ++ "_" ++ kind)].

(** The future proxy of one kind for one pair of coordinate texts. *)
Definition future_proxy (proxy_output_dir model scenario lat_var lon_var kind : string)
  (obs cur : option string) : option string :=
  if is_obs scenario then obs
  else until_truthy
         (fun scen_var =>
            first_existing
              (proxy_paths proxy_output_dir model scen_var lat_var lon_var kind))
         (scenario_variants scenario) cur.

(** The body of the loop over [lon_var] in the search for proxies. *)
Definition proxies_step (proxy_output_dir model scenario lat_var lon_var : string)
  (p : Proxies) : Proxies :=
  let vo := first_existing
              (proxy_paths proxy_output_dir model "obs" lat_var lon_var "vp")
              (p_vp_obs p) in
  let vf := future_proxy proxy_output_dir model scenario lat_var lon_var "vp"
              vo (p_vp_future p) in
  let eo := first_existing
              (proxy_paths proxy_output_dir model "obs" lat_var lon_var "eto")
              (p_evap_obs p) in
  let ef := future_proxy proxy_output_dir model scenario lat_var lon_var "eto"
              eo (p_evap_future p) in
  mkProxies vo vf eo ef.

(** [for a in l: <body>; if <all four found>: break]. *)
Fixpoint until_all {A : Type} (body : A -> Proxies -> Proxies)
  (l : list A) (p : Proxies) : Proxies :=
  match l with
  | [] => p
  | a :: rest =>
      let p' := body a p in
      if all_found p' then p' else until_all body rest p'
  end.

Definition find_proxies (model scenario : string) (lat lon : Q)
  (proxy_output_dir : string) : Proxies :=
  until_all
    (fun lat_var =>
       until_all
         (fun lon_var =>
            proxies_step proxy_output_dir model scenario lat_var lon_var)
         (lon_str_variants lon))
    (lat_str_variants lat) (mkProxies None None None None).

Definition find_files_for_target (model scenario : string) (lat lon : Q)
  (input_met_dir proxy_output_dir : string) : Files :=
  let silo := find_silo lat lon input_met_dir in
  let obs := find_obs model lat lon input_met_dir in
  let future :=
    if is_obs scenario then obs
    else find_future model scenario lat lon input_met_dir in
  let p := find_proxies model scenario lat lon proxy_output_dir in
  mkFiles silo obs future (p_vp_obs p) (p_vp_future p)
          (p_evap_obs p) (p_evap_future p).

(** The keys the script reports as missing for a scenario. *)
Definition missing (scenario : string) (files : Files) : list string :=
  let entry key :=
    if String.eqb key "silo_met" then silo_met files
    else if String.eqb key "cmip6_obs_met" then cmip6_obs_met files
    else if String.eqb key "cmip6_future_met" then cmip6_future_met files
    else if String.eqb key "vp_obs" then vp_obs files
    else if String.eqb key "vp_future" then vp_future files
    else if String.eqb key "evap_obs" then evap_obs files
    else if String.eqb key "evap_future" then evap_future files
    else None in
  let required :=
    if is_obs scenario
    then ["silo_met"; "cmip6_obs_met"; "vp_obs"; "evap_obs"]
    else ["silo_met"; "cmip6_obs_met"; "cmip6_future_met";
          "vp_obs"; "vp_future"; "evap_obs"; "evap_future"] in
  filter (fun key => match entry key with None => true | Some _ => false end)
         required.

End WithFileSystem.

End MissingFiles.

(* ================================================================== *)
(** * Properties of the calendar                                        *)
(* ================================================================== *)

Module CalendarFacts.
Import Calendar.

Lemma days_before_year_succ : forall y,
  days_before_year (y + 1) = days_before_year y + days_in_year y.
Proof.
  intro y. unfold days_before_year, days_in_year, isleap.
  replace (y + 1 - 1) with y by lia.
  destruct (Z.eqb_spec (y mod 4) 0) as [H4|H4];
  destruct (Z.eqb_spec (y mod 100) 0) as [H100|H100];
  destruct (Z.eqb_spec (y mod 400) 0) as [H400|H400];
  cbn [andb orb negb];
  Z.div_mod_to_equations; lia.
Qed.


Lemma days_before_year_mono : forall a b,
  a <= b -> days_before_year a <= days_before_year b.
Proof.
  intros a b Hab. unfold days_before_year.
  Z.div_mod_to_equations. lia.
Qed.

Lemma days_before_year_lt : forall a b,
  a < b -> days_before_year a + days_in_year a <= days_before_year b.
Proof.
  intros a b Hab. rewrite <- days_before_year_succ.
  apply days_before_year_mono. lia.
Qed.

Lemma valid_date_iff : forall d,
  valid_date d = true <->
  1 <= month d <= 12 /\ 1 <= day d <= days_in_month (year d) (month d).
Proof.
  intro d. unfold valid_date.
  rewrite !andb_true_iff, !Z.leb_le. tauto.
Qed.

(** Case analysis on the month of a valid date. *)
Ltac month_cases m H :=
  assert (m = 1 \/ m = 2 \/ m = 3 \/ m = 4 \/ m = 5 \/ m = 6 \/
          m = 7 \/ m = 8 \/ m = 9 \/ m = 10 \/ m = 11 \/ m = 12) as H by lia;
  repeat (destruct H as [H|H]); subst m.

(** Evaluate the month tables at a literal month, leaving sums alone. *)
Ltac month_tables :=
  unfold days_before_month, days_in_month in *;
  cbn [Z.eqb Z.leb Z.ltb Z.compare Pos.compare Pos.compare_cont Pos.eqb
       orb andb negb] in *.

Lemma dayofyear_bounds : forall d,
  valid_date d = true -> 1 <= dayofyear d <= days_in_year (year d).
Proof.
  intros [y m dd] Hv. apply valid_date_iff in Hv. cbn in Hv.
  destruct Hv as [Hm Hd]. unfold dayofyear, days_in_year. cbn [year month day].
  month_cases m Hc; month_tables; destruct (isleap y); lia.
Qed.

Lemma days_in_month_bounds : forall y m, 28 <= days_in_month y m <= 31.
Proof.
  intros y m. unfold days_in_month.
  destruct (m =? 2); [destruct (isleap y); lia|].
  destruct ((m =? 4) || (m =? 6) || (m =? 9) || (m =? 11)); lia.
Qed.

Lemma days_before_month_succ : forall y m,
  1 <= m < 12 ->
  days_before_month y (m + 1) = days_before_month y m + days_in_month y m.
Proof.
  intros y m Hm. month_cases m Hc; try lia;
    unfold days_before_month, days_in_month; destruct (isleap y); reflexivity.
Qed.

Lemma next_day_valid : forall d,
  valid_date d = true -> valid_date (next_day d) = true.
Proof.
  intros [y m dd] Hv. apply valid_date_iff in Hv. cbn in Hv.
  destruct Hv as [Hm Hd]. apply valid_date_iff. unfold next_day.
  cbn [year month day].
  destruct (Z.ltb_spec dd (days_in_month y m)) as [Hlt|Hge]; cbn [year month day].
  - lia.
  - destruct (Z.ltb_spec m 12) as [Hm12|Hm12]; cbn [year month day].
    + pose proof (days_in_month_bounds y (m + 1)). lia.
    + pose proof (days_in_month_bounds (y + 1) 1). lia.
Qed.

Lemma toordinal_next_day : forall d,
  valid_date d = true -> toordinal (next_day d) = toordinal d + 1.
Proof.
  intros [y m dd] Hv. apply valid_date_iff in Hv. cbn in Hv.
  destruct Hv as [Hm Hd]. unfold next_day, toordinal, dayofyear.
  cbn [year month day].
  destruct (Z.ltb_spec dd (days_in_month y m)) as [Hlt|Hge]; cbn [year month day].
  - lia.
  - destruct (Z.ltb_spec m 12) as [Hm12|Hm12]; cbn [year month day].
    + rewrite days_before_month_succ by lia. lia.
    + assert (m = 12) by lia. subst m.
      rewrite days_before_year_succ.
      unfold days_in_year. month_tables. destruct (isleap y); lia.
Qed.

Lemma toordinal_year_bounds : forall d,
  valid_date d = true ->
  days_before_year (year d) < toordinal d <= days_before_year (year d) + days_in_year (year d).
Proof.
  intros d Hv. pose proof (dayofyear_bounds d Hv). unfold toordinal. lia.
Qed.

Lemma toordinal_year_le : forall a b,
  valid_date a = true -> valid_date b = true ->
  toordinal a <= toordinal b -> year a <= year b.
Proof.
  intros a b Ha Hb Hle.
  destruct (Z.le_gt_cases (year a) (year b)) as [|Hgt]; [assumption|].
  pose proof (toordinal_year_bounds a Ha).
  pose proof (toordinal_year_bounds b Hb).
  pose proof (days_before_year_lt (year b) (year a) ltac:(lia)). lia.
Qed.

Lemma toordinal_inj : forall a b,
  valid_date a = true -> valid_date b = true ->
  toordinal a = toordinal b -> a = b.
Proof.
  intros a b Ha Hb Heq.
  assert (Hy : year a = year b).
  { apply Z.le_antisymm; apply toordinal_year_le; auto; lia. }
  destruct a as [y m dd], b as [y' m' dd']. cbn in Hy. subst y'.
  apply valid_date_iff in Ha, Hb. cbn in Ha, Hb.
  destruct Ha as [Hm Hd], Hb as [Hm' Hd'].
  unfold toordinal, dayofyear in Heq. cbn [year month day] in Heq.
  assert (Hdoy : days_before_month y m + dd = days_before_month y m' + dd') by lia.
  clear Heq.
  month_cases m Hc; month_cases m' Hc'; month_tables;
    destruct (isleap y); first [ f_equal; lia | exfalso; lia ].
Qed.

Lemma date_eqb_eq : forall a b,
  valid_date a = true -> valid_date b = true ->
  date_eqb a b = true <-> a = b.
Proof.
  intros a b Ha Hb. unfold date_eqb. rewrite Z.eqb_eq. split.
  - apply toordinal_inj; assumption.
  - intros ->. reflexivity.
Qed.

(** ** Ranges of days *)

Lemma date_range_periods_length : forall n start,
  List.length (date_range_periods start n) = n.
Proof. induction n; intro start; cbn; [reflexivity | now rewrite IHn]. Qed.

Lemma date_range_periods_valid : forall n start,
  valid_date start = true ->
  Forall (fun d => valid_date d = true) (date_range_periods start n).
Proof.
  induction n; intros start Hv; cbn; constructor; auto.
  apply IHn. now apply next_day_valid.
Qed.

Lemma date_range_periods_ordinals : forall n start,
  valid_date start = true ->
  map toordinal (date_range_periods start n)
  = map (fun k => toordinal start + Z.of_nat k) (seq 0 n).
Proof.
  induction n; intros start Hv; [reflexivity|].
  cbn [date_range_periods map seq]. f_equal.
  - cbn. lia.
  - rewrite IHn by now apply next_day_valid.
    rewrite <- seq_shift, map_map. apply map_ext.
    intro k. rewrite toordinal_next_day by assumption. lia.
Qed.

Lemma date_range_periods_nth : forall n start k,
  valid_date start = true -> (k < n)%nat ->
  toordinal (nth k (date_range_periods start n) start) = toordinal start + Z.of_nat k.
Proof.
  induction n; intros start k Hv Hk; [lia|].
  destruct k as [|k]; cbn [date_range_periods nth]; [lia|].
  rewrite (nth_indep _ start (next_day start))
    by (rewrite date_range_periods_length; lia).
  rewrite IHn by (try apply next_day_valid; auto; lia).
  rewrite toordinal_next_day by assumption. lia.
Qed.

Lemma iter_next_day_valid : forall n d,
  valid_date d = true -> valid_date (Nat.iter n next_day d) = true.
Proof.
  induction n; intros d Hv; [assumption|].
  rewrite Nat.iter_succ. apply next_day_valid. now apply IHn.
Qed.

Lemma toordinal_iter_next_day : forall n d,
  valid_date d = true ->
  toordinal (Nat.iter n next_day d) = toordinal d + Z.of_nat n.
Proof.
  induction n; intros d Hv.
  - cbn. lia.
  - rewrite Nat.iter_succ.
    rewrite toordinal_next_day by now apply iter_next_day_valid.
    rewrite IHn by assumption. lia.
Qed.


Lemma in_date_range_periods : forall n start d,
  valid_date start = true ->
  (In d (date_range_periods start n) <->
   valid_date d = true /\ toordinal start <= toordinal d < toordinal start + Z.of_nat n).
Proof.
  induction n; intros start d Hv.
  - cbn. split; [tauto | lia].
  - cbn [date_range_periods In]. rewrite IHn by now apply next_day_valid.
    rewrite toordinal_next_day by assumption. split.
    + intros [<- | [Hd Hr]]; split; auto; lia.
    + intros [Hd Hr].
      destruct (Z.eq_dec (toordinal start) (toordinal d)) as [Heq|Hne].
      * left. now apply toordinal_inj.
      * right. split; auto. lia.
Qed.

Lemma date_range_periods_sorted : forall n start,
  valid_date start = true ->
  StronglySorted (fun a b => toordinal a < toordinal b) (date_range_periods start n).
Proof.
  induction n; intros start Hv; cbn; constructor.
  - apply IHn. now apply next_day_valid.
  - apply Forall_forall. intros d Hd.
    apply in_date_range_periods in Hd; [|now apply next_day_valid].
    rewrite toordinal_next_day in Hd by assumption. lia.
Qed.



Lemma jan1_valid : forall y, valid_date (jan1 y) = true.
Proof. intro y. reflexivity. Qed.

Lemma dec31_valid : forall y, valid_date (dec31 y) = true.
Proof. intro y. reflexivity. Qed.

Lemma toordinal_jan1 : forall y, toordinal (jan1 y) = days_before_year y + 1.
Proof. intro y. reflexivity. Qed.

Lemma toordinal_dec31 : forall y,
  toordinal (dec31 y) = days_before_year y + days_in_year y.
Proof.
  intro y. unfold toordinal, dayofyear, dec31, days_in_year.
  cbn [year month day]. month_tables. destruct (isleap y); lia.
Qed.



End CalendarFacts.

(* ================================================================== *)
(** * Properties of the Grid Locator                                    *)
(* ================================================================== *)

Module LocatorFacts.
Import Calendar Frame Extractor Statements.








(** The first nearest index is determined by the axis and the target alone. *)
Lemma first_nearest_unique : forall axis target i j,
  first_nearest axis target i -> first_nearest axis target j -> i = j.
Proof.
  intros axis target i j (Hi & Hmi & Hfi) (Hj & Hmj & Hfj).
  destruct (Nat.lt_trichotomy i j) as [Hlt|[Heq|Hgt]]; [|assumption|].
  - exfalso. specialize (Hfj i Hlt). specialize (Hmi j Hj).
    apply (Qlt_not_le _ _ Hfj Hmi).
  - exfalso. specialize (Hfi j Hgt). specialize (Hmj i Hi).
    apply (Qlt_not_le _ _ Hfi Hmj).
Qed.



End LocatorFacts.

(* ================================================================== *)
(** * Properties of the Variable Extractor                              *)
(* ================================================================== *)

Module ExtractorFacts.
Import Calendar CalendarFacts Frame Extractor Statements.

(** ** The tolerance *)

Lemma grid_locator_tolerance : forall lat lon tlat tlon tol tol' p,
  grid_locator lat lon tlat tlon tol = Some p ->
  exists p',
    grid_locator lat lon tlat tlon tol' = Some p' /\
    lat_idx p' = lat_idx p /\ lon_idx p' = lon_idx p /\
    actual_lat p' = actual_lat p /\ actual_lon p' = actual_lon p.
Proof.
  intros lat lon tlat tlon tol tol' p. unfold grid_locator.
  destruct (np_argmin (abs_diff lat tlat)) as [i|]; [|discriminate].
  destruct (np_argmin (abs_diff lon tlon)) as [j|]; [|discriminate].
  intro H. injection H as <-. eexists. split; [reflexivity|].
  cbn. auto.
Qed.

(** C10. When the nearest grid point lies farther than the tolerance from
    the requested coordinate, the extractor returns exactly what it returns
    with any other tolerance (in particular one that accepts the point):
    the same Daily Series, or the same "no result"; the only trace of the
    condition is the warning printed in place of the "using grid point"
    line.  The extractor has no raising path. *)
Theorem tolerance_only_warns :
  forall sort_values nc_files target_lat target_lon tolerance tolerance' p,
    located_point nc_files target_lat target_lon tolerance = Some p ->
    within_tolerance p = false ->
    let run := extract_daily_data_from_netcdf sort_values nc_files
                 target_lat target_lon in
    fst (run tolerance) = fst (run tolerance') /\
    snd (run tolerance)
    = WarnOutsideTolerance (actual_lat p) (actual_lon p) :: tl (snd (run tolerance)) /\
    tl (snd (run tolerance)) = tl (snd (run tolerance')).
Proof.
  intros sort_values nc_files tlat tlon tol tol' p Hloc Hout run. subst run.
  destruct nc_files as [|sample rest]; [discriminate|].
  cbn [located_point] in Hloc.
  unfold extract_daily_data_from_netcdf.
  unfold locate_in_sample in *.
  destruct (nc_lat sample) as [lat|]; [|discriminate].
  destruct (nc_lon sample) as [lon|]; [|discriminate].
  destruct (grid_locator lat lon tlat tlon tol) as [q|] eqn:Hq; [|discriminate].
  cbn [fst] in Hloc. injection Hloc as ->.
  destruct (grid_locator_tolerance _ _ _ _ _ tol' _ Hq)
    as (p' & Hp' & Hi & Hj & _ & _).
  rewrite Hp', Hout.
  destruct (nc_var sample).
  - rewrite Hi, Hj.
    destruct (all_frames (sample :: rest) (lat_idx p) (lon_idx p)) as [all_data m1].
    destruct all_data; cbn; auto.
  - cbn. auto.
Qed.

Lemma tolerance_only_warns_witness :
  let files := [mkNcFile "pr_2036.nc" true (Some [(-32)%Q; (-31)%Q]) (Some [117%Q; 118%Q])
                  (fun _ _ => Some [Some 1%Q; Some 2%Q]) None] in
  let p := mklocated 0 1 (-32)%Q 118%Q false in
  let run := extract_daily_data_from_netcdf insertion_sort files (-31.75)%Q 117.6%Q in
  fst (run 0.01%Q) = fst (run 1%Q) /\
  snd (run 0.01%Q)
  = WarnOutsideTolerance (actual_lat p) (actual_lon p) :: tl (snd (run 0.01%Q)) /\
  tl (snd (run 0.01%Q)) = tl (snd (run 1%Q)).
Proof.
  intros files p.
  apply (tolerance_only_warns insertion_sort files (-31.75)%Q 117.6%Q 0.01%Q 1%Q p);
    reflexivity.
Defined.

(** ** Dates taken from the file name *)

Lemma filename_year_range : forall name y,
  filename_year name = Some y -> 2000 <= y <= 2100.
Proof.
  intros name y H. unfold filename_year in H.
  apply find_some in H. destruct H as [_ H].
  apply andb_true_iff in H. lia.
Qed.

Lemma fit_length_exact : forall t n,
  List.length t = n -> fit_length t n = Some t.
Proof.
  intros t n H. unfold fit_length.
  now rewrite (proj2 (Nat.eqb_eq _ _) H).
Qed.

Lemma map_fst_combine : forall (A B : Type) (l : list A) (l' : list B),
  List.length l = List.length l' -> map fst (combine l l') = l.
Proof.
  induction l; intros [|b l'] H; cbn in *; try discriminate; auto.
  f_equal. apply IHl. lia.
Qed.

Lemma map_snd_combine : forall (A B : Type) (l : list A) (l' : list B),
  List.length l = List.length l' -> map snd (combine l l') = l'.
Proof.
  induction l; intros [|b l'] H; cbn in *; try discriminate; auto.
  f_equal. apply IHl. lia.
Qed.

(** The frame of a file without a usable time axis whose name carries the
    year [y]. *)
Lemma file_frame_from_filename : forall f i j values y,
  nc_cell f i j = Some values -> values <> [] ->
  nc_time f = None -> filename_year (nc_name f) = Some y ->
  file_frame f i j
  = (Some (combine (date_range_periods (jan1 y) (List.length values)) values), []).
Proof.
  intros f i j values y Hcell Hne Ht Hy.
  unfold file_frame, time_values, dates_from_filename.
  rewrite Hcell, Ht, Hy.
  rewrite fit_length_exact by apply date_range_periods_length.
  destruct values as [|v vs]; [congruence|].
  replace (0 <? List.length (v :: vs))%nat with true by reflexivity.
  rewrite firstn_all2 by (rewrite date_range_periods_length; lia).
  reflexivity.
Qed.

Lemma nth_date_range_periods : forall n start k d0,
  (k < n)%nat ->
  nth k (date_range_periods start n) d0 = Nat.iter k next_day start.
Proof.
  induction n; intros start k d0 Hk; [lia|].
  destruct k as [|k]; [reflexivity|].
  cbn [date_range_periods nth]. rewrite IHn by lia.
  rewrite Nat.iter_succ. apply Nat.iter_swap.
Qed.

Lemma last_date_range_periods : forall n start d0,
  last (date_range_periods start (S n)) d0 = Nat.iter n next_day start.
Proof.
  induction n; intros start d0; [reflexivity|].
  change (date_range_periods start (S (S n)))
    with (start :: date_range_periods (next_day start) (S n)).
  rewrite Nat.iter_succ, <- Nat.iter_swap, <- (IHn (next_day start) d0).
  reflexivity.
Qed.

(** C3 (amended). For a source file with N > 0 data values, no usable time
    axis and a file name whose first four-digit group within 2000..2100 is
    Y, the dates given to the values are exactly N consecutive calendar
    days starting at Y-01-01.  The sequence therefore holds 366 days if and
    only if N = 366; when N = 366 it ends on Y-12-31 if and only if Y is a
    leap year. *)
Theorem filename_dates_consecutive :
  forall f i j values y,
    nc_cell f i j = Some values -> values <> [] ->
    nc_time f = None -> filename_year (nc_name f) = Some y ->
    let n := List.length values in
    exists s,
      file_frame f i j = (Some s, []) /\
      map snd s = values /\
      2000 <= y <= 2100 /\
      List.length (map fst s) = n /\
      nth 0 (map fst s) (jan1 y) = jan1 y /\
      Forall (fun d => valid_date d = true) (map fst s) /\
      (forall k, (k < n)%nat ->
         toordinal (nth k (map fst s) (jan1 y)) = toordinal (jan1 y) + Z.of_nat k) /\
      (forall k, (S k < n)%nat ->
         nth (S k) (map fst s) (jan1 y) = next_day (nth k (map fst s) (jan1 y))) /\
      (List.length (map fst s) = 366%nat <-> n = 366%nat) /\
      (n = 366%nat ->
         (last (map fst s) (jan1 y) = dec31 y <-> isleap y = true)).
Proof.
  intros f i j values y Hcell Hne Ht Hy n.
  exists (combine (date_range_periods (jan1 y) n) values).
  assert (Hlen : List.length (date_range_periods (jan1 y) n) = List.length values)
    by apply date_range_periods_length.
  rewrite map_fst_combine, map_snd_combine by assumption.
  split; [now apply file_frame_from_filename|].
  split; [reflexivity|].
  split; [now apply filename_year_range with (name := nc_name f)|].
  split; [apply date_range_periods_length|].
  split.
  { subst n. destruct values; [congruence | reflexivity]. }
  split; [apply date_range_periods_valid, jan1_valid|].
  split.
  { intros k Hk. apply date_range_periods_nth; [apply jan1_valid | assumption]. }
  split.
  { intros k Hk. rewrite !nth_date_range_periods by lia.
    apply Nat.iter_succ. }
  split.
  { rewrite date_range_periods_length. tauto. }
  intro Hn. rewrite Hn.
  change 366%nat with (S 365). rewrite last_date_range_periods.
  pose proof (iter_next_day_valid 365 (jan1 y) (jan1_valid y)) as Hv.
  pose proof (toordinal_iter_next_day 365 (jan1 y) (jan1_valid y)) as Ho.
  rewrite toordinal_jan1 in Ho.
  split.
  - intro Heq. rewrite Heq, toordinal_dec31 in Ho.
    unfold days_in_year in Ho. destruct (isleap y); [reflexivity | lia].
  - intro Hleap. apply toordinal_inj; [assumption | apply dec31_valid |].
    rewrite Ho, toordinal_dec31. unfold days_in_year. rewrite Hleap. lia.
Qed.

Lemma filename_dates_consecutive_witness :
  let f := mkNcFile "pr_day_ACCESS-CM2_ssp585_20360101-20361231.nc" true
             (Some [(-32)%Q]) (Some [117%Q])
             (fun _ _ => Some [Some 1%Q; Some 2%Q; None]) None in
  let values := [Some 1%Q; Some 2%Q; None] in
  exists s,
    file_frame f 0 0 = (Some s, []) /\
    map snd s = values /\
    2000 <= 2036 <= 2100 /\
    List.length (map fst s) = 3%nat /\
    nth 0 (map fst s) (jan1 2036) = jan1 2036 /\
    Forall (fun d => valid_date d = true) (map fst s) /\
    (forall k, (k < 3)%nat ->
       toordinal (nth k (map fst s) (jan1 2036)) = toordinal (jan1 2036) + Z.of_nat k) /\
    (forall k, (S k < 3)%nat ->
       nth (S k) (map fst s) (jan1 2036) = next_day (nth k (map fst s) (jan1 2036))) /\
    (List.length (map fst s) = 366%nat <-> 3%nat = 366%nat) /\
    (3%nat = 366%nat ->
       (last (map fst s) (jan1 2036) = dec31 2036 <-> isleap 2036 = true)).
Proof.
  intros f values.
  apply (filename_dates_consecutive f 0%nat 0%nat values 2036);
    [reflexivity | discriminate | reflexivity | reflexivity].
Defined.

(** C3 as stated fails: a file named for the non-leap year 2035 that holds
    366 values is given 366 dates. *)
Lemma filename_dates_366_nonleap :
  let values := repeat (Some 0%Q) 366 in
  let f := mkNcFile "pr_day_2035.nc" true (Some [(-32)%Q]) (Some [117%Q])
             (fun _ _ => Some values) None in
  nc_time f = None /\
  filename_year (nc_name f) = Some 2035 /\
  exists s,
    file_frame f 0 0 = (Some s, []) /\
    List.length (map fst s) = 366%nat /\
    last (map fst s) (jan1 2035) = jan1 2036 /\
    ~ (isleap 2035 = true /\ List.length values = 366%nat).
Proof.
  intros values f. split; [reflexivity|]. split; [reflexivity|].
  eexists. split; [vm_compute; reflexivity|].
  split; [vm_compute; reflexivity|].
  split; [vm_compute; reflexivity|].
  intros [H _]. vm_compute in H. discriminate.
Qed.

(** ** Sort and removal of duplicate dates *)

Lemma date_eqb_refl : forall d, date_eqb d d = true.
Proof. intro d. apply Z.eqb_refl. Qed.

Lemma date_eqb_sym : forall a b, date_eqb a b = date_eqb b a.
Proof. intros a b. apply Z.eqb_sym. Qed.


Lemma drop_duplicates_from_in : forall s seen r,
  In r (drop_duplicates_from seen s) ->
  In r s /\ existsb (date_eqb (fst r)) seen = false.
Proof.
  induction s as [|[d v] t IH]; intros seen r H; [contradiction|].
  cbn [drop_duplicates_from] in H.
  destruct (existsb (date_eqb d) seen) eqn:E.
  - apply IH in H. cbn. tauto.
  - destruct H as [<- | H].
    + cbn. auto.
    + apply IH in H. destruct H as [Hin Hs]. cbn in Hs.
      apply orb_false_iff in Hs. cbn. tauto.
Qed.

Lemma drop_duplicates_from_sorted : forall s seen,
  StronglySorted by_date s ->
  StronglySorted strictly_by_date (drop_duplicates_from seen s).
Proof.
  induction s as [|[d v] t IH]; intros seen Hs; [constructor|].
  apply StronglySorted_inv in Hs. destruct Hs as [Ht Hall].
  cbn [drop_duplicates_from].
  destruct (existsb (date_eqb d) seen); [now apply IH|].
  constructor; [now apply IH|].
  apply Forall_forall. intros r Hr.
  apply drop_duplicates_from_in in Hr. destruct Hr as [Hin Hseen].
  rewrite Forall_forall in Hall. specialize (Hall r Hin).
  cbn in Hseen. apply orb_false_iff in Hseen. destruct Hseen as [Hne _].
  unfold date_eqb in Hne. apply Z.eqb_neq in Hne.
  unfold by_date, strictly_by_date in *. cbn [fst] in *. lia.
Qed.



Lemma drop_duplicates_from_id : forall s seen,
  StronglySorted strictly_by_date s ->
  Forall (fun r => existsb (date_eqb (fst r)) seen = false) s ->
  drop_duplicates_from seen s = s.
Proof.
  induction s as [|[d v] t IH]; intros seen Hs Hseen; [reflexivity|].
  apply StronglySorted_inv in Hs. destruct Hs as [Ht Hall].
  inversion Hseen as [|? ? Hd Hrest]; subst. cbn [fst] in Hd.
  cbn [drop_duplicates_from]. rewrite Hd. f_equal.
  apply IH; [assumption|].
  rewrite Forall_forall in *. intros r Hr. cbn.
  apply orb_false_iff. split; [|now apply Hrest].
  specialize (Hall r Hr). unfold strictly_by_date in Hall. cbn [fst] in Hall.
  unfold date_eqb. apply Z.eqb_neq. lia.
Qed.

(** A list ordered by date that is a rearrangement of a list strictly
    ordered by date is that list. *)
Lemma sorted_permutation_unique : forall l' l,
  StronglySorted by_date l' -> StronglySorted strictly_by_date l ->
  Permutation l' l -> l' = l.
Proof.
  induction l' as [|a t' IH]; intros l Hs' Hs Hp.
  - apply Permutation_nil in Hp. now subst.
  - destruct l as [|x t]; [apply Permutation_sym, Permutation_nil in Hp; discriminate|].
    apply StronglySorted_inv in Hs'. destruct Hs' as [Ht' Hall'].
    apply StronglySorted_inv in Hs. destruct Hs as [Ht Hall].
    rewrite Forall_forall in Hall', Hall.
    assert (Hax : a = x).
    { assert (Ha : In a (x :: t)) by (eapply Permutation_in; [exact Hp | now left]).
      destruct Ha as [<- | Ha]; [reflexivity|].
      assert (Hx : In x (a :: t'))
        by (eapply Permutation_in; [apply Permutation_sym; exact Hp | now left]).
      destruct Hx as [<- | Hx]; [reflexivity|].
      specialize (Hall a Ha). specialize (Hall' x Hx).
      unfold by_date, strictly_by_date in *. lia. }
    subst x. f_equal. apply IH; auto.
    now apply Permutation_cons_inv in Hp.
Qed.


(** ** The insertion sort is an admissible [sort_values] *)

Lemma insert_by_date_perm : forall x l, Permutation (insert_by_date x l) (x :: l).
Proof.
  induction l as [|y t IH]; cbn; [apply Permutation_refl|].
  destruct (date_leb (fst x) (fst y)); [apply Permutation_refl|].
  eapply Permutation_trans; [apply perm_skip, IH | apply perm_swap].
Qed.

Lemma insertion_sort_perm : forall s, Permutation (insertion_sort s) s.
Proof.
  induction s as [|x t IH]; cbn; [constructor|].
  eapply Permutation_trans; [apply insert_by_date_perm | now apply perm_skip].
Qed.

Lemma insert_by_date_sorted : forall x l,
  StronglySorted by_date l -> StronglySorted by_date (insert_by_date x l).
Proof.
  induction l as [|y t IH]; intro Hs; cbn.
  - repeat constructor.
  - destruct (date_leb (fst x) (fst y)) eqn:E.
    + unfold date_leb in E. apply Z.leb_le in E.
      constructor; [assumption|].
      apply StronglySorted_inv in Hs. destruct Hs as [_ Hall].
      constructor; [exact E|].
      rewrite Forall_forall in *. intros z Hz. specialize (Hall z Hz).
      unfold by_date in *. lia.
    + unfold date_leb in E. apply Z.leb_gt in E.
      apply StronglySorted_inv in Hs. destruct Hs as [Ht Hall].
      constructor; [now apply IH|].
      rewrite Forall_forall in *. intros z Hz.
      apply (Permutation_in _ (insert_by_date_perm x t)) in Hz.
      destruct Hz as [<- | Hz]; [unfold by_date; lia | now apply Hall].
Qed.

Lemma insertion_sort_sorted : forall s, StronglySorted by_date (insertion_sort s).
Proof.
  induction s as [|x t IH]; cbn; [constructor | now apply insert_by_date_sorted].
Qed.

(** ** Two files of consecutive years *)








End ExtractorFacts.

(* ================================================================== *)
(** * Properties of fills and joins                                     *)
(* ================================================================== *)

Module FrameFacts.
Import Calendar CalendarFacts Frame.

Lemma ffill_from_length : forall l last, List.length (ffill_from last l) = List.length l.
Proof.
  induction l as [|[x|] t IH]; intro last; cbn; auto.
Qed.

Lemma ffill_length : forall l, List.length (ffill l) = List.length l.
Proof. intro l. apply ffill_from_length. Qed.

Lemma bfill_length : forall l, List.length (bfill l) = List.length l.
Proof.
  intro l. unfold bfill. now rewrite length_rev, ffill_length, length_rev.
Qed.

Lemma fillna_length : forall x l, List.length (fillna x l) = List.length l.
Proof. intros x l. apply length_map. Qed.

Lemma combine_fst_snd : forall (A B : Type) (l : list (A * B)),
  combine (map fst l) (map snd l) = l.
Proof.
  induction l as [|[a b] t IH]; cbn; [reflexivity | now rewrite IH].
Qed.

(** ** Unique keys *)

Lemma existsb_date_eqb_In : forall d l,
  existsb (date_eqb d) l = true <-> In (toordinal d) (map toordinal l).
Proof.
  intros d l. rewrite existsb_exists, in_map_iff. unfold date_eqb. split.
  - intros (x & Hx & He). apply Z.eqb_eq in He. eauto.
  - intros (x & He & Hx). exists x. split; [assumption|]. apply Z.eqb_eq. auto.
Qed.

Lemma is_unique_NoDup : forall l,
  is_unique l = true <-> NoDup (map toordinal l).
Proof.
  induction l as [|d t IH]; cbn.
  - split; [constructor | reflexivity].
  - rewrite andb_true_iff, negb_true_iff, IH. split.
    + intros [Hn Ht]. constructor; [|assumption].
      rewrite <- existsb_date_eqb_In. congruence.
    + intro H. inversion H as [|? ? Hn Ht]; subst. split; [|assumption].
      destruct (existsb (date_eqb d) t) eqn:E; [|reflexivity].
      apply existsb_date_eqb_In in E. contradiction.
Qed.

Lemma has_key_In : forall A d (r : keyed A),
  has_key d r = true <-> In (toordinal d) (map toordinal (map fst r)).
Proof.
  intros A d r. unfold has_key. rewrite existsb_exists, map_map, in_map_iff.
  unfold date_eqb. split.
  - intros (x & Hx & He). apply Z.eqb_eq in He. eauto.
  - intros (x & He & Hx). exists x. split; [assumption|]. apply Z.eqb_eq. auto.
Qed.

Lemma matches_nil : forall A d (r : keyed A),
  has_key d r = false -> matches d r = [].
Proof.
  intros A d r. unfold has_key, matches.
  induction r as [|x t IH]; cbn; [reflexivity|].
  intro H. apply orb_false_iff in H. destruct H as [Hx Ht].
  rewrite Hx. now apply IH.
Qed.

(** In a table with unique keys a date matches at most one row. *)
Lemma matches_unique : forall A d (r : keyed A),
  is_unique (map fst r) = true ->
  matches d r = [] \/ exists a, matches d r = [a].
Proof.
  intros A d r. induction r as [|[k a] t IH]; intro Hu; [now left|].
  cbn in Hu. apply andb_true_iff in Hu. destruct Hu as [Hk Ht].
  apply negb_true_iff in Hk. unfold matches. cbn [filter fst].
  destruct (date_eqb k d) eqn:E.
  - right. exists a. cbn [map snd]. f_equal.
    apply matches_nil. unfold has_key.
    destruct (existsb (fun x => date_eqb (fst x) d) t) eqn:Ex; [|reflexivity].
    apply existsb_exists in Ex. destruct Ex as (x & Hx & He).
    assert (Hc : existsb (date_eqb k) (map fst t) = true).
    { apply existsb_exists. exists (fst x). split; [now apply in_map|].
      unfold date_eqb in *. apply Z.eqb_eq in E, He. apply Z.eqb_eq. congruence. }
    congruence.
  - now apply IH.
Qed.

Lemma matches_has_key : forall A d (r : keyed A),
  has_key d r = true -> matches d r <> [].
Proof.
  intros A d r. unfold has_key, matches.
  induction r as [|x t IH]; cbn; [discriminate|].
  destruct (date_eqb (fst x) d); cbn; [discriminate | assumption].
Qed.

Lemma left_merge_keys : forall A B (nb : B) (l : keyed A) (r : keyed B),
  is_unique (map fst r) = true ->
  map fst (left_merge nb l r) = map fst l.
Proof.
  intros A B nb l r Hu. unfold left_merge.
  induction l as [|x t IH]; [reflexivity|].
  cbn [flat_map]. rewrite map_app, IH. cbn [map]. 
  destruct (matches_unique B (fst x) r Hu) as [-> | [b ->]]; reflexivity.
Qed.

Lemma inner_merge_keys : forall A B (l : keyed A) (r : keyed B),
  is_unique (map fst r) = true ->
  Forall (fun x => has_key (fst x) r = true) l ->
  map fst (inner_merge l r) = map fst l.
Proof.
  intros A B l r Hu Hall. unfold inner_merge.
  induction Hall as [|x t Hx Ht IH]; [reflexivity|].
  cbn [flat_map]. rewrite map_app, IH. cbn [map].
  destruct (matches_unique B (fst x) r Hu) as [Hm | [b ->]]; [|reflexivity].
  exfalso. now apply (matches_has_key B (fst x) r).
Qed.

Lemma outer_merge_keys : forall A B (na : A) (nb : B) (l : keyed A) (r : keyed B),
  is_unique (map fst r) = true ->
  map fst (outer_merge na nb l r)
  = (map fst l ++ map fst (filter (fun y => negb (has_key (fst y) l)) r))%list.
Proof.
  intros A B na nb l r Hu. unfold outer_merge.
  rewrite map_app, left_merge_keys by assumption.
  f_equal. rewrite map_map. reflexivity.
Qed.

Lemma NoDup_map_filter : forall (A : Type) (f : A -> Z) (p : A -> bool) (l : list A),
  NoDup (map f l) -> NoDup (map f (filter p l)).
Proof.
  induction l as [|x t IH]; cbn; intro H; [constructor|].
  inversion H as [|? ? Hn Ht]; subst.
  destruct (p x); [|now apply IH].
  cbn. constructor; [|now apply IH].
  intro Hin. apply Hn. apply in_map_iff in Hin. destruct Hin as (y & He & Hy).
  apply filter_In in Hy. apply in_map_iff. exists y. tauto.
Qed.

Lemma outer_merge_unique : forall A B (na : A) (nb : B) (l : keyed A) (r : keyed B),
  is_unique (map fst l) = true -> is_unique (map fst r) = true ->
  is_unique (map fst (outer_merge na nb l r)) = true.
Proof.
  intros A B na nb l r Hl Hr. rewrite outer_merge_keys by assumption.
  apply is_unique_NoDup. rewrite map_app.
  apply is_unique_NoDup in Hl. pose proof Hr as Hr'. apply is_unique_NoDup in Hr'.
  apply NoDup_app; [assumption | |].
  - rewrite !map_map in *. now apply NoDup_map_filter.
  - intros z Hz Hz'. rewrite map_map in Hz'. apply in_map_iff in Hz'.
    destruct Hz' as (y & He & Hy). apply filter_In in Hy. destruct Hy as [_ Hy].
    apply negb_true_iff in Hy.
    assert (has_key (fst y) l = true) by (apply has_key_In; congruence).
    congruence.
Qed.

(** Every date of either table is a key of their outer join, and every key
    of the join is a date of one of them. *)
Lemma outer_merge_keys_sub : forall A B (na : A) (nb : B) (l : keyed A) (r : keyed B) d,
  is_unique (map fst r) = true ->
  In d (map fst (outer_merge na nb l r)) -> In d (map fst l ++ map fst r)%list.
Proof.
  intros A B na nb l r d Hu. rewrite outer_merge_keys by assumption.
  rewrite !in_app_iff. intros [H | H]; [now left|].
  right. apply in_map_iff in H. destruct H as (y & He & Hy).
  apply filter_In in Hy. apply in_map_iff. exists y. tauto.
Qed.

Lemma outer_merge_keys_cover : forall A B (na : A) (nb : B) (l : keyed A) (r : keyed B) d,
  is_unique (map fst r) = true ->
  In d (map fst l ++ map fst r)%list ->
  In (toordinal d) (map toordinal (map fst (outer_merge na nb l r))).
Proof.
  intros A B na nb l r d Hu. rewrite outer_merge_keys by assumption.
  rewrite in_app_iff, map_app, in_app_iff. intros [H | H].
  - left. now apply in_map.
  - destruct (has_key d l) eqn:E.
    + left. now apply has_key_In.
    + right. apply in_map. apply in_map_iff in H. destruct H as (y & He & Hy).
      apply in_map_iff. exists y. split; [assumption|].
      apply filter_In. split; [assumption|]. subst d. now rewrite E.
Qed.

Lemma reindex_keys : forall A (na : A) idx (r m : keyed A),
  reindex na idx r = Some m -> map fst m = idx.
Proof.
  intros A na idx r m. unfold reindex.
  destruct (is_unique (map fst r)); [|discriminate].
  intro H. injection H as <-. rewrite map_map. cbn. apply map_id.
Qed.

Lemma reindex_some : forall A (na : A) idx (r : keyed A),
  is_unique (map fst r) = true -> exists m, reindex na idx r = Some m.
Proof.
  intros A na idx r H. unfold reindex. rewrite H. eauto.
Qed.

(** ** Minimum and maximum date *)

Lemma fold_date_min : forall l d,
  let m := fold_left date_min l d in
  In m (d :: l) /\ forall x, In x (d :: l) -> toordinal m <= toordinal x.
Proof.
  induction l as [|y t IH]; intro d; cbn zeta.
  - cbn. split; [now left|]. intros x [<- | []]. lia.
  - cbn [fold_left]. destruct (IH (date_min d y)) as [Hin Hle]. split.
    + destruct Hin as [H | H]; [|now right; right].
      rewrite <- H. unfold date_min. destruct (date_ltb y d); cbn; auto.
    + intros x Hx.
      assert (Hm : toordinal (date_min d y) <= toordinal d /\
                   toordinal (date_min d y) <= toordinal y).
      { unfold date_min, date_ltb. destruct (Z.ltb_spec (toordinal y) (toordinal d)); lia. }
      pose proof (Hle (date_min d y) (or_introl eq_refl)).
      destruct Hx as [<- | [<- | Hx]]; [lia | lia |].
      apply Hle. now right.
Qed.

Lemma fold_date_max : forall l d,
  let m := fold_left date_max l d in
  In m (d :: l) /\ forall x, In x (d :: l) -> toordinal x <= toordinal m.
Proof.
  induction l as [|y t IH]; intro d; cbn zeta.
  - cbn. split; [now left|]. intros x [<- | []]. lia.
  - cbn [fold_left]. destruct (IH (date_max d y)) as [Hin Hle]. split.
    + destruct Hin as [H | H]; [|now right; right].
      rewrite <- H. unfold date_max. destruct (date_ltb d y); cbn; auto.
    + intros x Hx.
      assert (Hm : toordinal d <= toordinal (date_max d y) /\
                   toordinal y <= toordinal (date_max d y)).
      { unfold date_max, date_ltb. destruct (Z.ltb_spec (toordinal d) (toordinal y)); lia. }
      pose proof (Hle (date_max d y) (or_introl eq_refl)).
      destruct Hx as [<- | [<- | Hx]]; [lia | lia |].
      apply Hle. now right.
Qed.

Lemma min_date_spec : forall l lo,
  min_date l = Some lo ->
  In lo l /\ forall x, In x l -> toordinal lo <= toordinal x.
Proof.
  intros [|d t] lo H; [discriminate|]. cbn in H. injection H as <-.
  apply fold_date_min.
Qed.

Lemma max_date_spec : forall l hi,
  max_date l = Some hi ->
  In hi l /\ forall x, In x l -> toordinal x <= toordinal hi.
Proof.
  intros [|d t] hi H; [discriminate|]. cbn in H. injection H as <-.
  apply fold_date_max.
Qed.

End FrameFacts.

(* ================================================================== *)
(** * Properties of the Series Assembler                                *)
(* ================================================================== *)

Module AssemblerFacts.
Import Calendar CalendarFacts Frame FrameFacts Derived Text Met Statements.

(** ** Years of a covering range *)







Lemma in_date_range : forall lo hi d,
  valid_date lo = true ->
  (In d (date_range lo hi) <->
   valid_date d = true /\ toordinal lo <= toordinal d <= toordinal hi).
Proof.
  intros lo hi d Hlo. unfold date_range.
  rewrite in_date_range_periods by assumption.
  destruct (Z.le_gt_cases (toordinal lo) (toordinal hi + 1)); split;
    intros [Hv Hr]; split; auto; lia.
Qed.






(** ** The rows of the assembled table *)

Lemma build_rows_keys : forall dates radn maxt mint rain vp,
  List.length radn = List.length dates -> List.length maxt = List.length dates ->
  List.length mint = List.length dates -> List.length rain = List.length dates ->
  List.length vp = List.length dates ->
  map row_key (build_rows dates radn maxt mint rain vp) = map date_key dates.
Proof.
  induction dates as [|d ds IH];
    intros [|a radn] [|b maxt] [|c mint] [|e rain] [|v vp] H1 H2 H3 H4 H5;
    cbn in *; try discriminate; try reflexivity.
  f_equal. apply IH; lia.
Qed.

Lemma build_rows_code : forall dates radn maxt mint rain vp,
  Forall (fun r => r_code r = code_str /\ r_evap r = None)
         (build_rows dates radn maxt mint rain vp).
Proof.
  induction dates as [|d ds IH];
    intros [|a radn] [|b maxt] [|c mint] [|e rain] [|v vp];
    cbn; constructor; auto.
Qed.

Lemma fill_numeric_length : forall c, List.length (fill_numeric c) = List.length c.
Proof.
  intro c. unfold fill_numeric.
  now rewrite fillna_length, bfill_length, ffill_length.
Qed.

Lemma sorted_ordinals_NoDup : forall l,
  StronglySorted (fun a b => toordinal a < toordinal b) l ->
  NoDup (map toordinal l).
Proof.
  induction 1 as [|a l Hs IH Hall]; cbn; constructor; auto.
  intro Hin. apply in_map_iff in Hin. destruct Hin as (x & He & Hx).
  rewrite Forall_forall in Hall. specialize (Hall x Hx). lia.
Qed.

Lemma date_range_unique : forall lo hi,
  valid_date lo = true -> is_unique (date_range lo hi) = true.
Proof.
  intros lo hi Hlo. apply is_unique_NoDup, sorted_ordinals_NoDup.
  now apply date_range_periods_sorted.
Qed.

Lemma complete_on_keys : forall rng s,
  is_unique (map fst s) = true -> map fst (complete_on rng s) = rng.
Proof.
  intros rng s Hu. unfold complete_on.
  rewrite ExtractorFacts.map_fst_combine.
  - rewrite left_merge_keys by assumption. rewrite map_map. apply map_id.
  - now rewrite bfill_length, ffill_length, !length_map.
Qed.

Lemma has_key_of_keys : forall A B (l : keyed A) (r : keyed B),
  map fst l = map fst r -> Forall (fun x => has_key (fst x) r = true) l.
Proof.
  intros A B l r H. apply Forall_forall. intros x Hx.
  apply has_key_In. rewrite <- H. apply in_map. now apply in_map.
Qed.

Section WithExp.

Variable np_exp : Q -> Q.

Lemma calculate_vapor_pressure_keys : forall h a b : series,
  is_unique (map fst a) = true ->
  map fst h = map fst a -> map fst a = map fst b ->
  map fst (calculate_vapor_pressure np_exp h a b) = map fst h.
Proof.
  intros h a b Hu Hh Hab. unfold calculate_vapor_pressure.
  rewrite map_map. cbn [fst].
  assert (Hub : is_unique (map fst b) = true) by now rewrite <- Hab.
  assert (Ht : map fst (map (fun r => (fst r, tmean_of (snd r))) (inner_merge a b))
               = map fst a).
  { rewrite map_map. cbn [fst].
    change (map (fun x => fst x) (inner_merge a b)) with (map fst (inner_merge a b)).
    apply inner_merge_keys; [assumption | now apply has_key_of_keys]. }
  change (map (fun x : date * (value * value) => fst x)) with
    (map (@fst date (value * value))).
  apply inner_merge_keys.
  - now rewrite Ht.
  - apply has_key_of_keys. now rewrite Ht.
Qed.

Lemma vp_column_some : forall rng maxt mint hurs,
  is_unique rng = true ->
  is_unique (map fst maxt) = true -> is_unique (map fst mint) = true ->
  match hurs with Some h => is_unique (map fst h) = true | None => True end ->
  exists vp0, vp_column np_exp rng maxt mint hurs = Some vp0 /\
              List.length vp0 = List.length rng.
Proof.
  intros rng maxt mint hurs Hr Hmax Hmin Hh. unfold vp_column.
  destruct hurs as [[|h hs]|];
    try (eexists; split; [reflexivity | apply length_map]).
  rewrite calculate_vapor_pressure_keys; rewrite ?complete_on_keys; auto.
  rewrite Hr. eexists; split; [reflexivity | apply length_map].
Qed.

End WithExp.

Lemma covering_range_spec : forall dates lo hi,
  min_date dates = Some lo -> max_date dates = Some hi ->
  valid_date hi = true ->
  covering_range dates = Some (date_range lo (dec31 (year hi))).
Proof.
  intros dates lo hi Hlo Hhi Hv. unfold covering_range. rewrite Hlo, Hhi.
  unfold date_ltb.
  destruct (Z.ltb_spec (toordinal hi) (toordinal (dec31 (year hi)))) as [|Hge];
    [reflexivity|].
  pose proof (toordinal_year_bounds hi Hv) as Hb.
  rewrite toordinal_dec31 in Hge.
  replace (dec31 (year hi)) with hi; [reflexivity|].
  apply toordinal_inj; [assumption | apply dec31_valid |].
  rewrite toordinal_dec31. lia.
Qed.

Lemma ordinal_in_keys : forall (l : list date) z,
  In z (map toordinal l) -> exists d, In d l /\ toordinal d = z.
Proof.
  intros l z H. apply in_map_iff in H. destruct H as (d & He & Hd). eauto.
Qed.

Lemma outer_merge_ordinals : forall A B (na : A) (nb : B) (l : keyed A) (r : keyed B) z,
  is_unique (map fst r) = true ->
  In z (map toordinal (map fst l ++ map fst r)) ->
  In z (map toordinal (map fst (outer_merge na nb l r))).
Proof.
  intros A B na nb l r z Hu H. apply ordinal_in_keys in H.
  destruct H as (d & Hd & <-). now apply outer_merge_keys_cover.
Qed.

(** ** What the assembler returns for Daily Series *)

Lemma assemble_rows : forall np_exp maxt mint rain radn hurs,
  radn <> [] ->
  unique_dates maxt -> unique_dates mint -> unique_dates rain -> unique_dates radn ->
  match hurs with Some h => unique_dates h | None => True end ->
  all_valid maxt -> all_valid mint -> all_valid rain -> all_valid radn ->
  let all := (map fst maxt ++ map fst mint ++ map fst rain ++ map fst radn)%list in
  exists out lo hi,
    assemble np_exp maxt mint rain radn hurs = Some out /\
    In lo all /\ In hi all /\
    (forall d, In d all -> toordinal lo <= toordinal d <= toordinal hi) /\
    map row_key (out_data out) = map date_key (date_range lo (dec31 (year hi))) /\
    Forall (fun r => r_code r = code_str /\ r_evap r = None) (out_data out) /\
    out_lines out = map format_row (out_data out) /\
    out_total_days out = List.length (out_data out) /\
    out_expected_days out
    = expected_days (unique_years [] (map r_year (out_data out))).
Proof.
  intros np_exp maxt mint rain radn hurs Hne Umax Umin Urain Uradn Uhurs
         Vmax Vmin Vrain Vradn all.
  unfold unique_dates, all_valid in *.
  unfold assemble. cbv zeta.
  set (m1 := outer_merge None None maxt mint).
  set (m2 := outer_merge (None, None) None m1 rain).
  set (m3 := outer_merge (None, None, None) None m2 radn).
  assert (U1 : is_unique (map fst m1) = true) by now apply outer_merge_unique.
  assert (U2 : is_unique (map fst m2) = true) by now apply outer_merge_unique.
  assert (U3 : is_unique (map fst m3) = true) by now apply outer_merge_unique.
  assert (Hsub : forall d, In d (map fst m3) -> In d all).
  { intros d Hd. unfold all. rewrite !in_app_iff.
    apply outer_merge_keys_sub in Hd; [|assumption].
    apply in_app_iff in Hd. destruct Hd as [Hd | Hd]; [|tauto].
    apply outer_merge_keys_sub in Hd; [|assumption].
    apply in_app_iff in Hd. destruct Hd as [Hd | Hd]; [|tauto].
    apply outer_merge_keys_sub in Hd; [|assumption].
    apply in_app_iff in Hd. tauto. }
  assert (Hcov : forall d, In d all -> In (toordinal d) (map toordinal (map fst m3))).
  { intros d Hd. unfold all in Hd. rewrite !in_app_iff in Hd.
    apply outer_merge_ordinals; [assumption|]. rewrite map_app, in_app_iff.
    destruct Hd as [Hd | [Hd | [Hd | Hd]]]; [left | left | left | right; now apply in_map].
    all: apply outer_merge_ordinals; [assumption|]; rewrite map_app, in_app_iff.
    3: right; now apply in_map.
    all: left; apply outer_merge_keys_cover; [assumption|]; rewrite in_app_iff; tauto. }
  assert (Hvalid : forall d, In d all -> valid_date d = true).
  { intros d Hd. unfold all in Hd. rewrite !in_app_iff in Hd.
    rewrite Forall_forall in Vmax, Vmin, Vrain, Vradn.
    destruct Hd as [Hd | [Hd | [Hd | Hd]]]; auto. }
  destruct (min_date (map fst m3)) as [lo|] eqn:Hlo.
  2:{ exfalso. destruct radn as [|r radn']; [congruence|].
      assert (Hr : In (fst r) all).
      { unfold all. rewrite !in_app_iff. right; right; right. now left. }
      apply Hcov in Hr. destruct (map fst m3); [contradiction | discriminate]. }
  destruct (max_date (map fst m3)) as [hi|] eqn:Hhi.
  2:{ exfalso. destruct (map fst m3); discriminate. }
  pose proof (min_date_spec _ _ Hlo) as [Hlo_in Hlo_le].
  pose proof (max_date_spec _ _ Hhi) as [Hhi_in Hhi_le].
  assert (Vlo : valid_date lo = true) by auto.
  assert (Vhi : valid_date hi = true) by auto.
  pose proof (covering_range_spec _ _ _ Hlo Hhi Vhi) as Hrng.
  set (rng := date_range lo (dec31 (year hi))) in *.
  destruct (reindex_some _ nan_row rng m3 U3) as [m Hm].
  pose proof (reindex_keys _ _ _ _ _ Hm) as Hmk.
  assert (Hml : List.length m = List.length rng)
    by (rewrite <- Hmk; now rewrite length_map).
  destruct (vp_column_some np_exp rng maxt mint hurs) as (vp0 & Hvp & Hvpl); auto.
  { now apply date_range_unique. }
  rewrite Hrng, Hm, Hvp.
  destruct (calculate_tav_amp _) as [tav amp].
  eexists. exists lo, hi. split; [reflexivity|].
  cbn [out_data out_lines out_total_days out_expected_days].
  split; [auto|]. split; [auto|]. split.
  { intros d Hd. apply Hcov in Hd. apply ordinal_in_keys in Hd.
    destruct Hd as (d' & Hd' & <-). split; auto. }
  split.
  { apply build_rows_keys; rewrite ?fill_numeric_length, ?length_map; auto.
    assert (Hc : List.length (map snd (copy_day365 (combine rng vp0)))
                 = List.length rng).
    { unfold copy_day365. rewrite !length_map, length_combine. lia. }
    destruct hurs as [[|h hs]|]; rewrite ?bfill_length, ?ffill_length; exact Hc. }
  split; [apply build_rows_code|].
  repeat split.
Qed.

(** [create_met_file] on the frames of Daily Series is the assembly of the
    series, the radiation multiplied by 0.0864. *)
Lemma create_met_file_series : forall np_exp maxt mint rain radn hurs,
  radn <> [] ->
  fst (create_met_file np_exp (inputs_of maxt mint rain radn hurs))
  = assemble np_exp maxt mint rain
      (map (fun r => (fst r, vmul (snd r) (Some 0.0864%Q))) radn)
      (match hurs with Some (h :: hs) => Some (h :: hs) | _ => None end).
Proof.
  intros np_exp maxt mint rain radn hurs Hne.
  transitivity
    (assemble np_exp
       (combine (map fst maxt) (map snd maxt))
       (combine (map fst mint) (map snd mint))
       (combine (map fst rain) (map snd rain))
       (combine (map fst radn)
                (map (fun x => vmul x (Some 0.0864%Q)) (map snd radn)))
       (match hurs with
        | Some (h :: hs) => Some (combine (map fst (h :: hs)) (map snd (h :: hs)))
        | _ => None
        end)).
  - destruct radn as [|r radn']; [congruence|].
    destruct hurs as [[|h hs]|];
      unfold create_met_file, inputs_of;
      cbn -[assemble];
      match goal with
      | |- fst (lift ?o _) = ?rhs => change rhs with o; destruct o; reflexivity
      end.
  - rewrite !combine_fst_snd. f_equal.
    + clear Hne. induction radn as [|x t IH]; cbn; [reflexivity | now rewrite IH].
    + destruct hurs as [[|h hs]|]; try reflexivity.
      now rewrite combine_fst_snd.
Qed.



Lemma map_fst_scaled : forall (radn : series) (c : Q),
  map fst (map (fun r => (fst r, vmul (snd r) (Some c))) radn) = map fst radn.
Proof.
  intros radn c. rewrite map_map. reflexivity.
Qed.




End AssemblerFacts.

(* ================================================================== *)
(** * Properties of the MET Writer                                      *)
(* ================================================================== *)

Module WriterFacts.
Import Calendar CalendarFacts Frame FrameFacts Derived Text Met MetReader Statements.
Import AssemblerFacts.

Local Open Scope string_scope.

(** ** Strings *)

Lemma append_assoc : forall a b c : string, (a ++ b) ++ c = a ++ (b ++ c).
Proof.
  induction a as [|x a IH]; intros b c; cbn; [reflexivity | now rewrite IH].
Qed.

Lemma append_nil_r : forall a : string, a ++ "" = a.
Proof.
  induction a as [|x a IH]; cbn; [reflexivity | now rewrite IH].
Qed.

Lemma length_append : forall a b : string,
  String.length (a ++ b) = (String.length a + String.length b)%nat.
Proof.
  induction a as [|x a IH]; intro b; cbn; [reflexivity | now rewrite IH].
Qed.

(** ** The code field *)

Lemma bind_some : forall A B (m : M A) (k : A -> M B) s b,
  fst (bind m k s) = Some b ->
  exists a s', m s = (Some a, s') /\ fst (k a s') = Some b.
Proof.
  intros A B m k s b H. unfold bind in H.
  destruct (m s) as [[a|] s']; [eauto | discriminate].
Qed.

Lemma lift_some : forall A (o : option A) s a,
  fst (lift o s) = Some a -> o = Some a.
Proof.
  intros A [x|] s a H; cbn in H; [assumption | discriminate].
Qed.

(** A returned result is an assembly of series read from the frames. *)
Lemma create_met_file_assemble : forall np_exp inp out,
  fst (create_met_file np_exp inp) = Some out ->
  exists maxt mint rain radn hurs,
    assemble np_exp maxt mint rain radn hurs = Some out.
Proof.
  intros np_exp inp out H. unfold create_met_file in H.
  repeat (apply bind_some in H; destruct H as (? & ? & _ & H)).
  apply lift_some in H. eauto 10.
Qed.

Lemma assemble_shape : forall np_exp maxt mint rain radn hurs out,
  assemble np_exp maxt mint rain radn hurs = Some out ->
  out_lines out = map format_row (out_data out) /\
  Forall (fun r => r_code r = code_str /\ r_evap r = None) (out_data out).
Proof.
  intros np_exp maxt mint rain radn hurs out. unfold assemble. cbv zeta.
  destruct (covering_range _) as [rng|]; [|discriminate].
  destruct (reindex _ _ _) as [m|]; [|discriminate].
  destruct (vp_column _ _ _ _ _) as [vp0|]; [|discriminate].
  destruct (calculate_tav_amp _) as [tav amp].
  intro H. injection H as <-. cbn [out_lines out_data].
  split; [reflexivity | apply build_rows_code].
Qed.

Lemma format_row_code : forall row,
  exists body, format_row row = body ++ " 222222" ++ newline.
Proof.
  intro row.
  exists (format_d 4 (r_year row) ++ " " ++ format_d 4 (r_day row) ++ " "
    ++ field_or_blank (r_radn row) ++ " " ++ field_or_zero (r_maxt row) ++ " "
    ++ field_or_zero (r_mint row) ++ " " ++ field_or_zero (r_rain row) ++ " "
    ++ field_or_blank (r_evap row) ++ " " ++ field_or_blank (r_vp row)).
  unfold format_row, sp, code_str. rewrite !append_assoc. reflexivity.
Qed.

(** C1 (amended). Every row written by the MET Writer carries the literal
    "222222" in its source-code field (the last six characters before the
    line end, and the [code] cell of the table), whether its vapor pressure
    was computed from humidity or left blank; in particular the code field
    is "222222", not blank, when no humidity series was supplied. *)
Theorem code_field_always_222222 :
  forall np_exp inp out,
    fst (create_met_file np_exp inp) = Some out ->
    Forall (fun r => r_code r = "222222") (out_data out) /\
    Forall (fun line => exists body, line = body ++ " 222222" ++ newline)
           (out_lines out).
Proof.
  intros np_exp inp out H.
  apply create_met_file_assemble in H.
  destruct H as (maxt & mint & rain & radn & hurs & H).
  apply assemble_shape in H. destruct H as [Hlines Hcode]. split.
  - eapply Forall_impl; [|exact Hcode]. intros r [Hr _]. exact Hr.
  - rewrite Hlines. apply Forall_forall. intros line Hin.
    apply in_map_iff in Hin. destruct Hin as (row & <- & _).
    apply format_row_code.
Qed.

Lemma code_field_always_222222_witness :
  let s := [(mkdate 2035 12 31, Some 1%Q)] in
  let h := [(mkdate 2035 12 31, Some 50%Q)] in
  exists out,
    fst (create_met_file (fun _ => 1%Q) (inputs_of s s s s (Some h))) = Some out /\
    Forall (fun r => r_code r = "222222") (out_data out) /\
    Forall (fun line => exists body, line = body ++ " 222222" ++ newline)
           (out_lines out).
Proof.
  intros s h. eexists. split; [vm_compute; reflexivity|].
  apply (code_field_always_222222 (fun _ => 1%Q) (inputs_of s s s s (Some h))).
  vm_compute. reflexivity.
Defined.

(** C1 as stated fails: without a humidity series the vapor-pressure field
    of a row is blank and its code field is still "222222". *)
Lemma code_field_without_humidity :
  let s := [(mkdate 2035 12 31, Some 1%Q)] in
  exists out,
    fst (create_met_file (fun _ => 1%Q) (inputs_of s s s s None)) = Some out /\
    hurs_df (inputs_of s s s s None) = None /\
    map r_vp (out_data out) = [None] /\
    map (field 45 6) (out_lines out) = [blank6] /\
    map (field 52 6) (out_lines out) = ["222222"] /\
    map r_code (out_data out) = ["222222"] /\
    "222222" <> blank6.
Proof.
  intro s. eexists. split; [vm_compute; reflexivity|].
  repeat split; try (vm_compute; reflexivity). discriminate.
Qed.

End WriterFacts.

(* ================================================================== *)
(** * Properties of the Derived Variable Calculator                     *)
(* ================================================================== *)

Module DerivedFacts.
Import Calendar CalendarFacts Frame FrameFacts Derived Met Statements.

(** ** Vapor pressure *)

Lemma in_matches : forall A d (r : keyed A) a,
  In a (matches d r) <-> exists d', In (d', a) r /\ date_eqb d' d = true.
Proof.
  intros A d r a. unfold matches. rewrite in_map_iff. split.
  - intros ([d' a'] & <- & H). apply filter_In in H. cbn in *. eauto.
  - intros (d' & Hin & He). exists (d', a). split; [reflexivity|].
    apply filter_In. auto.
Qed.

Lemma in_inner_merge : forall A B (l : keyed A) (r : keyed B) d a b,
  In (d, (a, b)) (inner_merge l r) <->
  In (d, a) l /\ exists d', In (d', b) r /\ date_eqb d' d = true.
Proof.
  intros A B l r d a b. unfold inner_merge. rewrite in_flat_map. split.
  - intros ([d0 a0] & Hx & Hin). apply in_map_iff in Hin.
    destruct Hin as (b0 & He & Hb). cbn in He. injection He as -> -> ->.
    split; [assumption|]. now apply in_matches.
  - intros [Hl Hr]. exists (d, a). split; [assumption|].
    apply in_map_iff. exists b. split; [reflexivity|]. now apply in_matches.
Qed.

Section WithExp.

Variable np_exp : Q -> Q.


End WithExp.


(** ** Annual amplitude *)

Lemma filter_map_comm : forall (A B : Type) (f : A -> B) (p : B -> bool) (l : list A),
  filter p (map f l) = map f (filter (fun x => p (f x)) l).
Proof.
  induction l as [|x t IH]; cbn; [reflexivity|].
  destruct (p (f x)); cbn; now rewrite IH.
Qed.

Lemma filter_filter_implied : forall (A : Type) (p q : A -> bool) (l : list A),
  (forall x, p x = true -> q x = true) ->
  filter p (filter q l) = filter p l.
Proof.
  intros A p q l H. induction l as [|x t IH]; cbn; [reflexivity|].
  destruct (q x) eqn:Eq; cbn; [now rewrite IH|].
  destruct (p x) eqn:Ep; [|assumption].
  apply H in Ep. congruence.
Qed.

Lemma existsb_group_key : forall (k : Z * Z) m seen,
  (snd k =? m) = true ->
  existsb (ym_eqb k) seen
  = existsb (Z.eqb (fst k)) (map fst (filter (fun k' => snd k' =? m) seen)).
Proof.
  intros k m seen Hk. apply Z.eqb_eq in Hk.
  induction seen as [|s t IH]; [reflexivity|].
  cbn [existsb filter]. rewrite IH. unfold ym_eqb at 1.
  destruct (Z.eqb_spec (snd s) m) as [Hs|Hs]; cbn [map existsb fst].
  - rewrite Hk, Hs, Z.eqb_refl, andb_true_r. reflexivity.
  - replace (snd k =? snd s) with false; [now rewrite andb_false_r|].
    symmetry. apply Z.eqb_neq. congruence.
Qed.

Lemma group_keys_of_month : forall m l seen,
  filter (fun k => snd k =? m) (group_keys seen l)
  = map (fun y => (y, m))
        (unique_years (map fst (filter (fun k => snd k =? m) seen))
                      (map fst (filter (fun k => snd k =? m) l))).
Proof.
  intros m. induction l as [|k t IH]; intro seen; [reflexivity|].
  cbn [group_keys filter].
  destruct (snd k =? m) eqn:Ek.
  - cbn [map unique_years]. rewrite <- (existsb_group_key k m seen Ek).
    destruct (existsb (ym_eqb k) seen).
    + apply IH.
    + cbn [filter map]. rewrite Ek. f_equal.
      * apply Z.eqb_eq in Ek. destruct k; cbn in *; congruence.
      * rewrite IH. cbn [filter]. rewrite Ek. reflexivity.
  - destruct (existsb (ym_eqb k) seen).
    + apply IH.
    + cbn [filter]. rewrite Ek, IH. cbn [filter]. rewrite Ek. reflexivity.
Qed.

(** The monthly means the code selects for month [m] are those of the
    specification. *)
Lemma monthly_means_of_month : forall m t,
  map snd (filter (fun g => snd (fst g) =? m) (monthly_means t))
  = monthly_mean_temperatures m t.
Proof.
  intros m t. unfold monthly_means, monthly_mean_temperatures, years_with_month.
  rewrite filter_map_comm. cbn [fst snd].
  rewrite group_keys_of_month. cbn [filter map].
  rewrite !map_map. cbn [snd].
  rewrite filter_map_comm, map_map. cbn [year_month fst snd].
  reflexivity.
Qed.

Lemma calculate_tav_amp_formula : forall df,
  snd (calculate_tav_amp df) = amp_formula df.
Proof.
  intro df. unfold calculate_tav_amp, amp_formula, mean_of_month. cbn [snd].
  rewrite !monthly_means_of_month. reflexivity.
Qed.

Lemma monthly_mean_temperatures_filter : forall m t,
  monthly_mean_temperatures m (filter (fun x => month (fst x) =? m) t)
  = monthly_mean_temperatures m t.
Proof.
  intros m t. unfold monthly_mean_temperatures, years_with_month, rows_of_month.
  rewrite (filter_filter_implied _ (fun x => month (fst x) =? m)) by auto.
  apply map_ext. intro y.
  rewrite filter_filter_implied; [reflexivity|].
  intros x H. apply andb_true_iff in H. tauto.
Qed.

Lemma daily_means_filter : forall (p : date -> bool) df,
  filter (fun x => p (fst x)) (daily_means df)
  = daily_means (filter (fun r => p (fst r)) df).
Proof.
  intros p df. unfold daily_means. now rewrite filter_map_comm.
Qed.

Lemma amp_formula_january_july : forall df,
  amp_formula (january_july df) = amp_formula df.
Proof.
  intro df. unfold amp_formula.
  rewrite <- (monthly_mean_temperatures_filter 1 (daily_means (january_july df))).
  rewrite <- (monthly_mean_temperatures_filter 7 (daily_means (january_july df))).
  rewrite <- (monthly_mean_temperatures_filter 1 (daily_means df)).
  rewrite <- (monthly_mean_temperatures_filter 7 (daily_means df)).
  rewrite !(daily_means_filter (fun d => month d =? 1)).
  rewrite !(daily_means_filter (fun d => month d =? 7)).
  unfold january_july.
  rewrite !filter_filter_implied; [reflexivity| |];
    intros x H; rewrite H; auto using orb_true_r.
Qed.

Lemma Qsum_const : forall c xs,
  Forall (fun x => (x == c)%Q) xs ->
  (Qsum xs == c * inject_Z (Z.of_nat (List.length xs)))%Q.
Proof.
  induction 1 as [|x t Hx Ht IH].
  - cbn. ring.
  - cbn [Qsum fold_right List.length]. fold (Qsum t).
    rewrite IH, Hx, Nat2Z.inj_succ. unfold Z.succ. rewrite inject_Z_plus. ring.
Qed.

Lemma mean_all_equal : forall c l,
  all_equal_to c l -> exists a, mean l = Some a /\ (a == c)%Q.
Proof.
  intros c l [Hne Hall].
  assert (Hd : Forall (fun x => (x == c)%Q) (dropna l) /\ dropna l <> []).
  { destruct l as [|v t]; [congruence|]. clear Hne. split.
    - induction Hall as [|v' t' (x & -> & Hx) _ IH]; cbn; [constructor|].
      constructor; assumption.
    - inversion Hall as [|? ? (x & -> & Hx) _]; subst. cbn. discriminate. }
  destruct Hd as [Hd Hn]. unfold mean.
  destruct (dropna l) as [|x xs] eqn:E; [congruence|].
  eexists. split; [reflexivity|].
  rewrite (Qsum_const c) by assumption.
  field. cbn [List.length]. rewrite Nat2Z.inj_succ. unfold Z.succ.
  intro H. unfold Qeq, inject_Z in H. cbn [Qnum Qden] in H. lia.
Qed.

(** C5. For every merged temperature table the annual amplitude returned
    by [calculate_tav_amp] is (mean of all January monthly-mean temperatures
    minus mean of all July monthly-mean temperatures) / 2; it is the same
    for two tables with the same January and July rows, whatever the other
    ten months hold; and when every January monthly mean is 28.0 and every
    July monthly mean is 12.0 it is 8.0. *)
Theorem amplitude_january_minus_july :
  forall df,
    snd (calculate_tav_amp df) = amp_formula df /\
    (forall df', january_july df' = january_july df ->
       snd (calculate_tav_amp df') = snd (calculate_tav_amp df)) /\
    (all_equal_to 28 (monthly_mean_temperatures 1 (daily_means df)) ->
     all_equal_to 12 (monthly_mean_temperatures 7 (daily_means df)) ->
     exists amp, snd (calculate_tav_amp df) = Some amp /\ (amp == 8)%Q).
Proof.
  intro df. split; [apply calculate_tav_amp_formula|]. split.
  - intros df' H. rewrite !calculate_tav_amp_formula.
    rewrite <- (amp_formula_january_july df'), <- (amp_formula_january_july df).
    now rewrite H.
  - intros Hjan Hjul. rewrite calculate_tav_amp_formula. unfold amp_formula.
    destruct (mean_all_equal _ _ Hjan) as (a & -> & Ha).
    destruct (mean_all_equal _ _ Hjul) as (b & -> & Hb).
    eexists. split; [reflexivity|]. rewrite Ha, Hb. reflexivity.
Qed.

Lemma amplitude_january_minus_july_witness :
  let df := [(mkdate 2035 1 1, (Some 30%Q, Some 24%Q));
             (mkdate 2035 1 2, (Some 31%Q, Some 27%Q));
             (mkdate 2035 4 9, (Some 99%Q, None));
             (mkdate 2035 7 1, (Some 16%Q, Some 8%Q));
             (mkdate 2036 1 5, (Some 28%Q, Some 28%Q));
             (mkdate 2036 7 9, (Some 14%Q, Some 10%Q))] in
  exists amp, snd (calculate_tav_amp df) = Some amp /\ (amp == 8)%Q.
Proof.
  intro df.
  apply (amplitude_january_minus_july df).
  - split; [discriminate|].
    repeat (constructor; [eexists; split; [reflexivity | reflexivity]|]).
    constructor.
  - split; [discriminate|].
    repeat (constructor; [eexists; split; [reflexivity | reflexivity]|]).
    constructor.
Defined.

End DerivedFacts.

(* ================================================================== *)
(** * The caller's frames after [create_met_file]                       *)
(* ================================================================== *)

Module EffectFacts.
Import Calendar Frame Met Statements.

(** C9. [create_met_file] copies the maximum-temperature and humidity
    frames before it works on them, but assigns into the three others: on
    this call the caller's radiation frame comes back with a third column,
    [value_mj]. *)
Theorem create_met_file_adds_column :
  let s := [(mkdate 2035 12 31, Some 200%Q)] in
  let inp := inputs_of s s s s (Some s) in
  let after := snd (create_met_file (fun _ => 1%Q) inp) in
  rsds_df inp
  = Some [("date"%string, ColDate [mkdate 2035 12 31]);
          ("value"%string, ColNum [Some 200%Q])] /\
  rsds_df after
  = Some [("date"%string, ColDate [mkdate 2035 12 31]);
          ("value"%string, ColNum [Some 200%Q]);
          ("value_mj"%string, ColNum [Some (200 * 0.0864)%Q])] /\
  rsds_df after <> rsds_df inp /\
  tasmax_df after = tasmax_df inp /\
  tasmin_df after = tasmin_df inp /\
  pr_df after = pr_df inp /\
  hurs_df after = hurs_df inp.
Proof.
  intros s inp after. repeat split; try reflexivity.
  vm_compute. discriminate.
Qed.

End EffectFacts.

(* ================================================================== *)
(** * Writing a table and reading it back                               *)
(* ================================================================== *)

Module RoundTripFacts.
Import Calendar Frame Text Met MetReader Statements WriterFacts.

Local Open Scope Z_scope.
Local Open Scope string_scope.

(** ** Decimal digits *)

Lemma digit_char_spec : forall d,
  0 <= d < 10 ->
  is_digit (digit_char d) = true /\
  Z.of_nat (nat_of_ascii (digit_char d)) - 48 = d.
Proof.
  intros d Hd.
  assert (H : d = 0 \/ d = 1 \/ d = 2 \/ d = 3 \/ d = 4 \/ d = 5 \/
              d = 6 \/ d = 7 \/ d = 8 \/ d = 9) by lia.
  repeat (destruct H as [H|H]); subst d; split; reflexivity.
Qed.

Lemma parse_digits_digit : forall d a rest,
  0 <= d < 10 ->
  parse_digits a (String (digit_char d) rest) = parse_digits (10 * a + d) rest.
Proof.
  intros d a rest Hd. destruct (digit_char_spec d Hd) as [H1 H2].
  cbn [parse_digits]. now rewrite H1, H2.
Qed.

Lemma digits_fuel_spec : forall f n acc,
  0 <= n < 10 ^ Z.of_nat (S f) ->
  exists ds,
    digits_fuel (S f) n acc = ds ++ acc /\
    ds <> "" /\
    all_digits ds = true /\
    (forall a rest,
       parse_digits a (ds ++ rest)
       = parse_digits (a * 10 ^ Z.of_nat (String.length ds) + n) rest) /\
    (forall k, (1 <= k)%nat -> n < 10 ^ Z.of_nat k -> (String.length ds <= k)%nat).
Proof.
  assert (Hsmall : forall (f : nat) n acc, 0 <= n < 10 ->
    exists ds,
      String (digit_char (n mod 10)) acc = ds ++ acc /\
      ds <> "" /\
      all_digits ds = true /\
      (forall a rest,
         parse_digits a (ds ++ rest)
         = parse_digits (a * 10 ^ Z.of_nat (String.length ds) + n) rest) /\
      (forall k, (1 <= k)%nat -> n < 10 ^ Z.of_nat k -> (String.length ds <= k)%nat)).
  { intros _ n acc Hn. rewrite Z.mod_small by lia.
    exists (String (digit_char n) "").
    destruct (digit_char_spec n Hn) as [H1 H2].
    split; [reflexivity|]. split; [discriminate|].
    split; [cbn [all_digits]; now rewrite H1|]. split.
    - intros a rest. cbn [append String.length].
      rewrite parse_digits_digit by assumption. f_equal.
      change (10 ^ Z.of_nat 1) with 10. lia.
    - intros k Hk _. cbn. lia. }
  induction f as [|f IH]; intros n acc Hn.
  - cbn [digits_fuel]. change (10 ^ Z.of_nat 1) with 10 in Hn.
    destruct (Z.ltb_spec n 10); [|lia]. now apply (Hsmall 0%nat).
  - change (digits_fuel (S (S f)) n acc)
      with (if (n <? 10)%Z then String (digit_char (n mod 10)) acc
            else digits_fuel (S f) (n / 10) (String (digit_char (n mod 10)) acc)).
    destruct (Z.ltb_spec n 10) as [Hlt|Hge]; [apply (Hsmall 0%nat); lia|].
    assert (Hdiv : 0 <= n / 10 < 10 ^ Z.of_nat (S f)).
    { split; [apply Z.div_pos; lia|].
      apply Z.div_lt_upper_bound; [lia|].
      replace (Z.of_nat (S (S f))) with (Z.succ (Z.of_nat (S f))) in Hn by lia.
      rewrite Z.pow_succ_r in Hn by lia. lia. }
    destruct (IH (n / 10) (String (digit_char (n mod 10)) acc) Hdiv)
      as (ds & Heq & Hne & Hall & Hparse & Hlen).
    assert (Hmod : 0 <= n mod 10 < 10) by (apply Z.mod_pos_bound; lia).
    destruct (digit_char_spec _ Hmod) as [H1 H2].
    exists (ds ++ String (digit_char (n mod 10)) "").
    split; [rewrite Heq, append_assoc; reflexivity|].
    split; [destruct ds; [congruence | discriminate]|].
    split.
    { clear - Hall H1. induction ds as [|c ds IHd]; cbn [append all_digits] in *.
      - now rewrite H1.
      - apply andb_true_iff in Hall. destruct Hall as [Hc Hd].
        rewrite Hc. now apply IHd. }
    split.
    + intros a rest. rewrite append_assoc. cbn [append].
      rewrite Hparse, parse_digits_digit by assumption. f_equal.
      rewrite length_append. cbn [String.length].
      replace (Z.of_nat (String.length ds + 1)) with (Z.succ (Z.of_nat (String.length ds)))
        by lia.
      rewrite Z.pow_succ_r by lia.
      pose proof (Z.div_mod n 10 ltac:(lia)). lia.
    + intros k Hk Hnk. rewrite length_append. cbn [String.length].
      destruct k as [|[|k]]; [lia | change (10 ^ Z.of_nat 1) with 10 in Hnk; lia |].
      assert ((String.length ds <= S k)%nat); [|lia].
      apply Hlen; [lia|].
      apply Z.div_lt_upper_bound; [lia|].
      replace (Z.of_nat (S (S k))) with (Z.succ (Z.of_nat (S k))) in Hnk by lia.
      rewrite Z.pow_succ_r in Hnk by lia. lia.
Qed.

Lemma str_of_nonneg_spec : forall n,
  0 <= n ->
  str_of_nonneg n <> "" /\
  all_digits (str_of_nonneg n) = true /\
  (forall a rest,
     parse_digits a (str_of_nonneg n ++ rest)
     = parse_digits (a * 10 ^ Z.of_nat (String.length (str_of_nonneg n)) + n) rest) /\
  (forall k, (1 <= k)%nat -> n < 10 ^ Z.of_nat k ->
             (String.length (str_of_nonneg n) <= k)%nat).
Proof.
  intros n Hn. unfold str_of_nonneg.
  destruct (digits_fuel_spec (Z.to_nat (Z.log2 n)) n "") as (ds & Heq & H).
  - split; [assumption|].
    destruct (Z.eq_dec n 0) as [->|Hnz]; [reflexivity|].
    pose proof (Z.log2_spec n ltac:(lia)) as [_ Hlog].
    pose proof (Z.log2_nonneg n).
    replace (Z.of_nat (S (Z.to_nat (Z.log2 n)))) with (Z.succ (Z.log2 n)) by lia.
    eapply Z.lt_le_trans; [exact Hlog|].
    apply Z.pow_le_mono_l. lia.
  - rewrite Heq, append_nil_r. exact H.
Qed.

Lemma is_digit_not_special : forall c,
  is_digit c = true ->
  is_space c = false /\ Ascii.eqb c "-" = false /\ Ascii.eqb c "." = false.
Proof.
  intros c H. unfold is_space. repeat split.
  - destruct (Ascii.eqb_spec c " ") as [->|]; [discriminate H | reflexivity].
  - destruct (Ascii.eqb_spec c "-") as [->|]; [discriminate H | reflexivity].
  - destruct (Ascii.eqb_spec c ".") as [->|]; [discriminate H | reflexivity].
Qed.

Lemma length_spaces : forall n, String.length (spaces n) = n.
Proof. induction n; cbn; auto. Qed.

Lemma lstrip_spaces : forall n s, lstrip (spaces n ++ s) = lstrip s.
Proof. induction n; intro s; cbn; auto. Qed.

Lemma lstrip_digits : forall s, all_digits s = true -> lstrip s = s.
Proof.
  intros [|c r] H; [reflexivity|]. cbn in H. apply andb_true_iff in H.
  destruct H as [Hc _]. apply is_digit_not_special in Hc.
  cbn [lstrip]. now rewrite (proj1 Hc).
Qed.

Lemma split_dot_digits : forall ds rest,
  all_digits ds = true ->
  split_dot (ds ++ String "." rest) = (ds, Some rest).
Proof.
  induction ds as [|c ds IH]; intros rest H; [reflexivity|].
  cbn [all_digits] in H. apply andb_true_iff in H. destruct H as [Hc Hd].
  apply is_digit_not_special in Hc. destruct Hc as (_ & _ & Hdot).
  cbn [append split_dot]. rewrite Hdot, IH by assumption. reflexivity.
Qed.

Lemma pad_left_length : forall w s,
  (String.length s <= w)%nat -> String.length (pad_left w s) = w.
Proof.
  intros w s H. unfold pad_left. rewrite length_append, length_spaces. lia.
Qed.

(** ** Integer fields *)

Lemma format_d_round_trip : forall n,
  0 <= n <= 9999 ->
  String.length (format_d 4 n) = 4%nat /\
  parse_int_field (format_d 4 n) = Some n.
Proof.
  intros n Hn. unfold format_d, str_of_int.
  destruct (Z.ltb_spec n 0); [lia|].
  destruct (str_of_nonneg_spec n ltac:(lia)) as (Hne & Hall & Hparse & Hlen).
  split.
  - apply pad_left_length. apply Hlen; [lia|]. change (10 ^ Z.of_nat 4) with 10000. lia.
  - unfold parse_int_field, pad_left.
    rewrite lstrip_spaces, lstrip_digits by assumption.
    destruct (str_of_nonneg n) as [|c r] eqn:E; [congruence|].
    pose proof Hall as Hall'. cbn [all_digits] in Hall'.
    apply andb_true_iff in Hall'. destruct Hall' as [Hc _].
    apply is_digit_not_special in Hc. destruct Hc as (_ & Hminus & _).
    rewrite Hminus. unfold parse_nat.
    specialize (Hparse 0 ""). rewrite append_nil_r in Hparse.
    rewrite Hparse. cbn [parse_digits]. f_equal; lia.
Qed.

(** ** Rounding to one decimal *)

Lemma round_half_even_near : forall q,
  (Qabs (q - inject_Z (round_half_even q)) <= 1 # 2)%Q.
Proof.
  intro q. unfold round_half_even.
  pose proof (Qfloor_le q) as Hlo. pose proof (Qlt_floor q) as Hhi.
  set (f := Qfloor q) in *.
  rewrite inject_Z_plus in Hhi. change (inject_Z 1) with 1%Q in Hhi.
  apply Qabs_Qle_condition.
  destruct (Qcompare (q - inject_Z f) (1 # 2)) eqn:E.
  - apply Qeq_alt in E.
    destruct (Z.even f);
      [|rewrite inject_Z_plus; change (inject_Z 1) with 1%Q]; split; lra.
  - apply Qlt_alt in E. split; lra.
  - apply Qgt_alt in E. rewrite inject_Z_plus. change (inject_Z 1) with 1%Q.
    split; lra.
Qed.

Lemma round_half_even_sign : forall q,
  ((0 <= q)%Q -> 0 <= round_half_even q) /\
  ((q < 0)%Q -> round_half_even q <= 0).
Proof.
  intro q. unfold round_half_even.
  pose proof (Qfloor_le q) as Hlo. pose proof (Qlt_floor q) as Hhi.
  set (f := Qfloor q) in *. split; intro Hq.
  - assert (0 <= f).
    { destruct (Z.le_gt_cases 0 f) as [|Hneg]; [assumption|]. exfalso.
      assert (Hf : (inject_Z (f + 1) <= inject_Z 0)%Q).
      { rewrite <- Zle_Qle. lia. }
      change (inject_Z 0) with 0%Q in Hf. lra. }
    destruct (Qcompare _ _); [destruct (Z.even f)| |]; lia.
  - assert (f < 0).
    { destruct (Z.lt_ge_cases f 0) as [|Hpos]; [assumption|]. exfalso.
      assert (Hf : (inject_Z 0 <= inject_Z f)%Q).
      { rewrite <- Zle_Qle. lia. }
      change (inject_Z 0) with 0%Q in Hf. lra. }
    destruct (Qcompare _ _); [destruct (Z.even f)| |]; lia.
Qed.

Lemma tenths_near : forall x, (Qabs (x - (tenths x # 10)) <= 1 # 20)%Q.
Proof.
  intro x. unfold tenths. pose proof (round_half_even_near (x * 10)) as H.
  apply Qabs_Qle_condition in H. apply Qabs_Qle_condition.
  set (n := round_half_even (x * 10)) in *.
  assert (Hn : (n # 10 == inject_Z n / 10)%Q).
  { unfold Qeq, Qdiv, Qmult, Qinv, inject_Z. cbn. lia. }
  rewrite Hn. split.
  - apply Qle_minus_iff. destruct H as [H _]. apply Qle_minus_iff in H.
    setoid_replace (x - inject_Z n / 10 + - - (1 # 20))%Q
      with ((x * 10 - inject_Z n + - - (1 # 2)) / 10)%Q by field.
    apply Qle_shift_div_l; lra.
  - apply Qle_minus_iff. destruct H as [_ H]. apply Qle_minus_iff in H.
    setoid_replace ((1 # 20) + - (x - inject_Z n / 10))%Q
      with (((1 # 2) + - (x * 10 - inject_Z n)) / 10)%Q by field.
    apply Qle_shift_div_l; lra.
Qed.

Lemma tenths_sign : forall x,
  (Qle_bool 0 x = true -> 0 <= tenths x) /\
  (Qle_bool 0 x = false -> tenths x <= 0).
Proof.
  intro x. unfold tenths. destruct (round_half_even_sign (x * 10)) as [Hp Hn].
  split; intro H.
  - apply Hp. apply Qle_bool_iff in H. lra.
  - apply Hn. destruct (Qlt_le_dec x 0) as [Hlt|Hge]; [lra|].
    apply Qle_bool_iff in Hge. congruence.
Qed.

(** The digits written for a magnitude of [a] tenths. *)
Lemma decimal_body : forall a k,
  0 <= a -> (1 <= k)%nat -> a / 10 < 10 ^ Z.of_nat k ->
  let body := str_of_nonneg (a / 10) ++ "." ++ str_of_nonneg (a mod 10) in
  (String.length body <= k + 2)%nat /\
  (exists c r, body = String c r /\ is_digit c = true) /\
  split_dot body = (str_of_nonneg (a / 10), Some (str_of_nonneg (a mod 10))) /\
  parse_nat (str_of_nonneg (a / 10)) = Some (a / 10) /\
  parse_nat (str_of_nonneg (a mod 10)) = Some (a mod 10) /\
  String.length (str_of_nonneg (a mod 10)) = 1%nat.
Proof.
  intros a k Ha Hk Hak body.
  assert (Hq : 0 <= a / 10) by (apply Z.div_pos; lia).
  assert (Hr : 0 <= a mod 10 < 10) by (apply Z.mod_pos_bound; lia).
  destruct (str_of_nonneg_spec (a / 10) Hq) as (Hne1 & Hall1 & Hp1 & Hl1).
  destruct (str_of_nonneg_spec (a mod 10) ltac:(lia)) as (Hne2 & Hall2 & Hp2 & Hl2).
  assert (Hlen2 : String.length (str_of_nonneg (a mod 10)) = 1%nat).
  { specialize (Hl2 1%nat ltac:(lia)). change (10 ^ Z.of_nat 1) with 10 in Hl2.
    specialize (Hl2 ltac:(lia)).
    destruct (str_of_nonneg (a mod 10)); [congruence | cbn in *; lia]. }
  assert (Hpn : forall n, 0 <= n -> parse_nat (str_of_nonneg n) = Some n).
  { intros n Hn. destruct (str_of_nonneg_spec n Hn) as (Hne & _ & Hp & _).
    unfold parse_nat. specialize (Hp 0 ""). rewrite append_nil_r in Hp.
    destruct (str_of_nonneg n) eqn:E; [congruence|].
    rewrite Hp. cbn [parse_digits]. f_equal; lia. }
  subst body. change ("." ++ str_of_nonneg (a mod 10))
    with (String "." (str_of_nonneg (a mod 10))).
  split.
  { rewrite length_append. cbn [String.length]. rewrite Hlen2.
    specialize (Hl1 k Hk Hak). lia. }
  split.
  { destruct (str_of_nonneg (a / 10)) as [|c r]; [congruence|].
    cbn [all_digits] in Hall1. apply andb_true_iff in Hall1.
    exists c. eexists. split; [reflexivity | tauto]. }
  split; [now apply split_dot_digits|].
  split; [now apply Hpn|]. split; [apply Hpn; lia | assumption].
Qed.

Lemma parse_decimal_unsigned : forall s c r,
  s = String c r -> Ascii.eqb c "-" = false ->
  parse_decimal s
  = match split_dot s with
    | (ip, Some fp) =>
        match parse_nat ip, parse_nat fp with
        | Some i, Some f =>
            Some ((i * Zpos (pow10 (String.length fp)) + f) # pow10 (String.length fp))
        | _, _ => None
        end
    | (_, None) => None
    end.
Proof.
  intros s c r -> H. unfold parse_decimal. rewrite H. reflexivity.
Qed.

Lemma parse_decimal_signed : forall s,
  parse_decimal (String "-" s)
  = match split_dot s with
    | (ip, Some fp) =>
        match parse_nat ip, parse_nat fp with
        | Some i, Some f =>
            Some (- (i * Zpos (pow10 (String.length fp)) + f) # pow10 (String.length fp))
        | _, _ => None
        end
    | (_, None) => None
    end.
Proof. reflexivity. Qed.

Lemma parse_num_field_padded : forall k s c r,
  s = String c r -> is_space c = false ->
  parse_num_field (spaces k ++ s) = option_map Some (parse_decimal s).
Proof.
  intros k s c r -> H. unfold parse_num_field. rewrite lstrip_spaces.
  cbn [lstrip]. rewrite H. reflexivity.
Qed.

Lemma format_f1_round_trip : forall x,
  -9999 <= tenths x <= 99999 ->
  String.length (format_f1 6 x) = 6%nat /\
  parse_num_field (format_f1 6 x) = Some (Some (tenths x # 10)).
Proof.
  intros x Hx. unfold format_f1.
  destruct (tenths_sign x) as [Hpos Hneg].
  set (a := Z.abs (tenths x)).
  assert (Ha : 0 <= a) by apply Z.abs_nonneg.
  pose proof (Z.div_mod a 10 ltac:(lia)) as Hdm.
  destruct (Qle_bool 0 x) eqn:E.
  - specialize (Hpos eq_refl).
    assert (Hat : a = tenths x) by (unfold a; lia).
    destruct (decimal_body a 4 Ha ltac:(lia))
      as (Hlen & (c & r & Hb & Hc) & Hsd & Hi & Hf & Hl).
    { change (10 ^ Z.of_nat 4) with 10000.
      apply Z.div_lt_upper_bound; lia. }
    split; [apply pad_left_length; exact Hlen|].
    apply is_digit_not_special in Hc. destruct Hc as (Hsp & Hmin & _).
    unfold pad_left.
    rewrite (parse_num_field_padded _ _ c r Hb Hsp).
    rewrite (parse_decimal_unsigned _ c r Hb Hmin).
    rewrite Hsd, Hi, Hf, Hl. cbn [pow10 option_map].
    change (10 * 1)%positive with 10%positive.
    do 3 f_equal. lia.
  - specialize (Hneg eq_refl).
    assert (Hat : - a = tenths x) by (unfold a; lia).
    destruct (decimal_body a 3 Ha ltac:(lia))
      as (Hlen & (c & r & Hb & Hc) & Hsd & Hi & Hf & Hl).
    { change (10 ^ Z.of_nat 3) with 1000.
      apply Z.div_lt_upper_bound; lia. }
    split; [apply pad_left_length; cbn [String.length]; lia|].
    unfold pad_left.
    rewrite (parse_num_field_padded _ _ "-"%char _ eq_refl eq_refl).
    rewrite parse_decimal_signed.
    rewrite Hsd, Hi, Hf, Hl. cbn [pow10 option_map].
    change (10 * 1)%positive with 10%positive.
    do 3 f_equal. lia.
Qed.

Lemma blank_field : parse_num_field blank6 = Some None /\ String.length blank6 = 6%nat.
Proof. split; reflexivity. Qed.

(** ** A whole row *)

Lemma string_of_length_4 : forall s,
  String.length s = 4%nat ->
  exists a b c d, s = String a (String b (String c (String d ""))).
Proof.
  intros [|a [|b [|c [|d [|e s]]]]] H; cbn in H; try discriminate.
  now exists a, b, c, d.
Qed.

Lemma string_of_length_6 : forall s,
  String.length s = 6%nat ->
  exists a b c d e f,
    s = String a (String b (String c (String d (String e (String f ""))))).
Proof.
  intros [|a [|b [|c [|d [|e [|f [|g s]]]]]]] H; cbn in H; try discriminate.
  now exists a, b, c, d, e, f.
Qed.

(** A line made of nine fields of the column widths is read back field by
    field. *)
Lemma parse_row_fields : forall f1 f2 f3 f4 f5 f6 f7 f8 f9,
  String.length f1 = 4%nat -> String.length f2 = 4%nat ->
  String.length f3 = 6%nat -> String.length f4 = 6%nat ->
  String.length f5 = 6%nat -> String.length f6 = 6%nat ->
  String.length f7 = 6%nat -> String.length f8 = 6%nat ->
  String.length f9 = 6%nat ->
  let line := sp f1 (sp f2 (sp f3 (sp f4 (sp f5 (sp f6 (sp f7 (sp f8 f9)))))))
              ++ newline in
  String.length line = 59%nat /\
  field 0 4 line = f1 /\ field 5 4 line = f2 /\ field 10 6 line = f3 /\
  field 17 6 line = f4 /\ field 24 6 line = f5 /\ field 31 6 line = f6 /\
  field 38 6 line = f7 /\ field 45 6 line = f8 /\ field 52 6 line = f9 /\
  parse_row line
  = match parse_int_field f1, parse_int_field f2,
          parse_num_field f3, parse_num_field f4, parse_num_field f5,
          parse_num_field f6, parse_num_field f7, parse_num_field f8 with
    | Some y, Some d, Some radn, Some maxt, Some mint, Some rain, Some evap, Some vp =>
        Some (mkMetRow y d radn maxt mint rain evap vp f9)
    | _, _, _, _, _, _, _, _ => None
    end.
Proof.
  intros f1 f2 f3 f4 f5 f6 f7 f8 f9 H1 H2 H3 H4 H5 H6 H7 H8 H9.
  apply string_of_length_4 in H1, H2.
  apply string_of_length_6 in H3, H4, H5, H6, H7, H8, H9.
  destruct H1 as (? & ? & ? & ? & ->). destruct H2 as (? & ? & ? & ? & ->).
  destruct H3 as (? & ? & ? & ? & ? & ? & ->).
  destruct H4 as (? & ? & ? & ? & ? & ? & ->).
  destruct H5 as (? & ? & ? & ? & ? & ? & ->).
  destruct H6 as (? & ? & ? & ? & ? & ? & ->).
  destruct H7 as (? & ? & ? & ? & ? & ? & ->).
  destruct H8 as (? & ? & ? & ? & ? & ? & ->).
  destruct H9 as (? & ? & ? & ? & ? & ? & ->).
  cbv zeta. repeat split; reflexivity.
Qed.

Lemma field_or_blank_round_trip : forall v,
  fits6 v ->
  String.length (field_or_blank v) = 6%nat /\
  parse_num_field (field_or_blank v) = Some (rounded v).
Proof.
  intros [x|] H; cbn [field_or_blank rounded].
  - now apply format_f1_round_trip.
  - split; reflexivity.
Qed.

Lemma field_or_zero_round_trip : forall v,
  fits6 v ->
  String.length (field_or_zero v) = 6%nat /\
  parse_num_field (field_or_zero v) = Some (rounded_or_zero v).
Proof.
  intros [x|] H; cbn [field_or_zero rounded_or_zero].
  - now apply format_f1_round_trip.
  - split; reflexivity.
Qed.

Lemma row_round_trip : forall r,
  in_layout r ->
  String.length (format_row r) = 59%nat /\
  parse_row (format_row r) = Some (written_row r) /\
  String.length (field 0 4 (format_row r)) = 4%nat /\
  String.length (field 5 4 (format_row r)) = 4%nat /\
  field 10 6 (format_row r) = field_or_blank (r_radn r) /\
  field 17 6 (format_row r) = field_or_zero (r_maxt r) /\
  field 24 6 (format_row r) = field_or_zero (r_mint r) /\
  field 31 6 (format_row r) = field_or_zero (r_rain r) /\
  field 38 6 (format_row r) = field_or_blank (r_evap r) /\
  field 45 6 (format_row r) = field_or_blank (r_vp r) /\
  field 52 6 (format_row r) = "222222".
Proof.
  intros r (Hy & Hd & Hradn & Hmaxt & Hmint & Hrain & Hevap & Hvp).
  destruct (format_d_round_trip _ Hy) as [L1 P1].
  destruct (format_d_round_trip _ Hd) as [L2 P2].
  destruct (field_or_blank_round_trip _ Hradn) as [L3 P3].
  destruct (field_or_zero_round_trip _ Hmaxt) as [L4 P4].
  destruct (field_or_zero_round_trip _ Hmint) as [L5 P5].
  destruct (field_or_zero_round_trip _ Hrain) as [L6 P6].
  destruct (field_or_blank_round_trip _ Hevap) as [L7 P7].
  destruct (field_or_blank_round_trip _ Hvp) as [L8 P8].
  destruct (parse_row_fields _ _ _ _ _ _ _ _ code_str L1 L2 L3 L4 L5 L6 L7 L8 eq_refl)
    as (Hlen & F1 & F2 & F3 & F4 & F5 & F6 & F7 & F8 & F9 & Hparse).
  fold (format_row r) in *.
  rewrite Hparse, P1, P2, P3, P4, P5, P6, P7, P8, F1, F2.
  repeat split; auto.
Qed.

(** C7 (amended). For every Merged Weather Table whose years and day
    numbers have at most four digits and whose values, rounded to one
    decimal, lie between -999.9 and 9999.9, each line written for a row is
    59 characters long and reading its fixed-width fields back gives the
    year, the day, and every numeric value rounded to one decimal (within
    0.05 of the original), an absent temperature or rainfall being read as
    0.0: the year and day fields are 4 characters wide, the numeric fields
    6 characters, and an absent radiation, evaporation or vapor-pressure
    value is six spaces.  The lines of a MET file are the rows so written. *)
Theorem met_table_round_trip :
  forall table,
    Forall in_layout table ->
    map parse_row (map format_row table)
    = map (fun r => Some (written_row r)) table /\
    Forall (fun r =>
              let line := format_row r in
              String.length line = 59%nat /\
              String.length (field 0 4 line) = 4%nat /\
              String.length (field 5 4 line) = 4%nat /\
              field 10 6 line = field_or_blank (r_radn r) /\
              field 17 6 line = field_or_zero (r_maxt r) /\
              field 24 6 line = field_or_zero (r_mint r) /\
              field 31 6 line = field_or_zero (r_rain r) /\
              field 38 6 line = field_or_blank (r_evap r) /\
              field 45 6 line = field_or_blank (r_vp r) /\
              (r_radn r = None -> field 10 6 line = blank6) /\
              (r_evap r = None -> field 38 6 line = blank6) /\
              (r_vp r = None -> field 45 6 line = blank6)) table /\
    (forall x, (Qabs (x - (tenths x # 10)) <= 1 # 20)%Q) /\
    (forall np_exp inp out,
       fst (create_met_file np_exp inp) = Some out ->
       out_lines out = map format_row (out_data out)).
Proof.
  intros table Hall. split; [|split; [|split]].
  - rewrite map_map. apply map_ext_in. intros r Hr.
    rewrite Forall_forall in Hall. now apply row_round_trip, Hall.
  - eapply Forall_impl; [|exact Hall]. intros r Hr. cbv zeta.
    destruct (row_round_trip r Hr)
      as (H0 & _ & H1 & H2 & H3 & H4 & H5 & H6 & H7 & H8 & _).
    repeat split; auto.
    + intro E. rewrite H3, E. reflexivity.
    + intro E. rewrite H7, E. reflexivity.
    + intro E. rewrite H8, E. reflexivity.
  - apply tenths_near.
  - intros np_exp inp out H. apply create_met_file_assemble in H.
    destruct H as (maxt & mint & rain & radn & hurs & H).
    now apply assemble_shape in H.
Qed.

Lemma met_table_round_trip_witness :
  let table := [mkMetRow 2035 365 (Some 17.28%Q) (Some 30.25%Q) (Some (-0.04)%Q)
                         None None (Some 12.75%Q) "222222";
                mkMetRow 2036 366 None (Some 9999.9%Q) (Some (-999.9)%Q)
                         (Some 0%Q) None None "222222"] in
  map parse_row (map format_row table)
  = map (fun r => Some (written_row r)) table.
Proof.
  intro table. apply (met_table_round_trip table).
  repeat constructor; try (vm_compute; discriminate).
Defined.

(** C7 as stated fails: a rainfall of 10000.0 is written in seven
    characters, the line is 60 characters long and its fixed-width fields
    no longer hold the values. *)
Lemma met_row_overflow :
  let r := mkMetRow 2035 1 (Some 17%Q) (Some 30%Q) (Some 20%Q)
                    (Some 10000%Q) None None "222222" in
  field_or_zero (r_rain r) = "10000.0" /\
  String.length (format_row r) = 60%nat /\
  field 31 6 (format_row r) = "10000." /\
  parse_row (format_row r) = None /\
  parse_row (format_row r) <> Some (written_row r).
Proof.
  intro r. repeat split; try (vm_compute; reflexivity).
  vm_compute. discriminate.
Qed.

End RoundTripFacts.

(* ================================================================== *)
(** * Further properties of fills                                       *)
(* ================================================================== *)

Module FillFacts.
Import Frame FrameFacts Gaps.

Lemma ffill_from_no_nan : forall l x, no_nan (ffill_from (Some x) l).
Proof.
  unfold no_nan.
  induction l as [|[y|] t IH]; intro x; cbn [ffill_from].
  - constructor.
  - constructor; [discriminate | apply IH].
  - constructor; [discriminate | apply IH].
Qed.

Lemma ffill_from_all_nan : forall l, all_nan l -> ffill_from None l = l.
Proof.
  induction 1 as [|v t Hv Ht IH]; [reflexivity|].
  subst v. cbn. now rewrite IH.
Qed.

Lemma all_nan_rev : forall l, all_nan l -> all_nan (rev l).
Proof. intros l H. now apply Forall_rev. Qed.

Lemma no_nan_rev : forall l, no_nan l -> no_nan (rev l).
Proof. intros l H. now apply Forall_rev. Qed.

Lemma fill_all_nan : forall l, all_nan l -> bfill (ffill l) = l.
Proof.
  intros l H. unfold bfill, ffill.
  rewrite (ffill_from_all_nan l H).
  rewrite (ffill_from_all_nan (rev l) (all_nan_rev l H)).
  apply rev_involutive.
Qed.

(** A forward fill ends on a number as soon as there is one to carry. *)
Lemma ffill_from_ends : forall l last,
  l <> [] ->
  (last <> None \/ exists x, In (Some x) l) ->
  exists l' y, ffill_from last l = (l' ++ [Some y])%list.
Proof.
  induction l as [|v t IH]; intros last Hne H; [congruence|].
  destruct t as [|w t'].
  - destruct v as [x|]; cbn.
    + exists [], x. reflexivity.
    + destruct H as [H | (x & [Hx | []])]; [|discriminate].
      destruct last as [y|]; [|congruence]. exists [], y. reflexivity.
  - destruct v as [x|].
    + destruct (IH (Some x)) as (l' & y & E); [discriminate | left; discriminate|].
      exists (Some x :: l'), y. cbn [ffill_from]. cbn [ffill_from] in E.
      now rewrite E.
    + destruct (IH last) as (l' & y & E); [discriminate | |].
      { destruct H as [H | (x & [Hx | Hx])]; [now left | discriminate | right; eauto]. }
      exists (last :: l'), y. cbn [ffill_from]. cbn [ffill_from] in E.
      now rewrite E.
Qed.

Lemma fill_no_nan : forall l x, In (Some x) l -> no_nan (bfill (ffill l)).
Proof.
  intros l x Hx. unfold bfill, ffill at 2.
  destruct (ffill_from_ends l None) as (l' & y & E).
  - now destruct l.
  - right. eauto.
  - rewrite E, rev_app_distr. cbn [rev app]. unfold ffill. cbn [ffill_from].
    apply no_nan_rev. constructor; [discriminate | apply ffill_from_no_nan].
Qed.

(** After a forward and a backward fill a column is whole or empty. *)
Lemma fill_all_or_nothing : forall l,
  all_nan (bfill (ffill l)) \/ no_nan (bfill (ffill l)).
Proof.
  intro l.
  assert (H : all_nan l \/ exists x, In (Some x) l).
  { induction l as [|[x|] t IH].
    - left. constructor.
    - right. exists x. now left.
    - destruct IH as [IH | (x & Hx)].
      + left. now constructor.
      + right. exists x. now right. }
  destruct H as [H | (x & Hx)].
  - left. now rewrite fill_all_nan.
  - right. now apply fill_no_nan with (x := x).
Qed.

Lemma fillna_no_nan : forall x l, no_nan (fillna x l).
Proof.
  intros x l. unfold fillna. apply Forall_forall. intros v Hv.
  apply in_map_iff in Hv. destruct Hv as ([y|] & <- & _); discriminate.
Qed.

Lemma fill_numeric_no_nan : forall c, no_nan (Met.fill_numeric c).
Proof. intro c. apply fillna_no_nan. Qed.

Lemma ffill_from_keeps : forall l last, Forall2 keeps l (ffill_from last l).
Proof.
  induction l as [|[x|] t IH]; intro last; cbn; constructor; auto.
  - intros y H. exact H.
  - intros y H. discriminate.
Qed.

Lemma Forall2_keeps_rev : forall l l', Forall2 keeps l l' -> Forall2 keeps (rev l) (rev l').
Proof.
  induction 1 as [|a b l l' Hab H IH]; cbn; [constructor|].
  apply Forall2_app; [assumption | now constructor].
Qed.

Lemma Forall2_keeps_trans : forall l1 l2 l3,
  Forall2 keeps l1 l2 -> Forall2 keeps l2 l3 -> Forall2 keeps l1 l3.
Proof.
  intros l1 l2 l3 H. revert l3.
  induction H as [|a b l l' Hab H IH]; intros l3 H3; inversion H3; subst;
    constructor; auto.
  intros x Hx. auto.
Qed.

Lemma bfill_keeps : forall l, Forall2 keeps l (bfill l).
Proof.
  intro l. unfold bfill, ffill.
  rewrite <- (rev_involutive l) at 1.
  apply Forall2_keeps_rev, ffill_from_keeps.
Qed.

Lemma fillna_keeps : forall x l, Forall2 keeps l (fillna x l).
Proof.
  intros x l. induction l as [|[y|] t IH]; cbn; constructor; auto.
  - intros z H. exact H.
  - intros z H. discriminate.
Qed.


(** ** What a gap is filled with *)

Lemma ffill_from_value : forall pre last x rest,
  ffill_from last (pre ++ Some x :: rest)
  = (ffill_from last pre ++ Some x :: ffill_from (Some x) rest)%list.
Proof.
  induction pre as [|[y|] t IH]; intros last x rest; cbn; [reflexivity| |];
    now rewrite IH.
Qed.

Lemma ffill_from_gap : forall n x post,
  ffill_from (Some x) (repeat None n ++ post)
  = (repeat (Some x) n ++ ffill_from (Some x) post)%list.
Proof.
  induction n as [|n IH]; intros x post; cbn; [reflexivity | now rewrite IH].
Qed.

Lemma ffill_from_whole : forall l last, no_nan l -> ffill_from last l = l.
Proof.
  intros l last H. revert last.
  induction H as [|[x|] t Hx Ht IH]; intro last; cbn;
    [reflexivity | now rewrite IH | congruence].
Qed.

Lemma keeps_whole : forall l l', no_nan l -> Forall2 keeps l l' -> l' = l.
Proof.
  intros l l' Hn H. induction H as [|a b l l' Hab H IH]; [reflexivity|].
  inversion Hn as [|? ? Ha Hl]; subst.
  destruct a as [x|]; [|congruence].
  rewrite (Hab x eq_refl). f_equal. now apply IH.
Qed.

Lemma repeat_no_nan : forall (x : Q) n, no_nan (repeat (Some x) n).
Proof.
  intros x n. apply Forall_forall. intros v Hv.
  apply repeat_spec in Hv. subst v. discriminate.
Qed.

Lemma repeat_snoc : forall (A : Type) (a : A) n,
  (repeat a n ++ [a])%list = a :: repeat a n.
Proof.
  induction n as [|n IH]; cbn; [reflexivity | now rewrite IH].
Qed.

Lemma rev_repeat : forall (A : Type) (a : A) n, rev (repeat a n) = repeat a n.
Proof.
  induction n as [|n IH]; cbn; [reflexivity|].
  now rewrite IH, repeat_snoc.
Qed.

(** X1. The fills of a numeric column carry the last value forward: the
    days of a gap after a value take that value (not the next one, and no
    interpolation); the days before the first value take the first value;
    a column without any value becomes 0.0 throughout. *)
Theorem gaps_take_previous_value :
  forall x n,
    (forall pre post, exists pre' post',
       Met.fill_numeric (pre ++ Some x :: repeat None n ++ post)
       = (pre' ++ repeat (Some x) (S n) ++ post')%list /\
       List.length pre' = List.length pre /\
       List.length post' = List.length post) /\
    (forall post, exists post',
       Met.fill_numeric (repeat None n ++ Some x :: post)
       = (repeat (Some x) (S n) ++ post')%list /\
       List.length post' = List.length post) /\
    Met.fill_numeric (repeat None n) = repeat (Some 0%Q) n.
Proof.
  intros x n. split; [|split].
  - intros pre post.
    set (l := (pre ++ Some x :: repeat None n ++ post)%list).
    assert (Hf : ffill l = (ffill pre ++ repeat (Some x) (S n)
                            ++ ffill_from (Some x) post)%list).
    { unfold l, ffill. rewrite ffill_from_value, ffill_from_gap. reflexivity. }
    assert (Hk : Forall2 keeps (ffill l) (Met.fill_numeric l)).
    { unfold Met.fill_numeric.
      eapply Forall2_keeps_trans; [apply bfill_keeps | apply fillna_keeps]. }
    rewrite Hf in Hk.
    apply Forall2_app_inv_l in Hk. destruct Hk as (pre' & rest & Hpre & Hk & E).
    apply Forall2_app_inv_l in Hk. destruct Hk as (mid & post' & Hmid & Hpost & E').
    apply keeps_whole in Hmid; [|apply repeat_no_nan].
    exists pre', post'. subst rest mid. split; [exact E|]. split.
    + apply Forall2_length in Hpre.
      transitivity (List.length (ffill pre)); [symmetry; exact Hpre|].
      apply ffill_length.
    + apply Forall2_length in Hpost.
      transitivity (List.length (ffill_from (Some x) post));
        [symmetry; exact Hpost|].
      apply ffill_from_length.
  - intro post.
    exists (ffill_from (Some x) post). split; [|apply ffill_from_length].
    unfold Met.fill_numeric.
    set (P := ffill_from (Some x) post).
    assert (Hnone : all_nan (repeat (@None Q) n)).
    { apply Forall_forall. intros v Hv. now apply repeat_spec in Hv. }
    assert (E1 : ffill (repeat None n ++ Some x :: post)
                 = (repeat None n ++ Some x :: P)%list).
    { unfold ffill. rewrite ffill_from_value.
      now rewrite (ffill_from_all_nan _ Hnone). }
    assert (E2 : rev (repeat None n ++ Some x :: P)
                 = (rev P ++ Some x :: repeat None n)%list).
    { rewrite rev_app_distr. cbn [rev]. rewrite rev_repeat, <- app_assoc.
      reflexivity. }
    assert (E3 : ffill (rev P ++ Some x :: repeat None n)
                 = (rev P ++ Some x :: repeat (Some x) n)%list).
    { unfold ffill. rewrite ffill_from_value.
      rewrite (ffill_from_whole (rev P))
        by apply no_nan_rev, ffill_from_no_nan.
      rewrite <- (app_nil_r (repeat None n)), ffill_from_gap.
      cbn [ffill_from]. now rewrite app_nil_r. }
    assert (E4 : rev (rev P ++ Some x :: repeat (Some x) n)
                 = (repeat (Some x) (S n) ++ P)%list).
    { rewrite rev_app_distr, rev_involutive.
      change (Some x :: repeat (Some x) n) with (repeat (Some x) (S n)).
      now rewrite rev_repeat. }
    assert (Hb : bfill (ffill (repeat None n ++ Some x :: post))
                 = (repeat (Some x) (S n) ++ P)%list).
    { unfold bfill. unfold value in *. rewrite E1, E2, E3, E4. reflexivity. }
    rewrite Hb. apply keeps_whole; [|apply fillna_keeps].
    apply Forall_app. split; [apply repeat_no_nan | apply ffill_from_no_nan].
  - unfold Met.fill_numeric. rewrite fill_all_nan.
    + unfold fillna. induction n as [|n IH]; cbn; [reflexivity | now rewrite IH].
    + apply Forall_forall. intros v Hv. now apply repeat_spec in Hv.
Qed.

End FillFacts.

(* ================================================================== *)
(** * Further properties of joins on the date                           *)
(* ================================================================== *)

Module JoinFacts.
Import Calendar CalendarFacts Frame FrameFacts ExtractorFacts.

Lemma date_eqb_trans : forall a b c,
  date_eqb a b = true -> date_eqb b c = true -> date_eqb a c = true.
Proof.
  unfold date_eqb. intros a b c H1 H2.
  apply Z.eqb_eq in H1, H2. apply Z.eqb_eq. congruence.
Qed.

Lemma date_eqb_congr : forall a b c,
  date_eqb a b = true -> date_eqb c a = date_eqb c b.
Proof.
  unfold date_eqb. intros a b c H. apply Z.eqb_eq in H. now rewrite H.
Qed.

Lemma has_key_congr : forall A (r : keyed A) a b,
  date_eqb a b = true -> has_key a r = has_key b r.
Proof.
  intros A r a b H. unfold has_key.
  induction r as [|x t IH]; [reflexivity|].
  cbn. now rewrite IH, (date_eqb_congr a b).
Qed.

Lemma lookup_congr : forall A (r : keyed A) a b,
  date_eqb a b = true -> lookup a r = lookup b r.
Proof.
  intros A r a b H. induction r as [|[k v] t IH]; [reflexivity|].
  cbn. now rewrite IH, (date_eqb_congr a b).
Qed.

Lemma matches_congr : forall A (r : keyed A) a b,
  date_eqb a b = true -> matches a r = matches b r.
Proof.
  intros A r a b H. unfold matches. f_equal.
  apply filter_ext. intro x. now apply date_eqb_congr.
Qed.

Lemma lookup_matches : forall A (r : keyed A) d,
  lookup d r = hd_error (matches d r).
Proof.
  intros A r d. unfold matches. induction r as [|[k v] t IH]; [reflexivity|].
  cbn. destruct (date_eqb k d); [reflexivity | exact IH].
Qed.

Lemma has_key_lookup : forall A (r : keyed A) d,
  has_key d r = match lookup d r with Some _ => true | None => false end.
Proof.
  intros A r d. unfold has_key. induction r as [|[k v] t IH]; [reflexivity|].
  cbn. destruct (date_eqb k d); [reflexivity | exact IH].
Qed.

Lemma lookup_app : forall A (x y : keyed A) d,
  lookup d (x ++ y)
  = match lookup d x with Some v => Some v | None => lookup d y end.
Proof.
  intros A x y d. induction x as [|[k v] t IH]; [reflexivity|].
  cbn. destruct (date_eqb k d); [reflexivity | exact IH].
Qed.

Lemma lookup_in : forall A (r : keyed A) d a,
  lookup d r = Some a -> exists d', In (d', a) r /\ date_eqb d' d = true.
Proof.
  intros A r d a. induction r as [|[k v] t IH]; [discriminate|].
  cbn. destruct (date_eqb k d) eqn:E.
  - intro H. injection H as ->. exists k. auto.
  - intro H. destruct (IH H) as (d' & Hin & He). exists d'. auto.
Qed.


Lemma lookup_other_key : forall A (r : keyed A) d,
  Forall (fun x => date_eqb (fst x) d = false) r -> lookup d r = None.
Proof.
  induction 1 as [|[k v] t Hk Ht IH]; [reflexivity|].
  cbn in *. now rewrite Hk.
Qed.

(** The first row of a left join for a date is the first left row for it,
    joined to the first right row for it. *)
Lemma lookup_left_merge : forall A B (nb : B) (l : keyed A) (r : keyed B) d,
  lookup d (left_merge nb l r)
  = match lookup d l with
    | Some a => Some (a, match lookup d r with Some b => b | None => nb end)
    | None => None
    end.
Proof.
  intros A B nb l r d. unfold left_merge.
  induction l as [|[k a] t IH]; [reflexivity|].
  cbn [flat_map fst snd lookup]. rewrite lookup_app, IH.
  destruct (date_eqb k d) eqn:E.
  - rewrite <- (lookup_congr _ r k d E), (lookup_matches _ r k).
    destruct (matches k r) as [|b ms]; cbn [lookup map hd_error]; now rewrite E.
  - rewrite lookup_other_key; [reflexivity|].
    destruct (matches k r) as [|b ms]; [now repeat constructor|].
    apply Forall_forall. intros x Hx. apply in_map_iff in Hx.
    destruct Hx as (b' & <- & _). exact E.
Qed.

Lemma lookup_unmatched : forall A B (na : A) (l : keyed A) (r : keyed B) d,
  has_key d l = false ->
  lookup d (map (fun y => (fst y, (na, snd y)))
                (filter (fun y => negb (has_key (fst y) l)) r))
  = match lookup d r with Some b => Some (na, b) | None => None end.
Proof.
  intros A B na l r d Hd. induction r as [|[k b] t IH]; [reflexivity|].
  cbn [filter fst snd lookup].
  destruct (date_eqb k d) eqn:E.
  - rewrite (has_key_congr _ l k d E), Hd. cbn [negb map lookup fst snd]. now rewrite E.
  - destruct (negb (has_key k l)); cbn [map lookup fst snd]; rewrite ?E; exact IH.
Qed.

(** The row of an outer join for a date. *)
Lemma lookup_outer_merge : forall A B (na : A) (nb : B) (l : keyed A) (r : keyed B) d,
  lookup d (outer_merge na nb l r)
  = match lookup d l with
    | Some a => Some (a, match lookup d r with Some b => b | None => nb end)
    | None => match lookup d r with Some b => Some (na, b) | None => None end
    end.
Proof.
  intros A B na nb l r d. unfold outer_merge.
  rewrite lookup_app, lookup_left_merge.
  pose proof (has_key_lookup _ l d) as Hk.
  destruct (lookup d l) as [a|]; [reflexivity|].
  now apply lookup_unmatched.
Qed.

Lemma has_key_outer_merge : forall A B (na : A) (nb : B) (l : keyed A) (r : keyed B) d,
  has_key d (outer_merge na nb l r) = has_key d l || has_key d r.
Proof.
  intros A B na nb l r d. rewrite !has_key_lookup, lookup_outer_merge.
  destruct (lookup d l), (lookup d r); reflexivity.
Qed.

Lemma has_key_exists : forall A (r : keyed A) d,
  has_key d r = true <-> exists x, In x r /\ date_eqb (fst x) d = true.
Proof.
  intros A r d. unfold has_key. rewrite existsb_exists. tauto.
Qed.

Lemma has_key_left_merge : forall A B (nb : B) (l : keyed A) (r : keyed B) d,
  has_key d (left_merge nb l r) = has_key d l.
Proof.
  intros A B nb l r d. rewrite !has_key_lookup, lookup_left_merge.
  now destruct (lookup d l).
Qed.

Lemma has_key_keys : forall A B (r : keyed A) (r' : keyed B) d,
  map fst r = map fst r' -> has_key d r = has_key d r'.
Proof.
  intros A B r r' d H. unfold has_key.
  assert (E : forall C (t : keyed C),
             existsb (fun x => date_eqb (fst x) d) t
             = existsb (fun k => date_eqb k d) (map fst t)).
  { intros C t. induction t as [|x t IH]; [reflexivity|]. cbn. now rewrite IH. }
  now rewrite !E, H.
Qed.

Lemma in_matches_iff : forall A d (r : keyed A) a,
  In a (matches d r) <-> exists d', In (d', a) r /\ date_eqb d' d = true.
Proof.
  intros A d r a. unfold matches. rewrite in_map_iff. split.
  - intros ([d' a'] & <- & H). apply filter_In in H. cbn in *. eauto.
  - intros (d' & Hin & He). exists (d', a). split; [reflexivity|].
    apply filter_In. auto.
Qed.

Lemma in_left_merge : forall A B (nb : B) (l : keyed A) (r : keyed B) k a b,
  In (k, a) l -> In b (matches k r) -> In (k, (a, b)) (left_merge nb l r).
Proof.
  intros A B nb l r k a b Hl Hb. unfold left_merge. apply in_flat_map.
  exists (k, a). split; [assumption|]. cbn [fst snd].
  destruct (matches k r) as [|b0 ms]; [contradiction|].
  apply in_map_iff. now exists b.
Qed.

Lemma in_inner_merge_iff : forall A B (l : keyed A) (r : keyed B) d a b,
  In (d, (a, b)) (inner_merge l r) <->
  In (d, a) l /\ exists d', In (d', b) r /\ date_eqb d' d = true.
Proof.
  intros A B l r d a b. unfold inner_merge. rewrite in_flat_map. split.
  - intros ([d0 a0] & Hx & Hin). apply in_map_iff in Hin.
    destruct Hin as (b0 & He & Hb). cbn in He. injection He as -> -> ->.
    split; [assumption|]. now apply in_matches_iff.
  - intros [Hl Hr]. exists (d, a). split; [assumption|].
    apply in_map_iff. exists b. split; [reflexivity|]. now apply in_matches_iff.
Qed.

Lemma has_key_inner_merge : forall A B (l : keyed A) (r : keyed B) d,
  has_key d l = true -> has_key d r = true -> has_key d (inner_merge l r) = true.
Proof.
  intros A B l r d Hl Hr.
  apply has_key_exists in Hl. destruct Hl as ([k a] & Hl & El).
  apply has_key_exists in Hr. destruct Hr as ([k' b] & Hr & Er).
  cbn [fst] in *. apply has_key_exists.
  exists (k, (a, b)). split; [|exact El].
  apply in_inner_merge_iff. split; [assumption|].
  exists k'. split; [assumption|].
  apply date_eqb_trans with (b := d); [assumption|].
  now rewrite date_eqb_sym.
Qed.

(** ** Counting the rows of a date *)

Lemma matches_app : forall A (x y : keyed A) d,
  matches d (x ++ y) = (matches d x ++ matches d y)%list.
Proof.
  intros A x y d. unfold matches. now rewrite filter_app, map_app.
Qed.

Lemma matches_same_key : forall A (r : keyed A) d,
  Forall (fun x => date_eqb (fst x) d = true) r -> matches d r = map snd r.
Proof.
  unfold matches. induction 1 as [|x t Hx Ht IH]; [reflexivity|].
  cbn. rewrite Hx. cbn. now rewrite IH.
Qed.

Lemma matches_other_key : forall A (r : keyed A) d,
  Forall (fun x => date_eqb (fst x) d = false) r -> matches d r = [].
Proof.
  unfold matches. induction 1 as [|x t Hx Ht IH]; [reflexivity|].
  cbn. now rewrite Hx.
Qed.

Lemma unique_matches : forall A (r : keyed A),
  is_unique (map fst r) = true <-> forall d, (List.length (matches d r) <= 1)%nat.
Proof.
  intros A r. split.
  - intros Hu d. destruct (matches_unique _ d r Hu) as [-> | (a & ->)]; cbn; lia.
  - induction r as [|[k v] t IH]; intro H; [reflexivity|].
    cbn [map fst is_unique]. apply andb_true_iff. split.
    + apply negb_true_iff.
      destruct (existsb (date_eqb k) (map fst t)) eqn:E; [|reflexivity].
      exfalso. apply existsb_date_eqb_In in E. apply has_key_In in E.
      apply matches_has_key in E. specialize (H k).
      unfold matches in H, E. cbn [filter fst] in H.
      rewrite date_eqb_refl in H. cbn [map List.length] in H.
      destruct (map snd (filter (fun x => date_eqb (fst x) k) t));
        [congruence | cbn in H; lia].
    + apply IH. intro d. specialize (H d).
      unfold matches in *. cbn [filter fst] in H.
      destruct (date_eqb k d); cbn [map List.length] in H; lia.
Qed.

Lemma matches_cons : forall A (t : keyed A) k a d,
  matches d ((k, a) :: t)
  = if date_eqb k d then a :: matches d t else matches d t.
Proof.
  intros A t k a d. unfold matches. cbn [filter fst].
  now destruct (date_eqb k d).
Qed.

(** The rows a left row contributes to a left join. *)
Lemma joined_rows : forall A B (nb : B) (r : keyed B) k (a : A) d,
  let rows := match matches k r with
              | [] => [(k, (a, nb))]
              | ms => map (fun b => (k, (a, b))) ms
              end in
  date_eqb k d = true ->
  (1 <= List.length (matches d rows))%nat /\
  (List.length (matches d r) <= List.length (matches d rows))%nat.
Proof.
  intros A B nb r k a d rows E.
  assert (Hs : matches d rows = map snd rows).
  { apply matches_same_key. subst rows.
    destruct (matches k r) as [|b ms]; [now repeat constructor|].
    apply Forall_forall. intros x Hx. apply in_map_iff in Hx.
    destruct Hx as (b' & <- & _). exact E. }
  rewrite Hs, length_map, <- (matches_congr _ r k d E). subst rows.
  destruct (matches k r) as [|b ms]; [cbn; lia|].
  rewrite length_map. cbn [List.length]. lia.
Qed.

Lemma left_merge_rows_l : forall A B (nb : B) (l : keyed A) (r : keyed B) d,
  (List.length (matches d l) <= List.length (matches d (left_merge nb l r)))%nat.
Proof.
  intros A B nb l r d. unfold left_merge.
  induction l as [|[k a] t IH]; [cbn; lia|].
  cbn [flat_map fst snd]. rewrite matches_app, length_app, matches_cons.
  pose proof (joined_rows A B nb r k a d) as Hj. cbv zeta in Hj.
  destruct (date_eqb k d); [specialize (Hj eq_refl); cbn [List.length] | ]; lia.
Qed.

Lemma left_merge_rows_r : forall A B (nb : B) (l : keyed A) (r : keyed B) d,
  has_key d l = true ->
  (List.length (matches d r) <= List.length (matches d (left_merge nb l r)))%nat.
Proof.
  intros A B nb l r d. unfold left_merge.
  induction l as [|[k a] t IH]; [discriminate|].
  intro Hk. cbn [flat_map fst snd]. rewrite matches_app, length_app.
  unfold has_key in Hk. cbn [existsb fst] in Hk.
  pose proof (joined_rows A B nb r k a d) as Hj. cbv zeta in Hj.
  destruct (date_eqb k d); [specialize (Hj eq_refl) | specialize (IH Hk)]; lia.
Qed.

Lemma unmatched_rows : forall A B (na : A) (l : keyed A) (r : keyed B) d,
  has_key d l = false ->
  List.length (matches d (map (fun y => (fst y, (na, snd y)))
                              (filter (fun y => negb (has_key (fst y) l)) r)))
  = List.length (matches d r).
Proof.
  intros A B na l r d Hd. unfold matches.
  induction r as [|[k b] t IH]; [reflexivity|].
  cbn [filter fst snd].
  destruct (date_eqb k d) eqn:E.
  - rewrite (has_key_congr _ l k d E), Hd. cbn [negb map filter fst].
    rewrite E. cbn [map List.length]. now rewrite IH.
  - destruct (negb (has_key k l)); cbn [map filter fst]; rewrite ?E; exact IH.
Qed.

Lemma outer_merge_rows : forall A B (na : A) (nb : B) (l : keyed A) (r : keyed B) d,
  (List.length (matches d l) <= List.length (matches d (outer_merge na nb l r)))%nat /\
  (List.length (matches d r) <= List.length (matches d (outer_merge na nb l r)))%nat.
Proof.
  intros A B na nb l r d. unfold outer_merge. rewrite matches_app, length_app.
  pose proof (left_merge_rows_l _ _ nb l r d) as Hl. split; [lia|].
  destruct (has_key d l) eqn:Hk.
  - pose proof (left_merge_rows_r _ _ nb l r d Hk). lia.
  - rewrite (unmatched_rows _ _ na l r d Hk). lia.
Qed.

(** An outer join has one row per date only if both of its sides have. *)
Lemma outer_merge_unique_inv : forall A B (na : A) (nb : B) (l : keyed A) (r : keyed B),
  is_unique (map fst (outer_merge na nb l r)) = true ->
  is_unique (map fst l) = true /\ is_unique (map fst r) = true.
Proof.
  intros A B na nb l r H. rewrite unique_matches in H.
  split; apply unique_matches; intro d;
    pose proof (outer_merge_rows _ _ na nb l r d) as [Hl Hr];
    specialize (H d); lia.
Qed.

End JoinFacts.

(* ================================================================== *)
(** * Further properties of the Variable Extractor                      *)
(* ================================================================== *)

Module ExtractorEdgeFacts.
Import Calendar CalendarFacts Frame Extractor Statements ExtractorFacts JoinFacts.

(** ** Reconciling the time axis with the data *)

Lemma fit_length_length : forall t n t',
  fit_length t n = Some t' -> List.length t' = n.
Proof.
  intros t n t'. unfold fit_length.
  destruct (Nat.eqb_spec (List.length t) n) as [He | Hne].
  - intro H. injection H as <-. exact He.
  - destruct (Nat.ltb_spec n (List.length t)) as [Hlt | Hge].
    + intro H. injection H as <-. apply firstn_length_le. lia.
    + destruct (rev t) as [|last_date r]; [discriminate|].
      intro H. injection H as <-.
      rewrite length_app, date_range_periods_length. lia.
Qed.

(** ** What one file contributes *)

Lemma file_frame_some : forall f i j s m,
  file_frame f i j = (Some s, m) ->
  nc_cell f i j = Some (map snd s) /\ s <> [] /\ m = [] /\
  fit_length (time_values f (List.length s)) (List.length s) = Some (map fst s).
Proof.
  intros f i j s m. unfold file_frame.
  destruct (nc_cell f i j) as [values|]; [|discriminate].
  destruct (fit_length _ _) as [t|] eqn:Hfit; [|discriminate].
  destruct (Nat.ltb_spec 0 (List.length values)) as [Hpos | Hz]; [|discriminate].
  intro H. injection H as <- <-.
  pose proof (fit_length_length _ _ _ Hfit) as Hlen.
  rewrite firstn_all2 by lia.
  rewrite map_snd_combine, map_fst_combine by assumption.
  rewrite length_combine, Hlen, Nat.min_id.
  repeat split; try assumption.
  destruct values, t; cbn in *; try lia; discriminate.
Qed.

(** X2. The values read from a file are kept, all of them and in their
    order, each with a date. *)
Theorem file_values_kept :
  forall f i j s m,
    file_frame f i j = (Some s, m) ->
    nc_cell f i j = Some (map snd s) /\ s <> [] /\ m = [].
Proof.
  intros f i j s m H. apply file_frame_some in H. tauto.
Qed.

Lemma file_values_kept_witness :
  let f := mkNcFile "tasmax_2036.nc" true (Some [(-32)%Q]) (Some [117%Q])
             (fun _ _ => Some [Some 1%Q; None; Some 3%Q]) None in
  let s := [(mkdate 2036 1 1, Some 1%Q); (mkdate 2036 1 2, None);
            (mkdate 2036 1 3, Some 3%Q)] in
  nc_cell f 0 0 = Some (map snd s) /\ s <> [] /\ @nil message = [].
Proof.
  intros f s. apply (file_values_kept f 0%nat 0%nat s []). reflexivity.
Defined.

(** X3. The step that trims or extends the dates to the number of values
    never changes anything for a file whose time axis has one date per
    value, nor for a file dated from its name: the frame of the file pairs
    the dates of the time axis, as they are, with the values. *)
Theorem time_axis_used_as_is :
  forall f i j values,
    nc_cell f i j = Some values -> values <> [] ->
    (forall t, nc_time f = Some t -> List.length t = List.length values) ->
    file_frame f i j
    = (Some (combine (time_values f (List.length values)) values), []).
Proof.
  intros f i j values Hcell Hne Hlen. unfold file_frame. rewrite Hcell.
  assert (Ht : List.length (time_values f (List.length values))
               = List.length values).
  { unfold time_values. destruct (nc_time f) as [t|]; [now apply Hlen|].
    unfold dates_from_filename.
    destruct (filename_year (nc_name f)); apply date_range_periods_length. }
  rewrite (fit_length_exact _ _ Ht).
  destruct values as [|v vs]; [congruence|].
  replace (0 <? List.length (v :: vs))%nat with true by reflexivity.
  rewrite firstn_all2 by lia. reflexivity.
Qed.

Lemma time_axis_used_as_is_witness :
  let t := [mkdate 2036 12 30; mkdate 2036 12 31] in
  let values := [Some 1%Q; Some 2%Q] in
  let f := mkNcFile "tas.nc" true (Some [(-32)%Q]) (Some [117%Q])
             (fun _ _ => Some values) (Some t) in
  file_frame f 0 0 = (Some (combine t values), []).
Proof.
  intros t values f.
  apply (time_axis_used_as_is f 0%nat 0%nat values).
  - reflexivity.
  - discriminate.
  - intros t' H. injection H as <-. reflexivity.
Defined.

Lemma all_frames_app : forall a b i j,
  all_frames (a ++ b) i j
  = ((fst (all_frames a i j) ++ fst (all_frames b i j))%list,
     (snd (all_frames a i j) ++ snd (all_frames b i j))%list).
Proof.
  induction a as [|f a IH]; intros b i j.
  - cbn. now destruct (all_frames b i j).
  - cbn [all_frames app]. rewrite IH.
    destruct (file_frame f i j) as [fr m1].
    destruct (all_frames a i j) as [frs m2]. cbn [fst snd].
    rewrite app_assoc. now destruct fr.
Qed.

Lemma all_frames_not_empty : forall files i j,
  Forall (fun s => s <> []) (fst (all_frames files i j)).
Proof.
  induction files as [|f files IH]; intros i j; [constructor|].
  cbn [all_frames].
  destruct (file_frame f i j) as [[s|] m1] eqn:Hf;
    specialize (IH i j); destruct (all_frames files i j) as [frs m2];
    cbn [fst] in *; [|assumption].
  constructor; [|assumption]. apply file_frame_some in Hf. tauto.
Qed.

Lemma extract_some : forall sort_values files lat lon tol s,
  fst (extract_daily_data_from_netcdf sort_values files lat lon tol) = Some s ->
  exists sample rest p all_data,
    files = sample :: rest /\
    fst (locate_in_sample sample lat lon tol) = Some p /\
    nc_var sample = true /\
    fst (all_frames files (lat_idx p) (lon_idx p)) = all_data /\
    all_data <> [] /\
    s = combine_frames sort_values all_data.
Proof.
  intros sort_values files lat lon tol s H.
  unfold extract_daily_data_from_netcdf in H.
  destruct files as [|sample rest]; [discriminate|].
  destruct (locate_in_sample sample lat lon tol) as [loc m0] eqn:Hloc.
  destruct (nc_var sample) eqn:Hvar; [|discriminate].
  destruct loc as [p|]; [|discriminate].
  destruct (all_frames (sample :: rest) (lat_idx p) (lon_idx p)) as [all_data m1] eqn:E.
  destruct all_data as [|a l]; [discriminate|].
  cbv zeta in H. cbn [fst] in H. injection H as Hs. subst s.
  exists sample, rest, p, (a :: l).
  rewrite Hloc, E. repeat split; try reflexivity; try assumption. discriminate.
Qed.

Lemma drop_duplicates_not_empty : forall s, s <> [] -> drop_duplicates s <> [].
Proof.
  intros [|[d v] t] H; [congruence|]. cbn. discriminate.
Qed.

Lemma combine_frames_not_empty : forall sort_values all_data,
  (forall s, Permutation (sort_values s) s) ->
  all_data <> [] -> Forall (fun s => s <> []) all_data ->
  combine_frames sort_values all_data <> [].
Proof.
  intros sort_values all_data Hperm Hne Hf.
  unfold combine_frames. apply drop_duplicates_not_empty.
  intro Hs. specialize (Hperm (List.concat all_data)). rewrite Hs in Hperm.
  apply Permutation_nil in Hperm.
  destruct all_data as [|a l]; [congruence|].
  inversion Hf as [|? ? Ha _]; subst.
  destruct a; [congruence | discriminate].
Qed.

(** X4. A frame returned by the extractor has at least one row, so the
    caller's test [len(df) > 0] never rejects a returned frame. *)
Theorem extracted_series_not_empty :
  forall sort_values,
    (forall s, Permutation (sort_values s) s) ->
    forall files lat lon tol s,
      fst (extract_daily_data_from_netcdf sort_values files lat lon tol) = Some s ->
      s <> [].
Proof.
  intros sort_values Hperm files lat lon tol s H.
  apply extract_some in H.
  destruct H as (sample & rest & p & all_data & _ & _ & _ & Hall & Hne & ->).
  apply combine_frames_not_empty; try assumption.
  rewrite <- Hall. apply all_frames_not_empty.
Qed.

Lemma extracted_series_not_empty_witness :
  let f := mkNcFile "pr_2036.nc" true (Some [(-32)%Q]) (Some [117%Q])
             (fun _ _ => Some [Some 1%Q; Some 2%Q]) None in
  let s := [(mkdate 2036 1 1, Some 1%Q); (mkdate 2036 1 2, Some 2%Q)] in
  fst (extract_daily_data_from_netcdf insertion_sort [f] (-32)%Q 117%Q 0.01%Q)
  = Some s /\ s <> [].
Proof.
  intros f s. split; [vm_compute; reflexivity|].
  apply (extracted_series_not_empty insertion_sort insertion_sort_perm
           [f] (-32)%Q 117%Q 0.01%Q).
  vm_compute. reflexivity.
Defined.

(** X5. A file whose data cannot be read is skipped; the frame returned is
    the one obtained without that file. *)
Theorem unreadable_file_skipped :
  forall sort_values sample before bad after lat lon tol,
    (forall i j, nc_cell bad i j = None) ->
    fst (extract_daily_data_from_netcdf sort_values
           (sample :: before ++ bad :: after) lat lon tol)
    = fst (extract_daily_data_from_netcdf sort_values
             (sample :: before ++ after) lat lon tol).
Proof.
  intros sort_values sample before bad after lat lon tol Hbad.
  unfold extract_daily_data_from_netcdf.
  destruct (locate_in_sample sample lat lon tol) as [loc m0].
  destruct (nc_var sample); [|reflexivity].
  destruct loc as [p|]; [|reflexivity].
  assert (E : fst (all_frames (sample :: before ++ bad :: after) (lat_idx p) (lon_idx p))
              = fst (all_frames (sample :: before ++ after) (lat_idx p) (lon_idx p))).
  { change (sample :: before ++ bad :: after)
      with ((sample :: before) ++ [bad] ++ after)%list.
    change (sample :: before ++ after) with ((sample :: before) ++ after)%list.
    rewrite !all_frames_app. cbn [fst]. f_equal.
    cbn [all_frames]. unfold file_frame. rewrite Hbad. cbn [fst app].
    reflexivity. }
  destruct (all_frames (sample :: before ++ bad :: after) _ _) as [d1 m1].
  destruct (all_frames (sample :: before ++ after) _ _) as [d2 m2].
  cbn [fst] in E. subst d2. now destruct d1.
Qed.

Lemma unreadable_file_skipped_witness :
  let good := mkNcFile "pr_2036.nc" true (Some [(-32)%Q]) (Some [117%Q])
                (fun _ _ => Some [Some 1%Q]) None in
  let bad := mkNcFile "pr_2037.nc" true None None (fun _ _ => None) None in
  fst (extract_daily_data_from_netcdf insertion_sort [good; bad] (-32)%Q 117%Q 0.01%Q)
  = fst (extract_daily_data_from_netcdf insertion_sort [good] (-32)%Q 117%Q 0.01%Q).
Proof.
  intros good bad.
  apply (unreadable_file_skipped insertion_sort good [] bad [] (-32)%Q 117%Q 0.01%Q).
  reflexivity.
Defined.

(** ** Combining a second time *)

(** X6. The combined frame is a fixed point of the combining step: sorting
    it and dropping duplicate dates again returns it unchanged. *)
Theorem combined_frame_is_fixed_point :
  forall sort_values,
    (forall s, Permutation (sort_values s) s) ->
    (forall s, StronglySorted by_date (sort_values s)) ->
    forall all_data,
      combine_frames sort_values [combine_frames sort_values all_data]
      = combine_frames sort_values all_data.
Proof.
  intros sort_values Hperm Hsorted all_data.
  set (s := combine_frames sort_values all_data).
  assert (Hs : StronglySorted strictly_by_date s).
  { unfold s, combine_frames, drop_duplicates.
    apply drop_duplicates_from_sorted, Hsorted. }
  unfold combine_frames at 1. cbn [List.concat]. rewrite app_nil_r.
  rewrite (sorted_permutation_unique (sort_values s) s); auto.
  unfold drop_duplicates. apply drop_duplicates_from_id; [assumption|].
  apply Forall_forall. reflexivity.
Qed.

Lemma combined_frame_is_fixed_point_witness :
  let a := [(mkdate 2036 1 2, Some 2%Q); (mkdate 2036 1 1, Some 1%Q)] in
  let b := [(mkdate 2036 1 2, Some 5%Q)] in
  combine_frames insertion_sort [combine_frames insertion_sort [a; b]]
  = combine_frames insertion_sort [a; b].
Proof.
  intros a b.
  apply (combined_frame_is_fixed_point insertion_sort insertion_sort_perm
           insertion_sort_sorted [a; b]).
Defined.

(** ** Dates from the file name *)

(** X7. The dates made up for a file without a time axis always begin on
    January 1 of a year between 2000 and 2100; when the file name carries
    no four-digit group in that range the year is 2035. *)
Theorem filename_dates_start_year :
  forall name n,
    exists y,
      2000 <= y <= 2100 /\
      dates_from_filename name n = date_range_periods (jan1 y) n /\
      (filename_year name = None -> y = 2035) /\
      (forall y', filename_year name = Some y' -> y = y').
Proof.
  intros name n. unfold dates_from_filename.
  destruct (filename_year name) as [y|] eqn:E.
  - exists y. split; [now apply filename_year_range with (name := name)|].
    split; [reflexivity|]. split; [discriminate|]. intros y' H. now injection H.
  - exists 2035. split; [lia|]. split; [reflexivity|]. split; [reflexivity|].
    discriminate.
Qed.

End ExtractorEdgeFacts.

(* ================================================================== *)
(** * Further properties of the Derived Variable Calculator             *)
(* ================================================================== *)

Module DerivedEdgeFacts.
Import Calendar CalendarFacts Frame FrameFacts Derived Met Statements DerivedFacts.

(** ** Annual amplitude without a January or a July *)

Lemma monthly_mean_temperatures_none : forall m t,
  (forall r, In r t -> month (fst r) <> m) ->
  monthly_mean_temperatures m t = [].
Proof.
  intros m t H. unfold monthly_mean_temperatures, years_with_month.
  replace (filter (fun x => month (fst x) =? m) t) with (@nil (date * value));
    [reflexivity|].
  symmetry. induction t as [|x t IH]; [reflexivity|].
  cbn [filter].
  destruct (Z.eqb_spec (month (fst x)) m) as [He | Hne].
  - exfalso. apply (H x); [now left | assumption].
  - apply IH. intros r Hr. apply H. now right.
Qed.

Lemma in_daily_means : forall df r,
  In r (daily_means df) -> exists r', In r' df /\ fst r' = fst r.
Proof.
  intros df r H. unfold daily_means in H. apply in_map_iff in H.
  destruct H as (r' & <- & Hr'). eauto.
Qed.

(** X8. The amplitude is NaN whenever the table holds no day of January, or
    no day of July. *)
Theorem amplitude_needs_january_and_july :
  forall df,
    (forall r, In r df -> month (fst r) <> 1) \/
    (forall r, In r df -> month (fst r) <> 7) ->
    snd (calculate_tav_amp df) = None.
Proof.
  intros df H. rewrite calculate_tav_amp_formula. unfold amp_formula.
  destruct H as [H | H].
  - rewrite (monthly_mean_temperatures_none 1); [reflexivity|].
    intros r Hr. apply in_daily_means in Hr. destruct Hr as (r' & Hr' & <-). auto.
  - rewrite (monthly_mean_temperatures_none 7).
    + cbn [mean dropna flat_map]. unfold vsub, vlift2.
      now destruct (mean (monthly_mean_temperatures 1 (daily_means df))).
    + intros r Hr. apply in_daily_means in Hr. destruct Hr as (r' & Hr' & <-). auto.
Qed.

Lemma amplitude_needs_january_and_july_witness :
  let df := [(mkdate 2036 8 1, (Some 30%Q, Some 20%Q));
             (mkdate 2037 1 1, (Some 31%Q, Some 21%Q))] in
  snd (calculate_tav_amp df) = None.
Proof.
  intro df. apply (amplitude_needs_january_and_july df).
  right. intros r [<- | [<- | []]]; cbn; lia.
Defined.

(** ** The annual average lies between the extremes *)





(** ** Vapor pressure between zero and saturation *)

Section WithExp.

Variable np_exp : Q -> Q.

(** X10. With a relative humidity between 0 and 100 percent, a reported
    vapor pressure is never negative and never above the saturation vapor
    pressure (in hPa) at the day's mean temperature. *)
Theorem vapor_pressure_within_saturation :
  (forall x, (0 < np_exp x)%Q) ->
  forall hurs tasmax tasmin d v,
    Forall (fun r => match snd r with
                     | Some rh => (0 <= rh <= 100)%Q
                     | None => True
                     end) hurs ->
    In (d, Some v) (calculate_vapor_pressure np_exp hurs tasmax tasmin) ->
    exists maxt mint,
      (exists d1, In (d1, Some maxt) tasmax /\ date_eqb d1 d = true) /\
      (exists d2, In (d2, Some mint) tasmin /\ date_eqb d2 d = true) /\
      (0 <= v <= vp_formula np_exp 100 maxt mint)%Q.
Proof.
  intros Hexp hurs tasmax tasmin d v Hrh Hin.
  unfold calculate_vapor_pressure in Hin. apply in_map_iff in Hin.
  destruct Hin as ([d0 [h tm]] & He & Hin). cbn [fst snd] in He.
  injection He as -> Hv.
  apply in_inner_merge in Hin. destruct Hin as [Hh (d1 & Ht & E1)].
  apply in_map_iff in Ht. destruct Ht as ([d2 [a b]] & He & Ht).
  cbn [fst snd] in He. injection He as -> <-.
  apply in_inner_merge in Ht. destruct Ht as [Ha (d3 & Hb & E3)].
  rewrite Forall_forall in Hrh. specialize (Hrh _ Hh). cbn [snd] in Hrh.
  destruct h as [r|], a as [p|], b as [q|]; try discriminate.
  cbn in Hv. injection Hv as <-.
  exists p, q. split; [eauto|]. split.
  { exists d3. split; [assumption|]. unfold date_eqb in *.
    apply Z.eqb_eq in E1, E3. apply Z.eqb_eq. congruence. }
  unfold vp_formula.
  set (e := np_exp (17.27 * ((p + q) / 2) / ((p + q) / 2 + 237.3))).
  assert (He : (0 < e)%Q) by apply Hexp.
  assert (H0 : (0 <= r * e)%Q) by (apply Qmult_le_0_compat; lra).
  assert (H1 : (0 <= (100 - r) * e)%Q) by (apply Qmult_le_0_compat; lra).
  split.
  - setoid_replace (10 * (r / 100 * (0.611 * e)))%Q with (0.0611 * (r * e))%Q
      by field. lra.
  - setoid_replace (10 * (r / 100 * (0.611 * e)))%Q with (0.0611 * (r * e))%Q
      by field.
    setoid_replace (10 * (100 / 100) * 0.611 * e)%Q
      with (0.0611 * (r * e) + 0.0611 * ((100 - r) * e))%Q by field.
    lra.
Qed.

End WithExp.

Lemma vapor_pressure_within_saturation_witness :
  let d := mkdate 2036 2 29 in
  let np_exp := fun x : Q => 1%Q in
  exists v,
    In (d, Some v)
       (calculate_vapor_pressure np_exp [(d, Some 50%Q)] [(d, Some 30%Q)]
          [(d, Some 20%Q)]) /\
    exists maxt mint,
      (exists d1, In (d1, Some maxt) [(d, Some 30%Q)] /\ date_eqb d1 d = true) /\
      (exists d2, In (d2, Some mint) [(d, Some 20%Q)] /\ date_eqb d2 d = true) /\
      (0 <= v <= vp_formula np_exp 100 maxt mint)%Q.
Proof.
  intros d np_exp.
  assert (Hin : exists v,
             In (d, Some v)
                (calculate_vapor_pressure np_exp [(d, Some 50%Q)] [(d, Some 30%Q)]
                   [(d, Some 20%Q)])).
  { eexists. vm_compute. left. reflexivity. }
  destruct Hin as [v Hin]. exists v. split; [exact Hin|].
  apply (vapor_pressure_within_saturation np_exp (fun _ => eq_refl)
           [(d, Some 50%Q)] [(d, Some 30%Q)] [(d, Some 20%Q)] d v);
    [|exact Hin].
  repeat constructor; cbn; lra.
Defined.

End DerivedEdgeFacts.

(* ================================================================== *)
(** * Further properties of the Series Assembler and the MET Writer     *)
(* ================================================================== *)

Module AssemblerEdgeFacts.
Import Calendar CalendarFacts Frame FrameFacts Derived Text Met Statements.
Import ExtractorFacts AssemblerFacts WriterFacts Gaps FillFacts JoinFacts.

(** ** Columns of a frame *)

Lemma set_col_same : forall name c df,
  get_col name df = Some c -> set_col name c df = df.
Proof.
  intros name c df. induction df as [|[n c0] rest IH]; [discriminate|].
  cbn. destruct (String.eqb n name).
  - intro H. injection H as ->. reflexivity.
  - intro H. now rewrite IH.
Qed.

Lemma get_col_set_col : forall name c df,
  get_col name (set_col name c df) = Some c.
Proof.
  intros name c df. induction df as [|[n c0] rest IH].
  - cbn. now rewrite String.eqb_refl.
  - cbn. destruct (String.eqb n name) eqn:E; cbn; now rewrite E.
Qed.

Lemma get_col_set_col_other : forall name other c df,
  String.eqb name other = false ->
  get_col other (set_col name c df) = get_col other df.
Proof.
  intros name other c df Hne. induction df as [|[n c0] rest IH].
  - cbn. now rewrite Hne.
  - cbn. destruct (String.eqb n name) eqn:E; cbn.
    + apply String.eqb_eq in E. subst n. now rewrite Hne.
    + now rewrite IH.
Qed.

Lemma to_datetime_same : forall df c,
  to_datetime "date" df = Some c -> set_col "date" c df = df.
Proof.
  intros df c H. apply set_col_same. unfold to_datetime in H.
  destruct (get_col "date" df) as [[l|l]|]; try discriminate.
  now injection H as <-.
Qed.

(** ** The steps of [create_met_file] *)

Lemma lift_run : forall A (o : option A) s a s',
  lift o s = (Some a, s') -> o = Some a /\ s' = s.
Proof.
  intros A [x|] s a s' H; cbn in H; [|discriminate].
  injection H as -> ->. auto.
Qed.

Lemma bind_run : forall A B (m : M A) (k : A -> M B) s b s',
  bind m k s = (Some b, s') ->
  exists a s0, m s = (Some a, s0) /\ k a s0 = (Some b, s').
Proof.
  intros A B m k s b s' H. unfold bind in H.
  destruct (m s) as [[a|] s0]; [eauto | discriminate].
Qed.

(** The radiation series read by [create_met_file]: the dates of the
    radiation frame with its values multiplied by 0.0864. *)
Lemma create_met_file_run : forall np_exp s out s',
  create_met_file np_exp s = (Some out, s') ->
  exists maxt mint rain df dates v hurs,
    rows_of "value" (tasmax_df s) = Some maxt /\
    rows_of "value" (tasmin_df s) = Some mint /\
    rows_of "value" (pr_df s) = Some rain /\
    rsds_df s = Some df /\ df_len df <> 0%nat /\
    date_col "date" df = Some dates /\ num_col "value" df = Some v /\
    hurs = match hurs_df s with
           | Some h => if (df_len h =? 0)%nat then None else rows_of "value" h
           | None => None
           end /\
    assemble np_exp maxt mint rain
      (combine dates (map (fun x => vmul x (Some 0.0864%Q)) v)) hurs = Some out /\
    s' = mkInputs (tasmax_df s) (tasmin_df s) (pr_df s)
           (Some (set_col "value_mj"
                    (ColNum (map (fun x => vmul x (Some 0.0864%Q)) v)) df))
           (hurs_df s).
Proof.
  intros np_exp s out s' H. unfold create_met_file in H.
  apply bind_run in H. destruct H as (s0 & st & E & H).
  injection E as <- <-.
  apply bind_run in H. destruct H as (maxt & st & E & H).
  apply lift_run in E. destruct E as [Hmaxt ->].
  apply bind_run in H. destruct H as (c1 & st & E & H).
  apply lift_run in E. destruct E as [Hc1 ->].
  apply to_datetime_same in Hc1. rewrite Hc1 in H.
  apply bind_run in H. destruct H as (u & st & E & H).
  injection E as _ <-.
  apply bind_run in H. destruct H as (s1 & st & E & H).
  injection E as <- <-. cbn [tasmin_df pr_df rsds_df hurs_df tasmax_df] in H.
  apply bind_run in H. destruct H as (mint & st & E & H).
  apply lift_run in E. destruct E as [Hmint ->].
  apply bind_run in H. destruct H as (c2 & st & E & H).
  apply lift_run in E. destruct E as [Hc2 ->].
  apply to_datetime_same in Hc2. rewrite Hc2 in H.
  apply bind_run in H. destruct H as (u2 & st & E & H).
  injection E as _ <-. cbn [tasmin_df pr_df rsds_df hurs_df tasmax_df] in H.
  apply bind_run in H. destruct H as (s2 & st & E & H).
  injection E as <- <-. cbn [tasmin_df pr_df rsds_df hurs_df tasmax_df] in H.
  apply bind_run in H. destruct H as (rain & st & E & H).
  apply lift_run in E. destruct E as [Hrain ->].
  apply bind_run in H. destruct H as (df & st & E & H).
  apply lift_run in E. destruct E as [Hdf ->].
  apply bind_run in H. destruct H as (c3 & st & E & H).
  apply lift_run in E. destruct E as [Hc3 ->].
  pose proof Hc3 as Hdate. apply to_datetime_same in Hc3. rewrite Hc3 in H.
  apply bind_run in H. destruct H as (u3 & st & E & H).
  injection E as _ <-. cbn [tasmin_df pr_df rsds_df hurs_df tasmax_df] in H.
  apply bind_run in H. destruct H as (v & st & E & H).
  apply lift_run in E. destruct E as [Hv ->].
  apply bind_run in H. destruct H as (u4 & st & E & H).
  injection E as _ <-. cbn [tasmin_df pr_df rsds_df hurs_df tasmax_df] in H.
  apply bind_run in H. destruct H as (radn & st & E & H).
  apply lift_run in E. destruct E as [Hradn ->].
  apply bind_run in H. destruct H as (hurs & st & E & H).
  apply lift_run in H. destruct H as [Hout ->].
  destruct (rsds_df s) as [df0|] eqn:Hrsds; [|discriminate].
  destruct (Nat.eqb_spec (df_len df0) 0) as [Hz | Hnz]; [discriminate|].
  injection Hdf as ->.
  unfold to_datetime in Hdate.
  destruct (get_col "date" df) as [[dates|?]|] eqn:Hgd; try discriminate.
  exists maxt, mint, rain, df, dates, v, hurs.
  assert (Hradn' : radn = combine dates (map (fun x => vmul x (Some 0.0864%Q)) v)).
  { unfold rows_of, date_col, num_col in Hradn.
    rewrite get_col_set_col in Hradn.
    rewrite get_col_set_col_other in Hradn by reflexivity.
    rewrite Hgd in Hradn. now injection Hradn as <-. }
  subst radn.
  assert (Hh : hurs = match hurs_df s with
                      | Some h => if (df_len h =? 0)%nat then None
                                  else rows_of "value" h
                      | None => None
                      end /\ st = mkInputs (tasmax_df s) (tasmin_df s) (pr_df s)
           (Some (set_col "value_mj"
                    (ColNum (map (fun x => vmul x (Some 0.0864%Q)) v)) df))
           (hurs_df s)).
  { destruct (hurs_df s) as [h|].
    - destruct (df_len h =? 0)%nat.
      + injection E as <- <-. auto.
      + apply bind_run in E. destruct E as (h' & st' & E & E').
        apply lift_run in E. destruct E as [-> ->].
        injection E' as <- <-. auto.
    - injection E as <- <-. auto. }
  destruct Hh as [Hh ->].
  unfold date_col. rewrite Hgd.
  repeat split; assumption.
Qed.

(** X11. Frames whose [date] column already holds timestamps (such as the
    frames of the extractor) come back from [create_met_file] as they
    were, except the radiation frame: whether the call returns or raises,
    the maximum-temperature, minimum-temperature, precipitation and
    humidity frames are unchanged. *)
Theorem other_frames_unchanged :
  forall np_exp s,
    let s' := snd (create_met_file np_exp s) in
    tasmax_df s' = tasmax_df s /\ tasmin_df s' = tasmin_df s /\
    pr_df s' = pr_df s /\ hurs_df s' = hurs_df s.
Proof.
  intros np_exp [tx tn pr rs hu]. cbv zeta.
  unfold create_met_file, bind, get, put, set_tasmin, set_pr, set_rsds, bind, get, put.
  cbn [tasmax_df tasmin_df pr_df rsds_df hurs_df].
  destruct (rows_of "value" tx) as [maxt|]; cbn [lift ret raise snd fst]; [|auto].
  destruct (to_datetime "date" tn) as [c1|] eqn:E1; cbn [lift ret raise snd fst]; [|auto].
  rewrite (to_datetime_same _ _ E1).
  cbn [tasmax_df tasmin_df pr_df rsds_df hurs_df].
  destruct (rows_of "value" tn) as [mint|]; cbn [lift ret raise snd fst]; [|auto].
  destruct (to_datetime "date" pr) as [c2|] eqn:E2; cbn [lift ret raise snd fst]; [|auto].
  rewrite (to_datetime_same _ _ E2).
  cbn [tasmax_df tasmin_df pr_df rsds_df hurs_df].
  destruct (rows_of "value" pr) as [rain|]; cbn [lift ret raise snd fst]; [|auto].
  destruct rs as [df|]; cbn [lift ret raise snd fst]; [|auto].
  destruct (df_len df =? 0)%nat; cbn [lift ret raise snd fst]; [auto|].
  destruct (to_datetime "date" df) as [c3|] eqn:E3; cbn [lift ret raise snd fst]; [|auto].
  cbn [tasmax_df tasmin_df pr_df rsds_df hurs_df].
  destruct (num_col "value" (set_col "date" c3 df)) as [v|];
    cbn [lift ret raise snd fst]; [|auto].
  cbn [tasmax_df tasmin_df pr_df rsds_df hurs_df].
  destruct (rows_of "value_mj" _) as [radn|]; cbn [lift ret raise snd fst]; [|auto].
  destruct hu as [h|].
  - destruct (df_len h =? 0)%nat; cbn [lift ret raise snd fst].
    + destruct (assemble _ _ _ _ _ _); cbn; auto.
    + unfold bind. destruct (rows_of "value" h); cbn [lift ret raise snd fst].
      * destruct (assemble _ _ _ _ _ _); cbn; auto.
      * cbn. auto.
  - cbn [lift ret raise snd fst]. destruct (assemble _ _ _ _ _ _); cbn; auto.
Qed.

Lemma other_frames_unchanged_witness :
  let s := [(mkdate 2035 12 31, Some 1%Q)] in
  let inp := inputs_of s s s [] None in
  fst (create_met_file (fun _ => 1%Q) inp) = None /\
  tasmin_df (snd (create_met_file (fun _ => 1%Q) inp)) = tasmin_df inp.
Proof.
  intros s inp. split; [reflexivity|].
  apply (other_frames_unchanged (fun _ => 1%Q) inp).
Defined.

(** X12. [create_met_file] returns only when it is given a radiation frame
    with at least one row; the caller's radiation frame then holds the
    added column [value_mj], 0.0864 times its column [value]. *)
Theorem radiation_frame_required :
  forall np_exp s out,
    fst (create_met_file np_exp s) = Some out ->
    exists df v,
      rsds_df s = Some df /\ df_len df <> 0%nat /\
      num_col "value" df = Some v /\
      rsds_df (snd (create_met_file np_exp s))
      = Some (set_col "value_mj"
                (ColNum (map (fun x => vmul x (Some 0.0864%Q)) v)) df).
Proof.
  intros np_exp s out H.
  destruct (create_met_file np_exp s) as [o s'] eqn:E. cbn [fst snd] in *. subst o.
  apply create_met_file_run in E.
  destruct E as (maxt & mint & rain & df & dates & v & hurs & _ & _ & _ & Hdf
                 & Hlen & _ & Hv & _ & _ & ->).
  exists df, v. cbn [rsds_df]. auto.
Qed.

Lemma radiation_frame_required_witness :
  let s := [(mkdate 2035 12 31, Some 1%Q)] in
  let inp := inputs_of s s s s None in
  exists df v,
    rsds_df inp = Some df /\ df_len df <> 0%nat /\
    num_col "value" df = Some v /\
    rsds_df (snd (create_met_file (fun _ => 1%Q) inp))
    = Some (set_col "value_mj"
              (ColNum (map (fun x => vmul x (Some 0.0864%Q)) v)) df).
Proof.
  intros s inp.
  eapply (radiation_frame_required (fun _ => 1%Q) inp).
  vm_compute. reflexivity.
Defined.

(** ** The parts of an assembled table *)

Lemma assemble_parts : forall np_exp maxt mint rain radn hurs out,
  assemble np_exp maxt mint rain radn hurs = Some out ->
  exists rng merged vp0,
    covering_range
      (map fst (outer_merge ((None, None), None) None
                  (outer_merge (None, None) None
                     (outer_merge None None maxt mint) rain) radn)) = Some rng /\
    reindex nan_row rng
      (outer_merge ((None, None), None) None
         (outer_merge (None, None) None
            (outer_merge None None maxt mint) rain) radn) = Some merged /\
    vp_column np_exp rng maxt mint hurs = Some vp0 /\
    out_data out
    = build_rows rng
        (fill_numeric (map col_radn merged)) (fill_numeric (map col_maxt merged))
        (fill_numeric (map col_mint merged)) (fill_numeric (map col_rain merged))
        (match hurs with
         | Some (_ :: _) => bfill (ffill (map snd (copy_day365 (combine rng vp0))))
         | _ => map snd (copy_day365 (combine rng vp0))
         end) /\
    out_tav out
    = fst (calculate_tav_amp
             (combine rng (combine (fill_numeric (map col_maxt merged))
                                   (fill_numeric (map col_mint merged))))) /\
    out_total_days out = List.length (out_data out) /\
    out_lines out = map format_row (out_data out).
Proof.
  intros np_exp maxt mint rain radn hurs out. unfold assemble. cbv zeta.
  destruct (covering_range _) as [rng|] eqn:Er; [|discriminate].
  destruct (reindex _ _ _) as [m|] eqn:Em; [|discriminate].
  destruct (vp_column _ _ _ _ _) as [vp0|] eqn:Ev; [|discriminate].
  destruct (calculate_tav_amp _) as [tav amp] eqn:Et.
  intro H. injection H as <-.
  exists rng, m, vp0. cbn [out_data out_tav out_total_days out_lines].
  rewrite Et. repeat split; try reflexivity; assumption.
Qed.

Lemma build_rows_cells : forall dates radn maxt mint rain vp r,
  In r (build_rows dates radn maxt mint rain vp) ->
  In (r_radn r) radn /\ In (r_maxt r) maxt /\ In (r_mint r) mint /\
  In (r_rain r) rain /\ In (r_vp r) vp /\ r_evap r = None.
Proof.
  induction dates as [|d ds IH];
    intros [|a radn] [|b maxt] [|c mint] [|e rain] [|v vp] r H;
    cbn [build_rows] in H; try contradiction.
  destruct H as [<- | H].
  - cbn. tauto.
  - apply IH in H. cbn [In]. tauto.
Qed.

(** X13. Every row of the table has a number for radiation, maximum and
    minimum temperature and rain, and no evaporation: the temperature, rain
    and radiation fields of the MET file are never blank, the evaporation
    field always is. *)
Theorem weather_fields_never_blank :
  forall np_exp s out,
    fst (create_met_file np_exp s) = Some out ->
    Forall (fun r => r_radn r <> None /\ r_maxt r <> None /\ r_mint r <> None /\
                     r_rain r <> None /\ r_evap r = None)
           (out_data out).
Proof.
  intros np_exp s out H.
  apply create_met_file_assemble in H.
  destruct H as (maxt & mint & rain & radn & hurs & H).
  apply assemble_parts in H.
  destruct H as (rng & merged & vp0 & _ & _ & _ & Hd & _).
  rewrite Hd. apply Forall_forall. intros r Hr.
  apply build_rows_cells in Hr.
  destruct Hr as (H1 & H2 & H3 & H4 & _ & H6).
  pose proof (fill_numeric_no_nan (map col_radn merged)) as N1.
  pose proof (fill_numeric_no_nan (map col_maxt merged)) as N2.
  pose proof (fill_numeric_no_nan (map col_mint merged)) as N3.
  pose proof (fill_numeric_no_nan (map col_rain merged)) as N4.
  unfold no_nan in *. rewrite Forall_forall in N1, N2, N3, N4.
  repeat split; auto.
Qed.

Lemma weather_fields_never_blank_witness :
  let s := [(mkdate 2035 12 30, None); (mkdate 2035 12 31, Some 1%Q)] in
  exists out,
    fst (create_met_file (fun _ => 1%Q) (inputs_of s s s s None)) = Some out /\
    Forall (fun r => r_radn r <> None /\ r_maxt r <> None /\ r_mint r <> None /\
                     r_rain r <> None /\ r_evap r = None)
           (out_data out).
Proof.
  intro s. eexists. split; [vm_compute; reflexivity|].
  apply (weather_fields_never_blank (fun _ => 1%Q) (inputs_of s s s s None)).
  vm_compute. reflexivity.
Defined.

(** ** Repeated dates *)

Lemma assemble_unique : forall np_exp maxt mint rain radn hurs out,
  assemble np_exp maxt mint rain radn hurs = Some out ->
  unique_dates maxt /\ unique_dates mint /\ unique_dates rain /\ unique_dates radn.
Proof.
  intros np_exp maxt mint rain radn hurs out H.
  apply assemble_parts in H.
  destruct H as (rng & merged & vp0 & _ & Hre & _).
  unfold reindex in Hre.
  destruct (is_unique (map fst _)) eqn:U3; [|discriminate].
  apply outer_merge_unique_inv in U3. destruct U3 as [U2 Uradn].
  apply outer_merge_unique_inv in U2. destruct U2 as [U1 Urain].
  apply outer_merge_unique_inv in U1. destruct U1 as [Umax Umin].
  unfold unique_dates. auto.
Qed.

Lemma map_fst_combine_map : forall (A B C : Type) (f : B -> C) (l : list A) (l' : list B),
  map fst (combine l (map f l')) = map fst (combine l l').
Proof.
  induction l as [|a l IH]; intros [|b l']; cbn; [reflexivity..|].
  now rewrite IH.
Qed.

(** X14. [create_met_file] returns only when no date is repeated within the
    maximum-temperature, minimum-temperature, precipitation or radiation
    frame; with a repeated date in one of them the call raises. *)
Theorem repeated_dates_rejected :
  forall np_exp s out,
    fst (create_met_file np_exp s) = Some out ->
    exists maxt mint rain rsds radn,
      rows_of "value" (tasmax_df s) = Some maxt /\
      rows_of "value" (tasmin_df s) = Some mint /\
      rows_of "value" (pr_df s) = Some rain /\
      rsds_df s = Some rsds /\ rows_of "value" rsds = Some radn /\
      unique_dates maxt /\ unique_dates mint /\
      unique_dates rain /\ unique_dates radn.
Proof.
  intros np_exp s out H.
  destruct (create_met_file np_exp s) as [o s'] eqn:E. cbn [fst] in H. subst o.
  apply create_met_file_run in E.
  destruct E as (maxt & mint & rain & df & dates & v & hurs & Hmax & Hmin & Hrain
                 & Hdf & _ & Hd & Hv & _ & Hout & _).
  apply assemble_unique in Hout.
  destruct Hout as (Umax & Umin & Urain & Uradn).
  exists maxt, mint, rain, df, (combine dates v).
  repeat split; try assumption.
  - unfold rows_of. now rewrite Hd, Hv.
  - unfold unique_dates in *. now rewrite map_fst_combine_map in Uradn.
Qed.

Lemma repeated_dates_rejected_witness :
  let s := [(mkdate 2035 12 31, Some 1%Q)] in
  let inp := inputs_of s s s s None in
  exists maxt mint rain rsds radn,
    rows_of "value" (tasmax_df inp) = Some maxt /\
    rows_of "value" (tasmin_df inp) = Some mint /\
    rows_of "value" (pr_df inp) = Some rain /\
    rsds_df inp = Some rsds /\ rows_of "value" rsds = Some radn /\
    unique_dates maxt /\ unique_dates mint /\
    unique_dates rain /\ unique_dates radn.
Proof.
  intros s inp.
  eapply (repeated_dates_rejected (fun _ => 1%Q) inp).
  vm_compute. reflexivity.
Defined.

(** ** The vapor-pressure column *)

Lemma copy_day365_values : forall vp v,
  In v (map snd (copy_day365 vp)) -> In v (map snd vp).
Proof.
  intros vp v H. unfold copy_day365 in H. rewrite map_map in H.
  apply in_map_iff in H. destruct H as (r & Hv & Hr).
  destruct ((dayofyear (fst r) =? 366) && negb (notna (snd r))).
  - destruct (find _ vp) as [r365|] eqn:Ef.
    + apply find_some in Ef. destruct Ef as [Hin _].
      cbn [snd] in Hv. subst v. now apply in_map.
    + subst v. now apply in_map.
  - subst v. now apply in_map.
Qed.

Lemma copy_day365_keeps : forall vp d x,
  In (d, Some x) vp -> In (d, Some x) (copy_day365 vp).
Proof.
  intros vp d x H. unfold copy_day365. apply in_map_iff.
  exists (d, Some x). split; [|assumption].
  cbn [fst snd notna negb]. now rewrite andb_false_r.
Qed.

Lemma in_combine_snd : forall (A B : Type) (l : list A) (l' : list B) b,
  In b (map snd (combine l l')) -> In b l'.
Proof.
  intros A B l l' b H. apply in_map_iff in H.
  destruct H as ([a b'] & <- & H). now apply in_combine_r in H.
Qed.

Lemma vp_cells_all_nan : forall rng vp0,
  all_nan vp0 -> all_nan (map snd (copy_day365 (combine rng vp0))).
Proof.
  intros rng vp0 H. unfold all_nan in *. rewrite Forall_forall in *.
  intros v Hv. apply copy_day365_values, in_combine_snd in Hv. auto.
Qed.

(** X15. Without a humidity frame (none, or one without rows) the vapor
    pressure of every row is blank. *)
Theorem vapor_pressure_blank_without_humidity :
  forall np_exp s out,
    fst (create_met_file np_exp s) = Some out ->
    (hurs_df s = None \/ exists h, hurs_df s = Some h /\ df_len h = 0%nat) ->
    Forall (fun r => r_vp r = None) (out_data out).
Proof.
  intros np_exp s out H Hh.
  destruct (create_met_file np_exp s) as [o s'] eqn:E. cbn [fst] in H. subst o.
  apply create_met_file_run in E.
  destruct E as (maxt & mint & rain & df & dates & v & hurs & _ & _ & _ & _ & _
                 & _ & _ & Hhurs & Hout & _).
  assert (Hn : hurs = None).
  { destruct Hh as [Hh | (h & Hh & Hl)]; rewrite Hh in Hhurs; [assumption|].
    now rewrite Hl in Hhurs. }
  clear Hhurs. subst hurs. apply assemble_parts in Hout.
  destruct Hout as (rng & merged & vp0 & _ & _ & Hvp & Hd & _).
  unfold vp_column in Hvp. injection Hvp as <-.
  rewrite Hd. apply Forall_forall. intros r Hr.
  apply build_rows_cells in Hr. destruct Hr as (_ & _ & _ & _ & Hr & _).
  assert (Ha : all_nan (map snd (copy_day365
                  (combine rng (map (fun _ : date => @None Q) rng))))).
  { apply vp_cells_all_nan. apply Forall_forall. intros v0 Hv0.
    apply in_map_iff in Hv0. now destruct Hv0 as (? & <- & _). }
  unfold all_nan in Ha. rewrite Forall_forall in Ha. auto.
Qed.

Lemma vapor_pressure_blank_without_humidity_witness :
  let s := [(mkdate 2035 12 30, Some 2%Q); (mkdate 2035 12 31, Some 1%Q)] in
  exists out,
    fst (create_met_file (fun _ => 1%Q) (inputs_of s s s s (Some []))) = Some out /\
    Forall (fun r => r_vp r = None) (out_data out).
Proof.
  intro s. eexists. split; [vm_compute; reflexivity|].
  apply (vapor_pressure_blank_without_humidity (fun _ => 1%Q)
           (inputs_of s s s s (Some [])));
    [vm_compute; reflexivity|].
  right. eexists. split; reflexivity.
Defined.

(** X16. The vapor pressure is never blank on some rows and present on
    others: either every row of the table has one or none has. *)
Theorem vapor_pressure_all_or_nothing :
  forall np_exp s out,
    fst (create_met_file np_exp s) = Some out ->
    Forall (fun r => r_vp r = None) (out_data out) \/
    Forall (fun r => r_vp r <> None) (out_data out).
Proof.
  intros np_exp s out H.
  apply create_met_file_assemble in H.
  destruct H as (maxt & mint & rain & radn & hurs & H).
  apply assemble_parts in H.
  destruct H as (rng & merged & vp0 & _ & _ & Hvp & Hd & _).
  rewrite Hd.
  set (vp1 := map snd (copy_day365 (combine rng vp0))) in *.
  assert (Hu : all_nan (match hurs with
                        | Some (_ :: _) => bfill (ffill vp1)
                        | _ => vp1
                        end) \/
               no_nan (match hurs with
                       | Some (_ :: _) => bfill (ffill vp1)
                       | _ => vp1
                       end)).
  { destruct hurs as [[|h hs]|]; [| apply fill_all_or_nothing |];
      unfold vp_column in Hvp; injection Hvp as <-; left;
      apply vp_cells_all_nan, Forall_forall; intros v0 Hv0;
      apply in_map_iff in Hv0; now destruct Hv0 as (? & <- & _). }
  unfold all_nan, no_nan in Hu.
  destruct Hu as [Hu | Hu]; [left | right];
    rewrite Forall_forall in Hu; apply Forall_forall; intros r Hr;
    apply build_rows_cells in Hr; destruct Hr as (_ & _ & _ & _ & Hr & _); auto.
Qed.

Lemma vapor_pressure_all_or_nothing_witness :
  let s := [(mkdate 2035 12 30, Some 2%Q); (mkdate 2035 12 31, Some 1%Q)] in
  let h := [(mkdate 2035 12 31, Some 50%Q)] in
  exists out,
    fst (create_met_file (fun _ => 1%Q) (inputs_of s s s s (Some h))) = Some out /\
    (Forall (fun r => r_vp r = None) (out_data out) \/
     Forall (fun r => r_vp r <> None) (out_data out)).
Proof.
  intros s h. eexists. split; [vm_compute; reflexivity|].
  apply (vapor_pressure_all_or_nothing (fun _ => 1%Q)
           (inputs_of s s s s (Some h))).
  vm_compute. reflexivity.
Defined.

(** ** The covering range and the dates of the input *)


Lemma assemble_range : forall np_exp maxt mint rain radn hurs out,
  assemble np_exp maxt mint rain radn hurs = Some out ->
  all_valid maxt -> all_valid mint -> all_valid rain -> all_valid radn ->
  exists rng merged vp0,
    reindex nan_row rng
      (outer_merge ((None, None), None) None
         (outer_merge (None, None) None
            (outer_merge None None maxt mint) rain) radn) = Some merged /\
    vp_column np_exp rng maxt mint hurs = Some vp0 /\
    out_data out
    = build_rows rng
        (fill_numeric (map col_radn merged)) (fill_numeric (map col_maxt merged))
        (fill_numeric (map col_mint merged)) (fill_numeric (map col_rain merged))
        (match hurs with
         | Some (_ :: _) => bfill (ffill (map snd (copy_day365 (combine rng vp0))))
         | _ => map snd (copy_day365 (combine rng vp0))
         end) /\
    is_unique rng = true /\
    (forall d, In d (map fst maxt ++ map fst mint ++ map fst rain ++ map fst radn)%list ->
               In d rng).
Proof.
  intros np_exp maxt mint rain radn hurs out H Vmax Vmin Vrain Vradn.
  destruct (assemble_unique _ _ _ _ _ _ _ H) as (Umax & Umin & Urain & Uradn).
  apply assemble_parts in H.
  destruct H as (rng & merged & vp0 & Hcr & Hre & Hvp & Hd & _).
  unfold unique_dates, all_valid in *.
  set (m1 := outer_merge None None maxt mint) in *.
  set (m2 := outer_merge (None, None) None m1 rain) in *.
  set (m3 := outer_merge (None, None, None) None m2 radn) in *.
  set (all := (map fst maxt ++ map fst mint ++ map fst rain ++ map fst radn)%list).
  assert (U1 : is_unique (map fst m1) = true) by now apply outer_merge_unique.
  assert (U2 : is_unique (map fst m2) = true) by now apply outer_merge_unique.
  assert (Hsub : forall d, In d (map fst m3) -> In d all).
  { intros d Hin. unfold all. rewrite !in_app_iff.
    apply outer_merge_keys_sub in Hin; [|assumption].
    apply in_app_iff in Hin. destruct Hin as [Hin | Hin]; [|tauto].
    apply outer_merge_keys_sub in Hin; [|assumption].
    apply in_app_iff in Hin. destruct Hin as [Hin | Hin]; [|tauto].
    apply outer_merge_keys_sub in Hin; [|assumption].
    apply in_app_iff in Hin. tauto. }
  assert (Hcov : forall d, In d all -> has_key d m3 = true).
  { intros d Hin. unfold all in Hin. rewrite !in_app_iff in Hin.
    unfold m3, m2, m1. rewrite !has_key_outer_merge.
    assert (Hk : forall s : series, In d (map fst s) -> has_key d s = true).
    { intros s0 Hs. apply has_key_In. now apply in_map. }
    rewrite !orb_true_iff.
    destruct Hin as [Hin | [Hin | [Hin | Hin]]]; apply Hk in Hin; auto. }
  assert (Hvalid : forall d, In d all -> valid_date d = true).
  { intros d Hin. unfold all in Hin. rewrite !in_app_iff in Hin.
    rewrite Forall_forall in Vmax, Vmin, Vrain, Vradn.
    destruct Hin as [Hin | [Hin | [Hin | Hin]]]; auto. }
  unfold covering_range in Hcr.
  destruct (min_date (map fst m3)) as [lo|] eqn:Hlo; [|discriminate].
  destruct (max_date (map fst m3)) as [hi|] eqn:Hhi; [|discriminate].
  injection Hcr as Hrng.
  pose proof (min_date_spec _ _ Hlo) as [Hlo_in Hlo_le].
  pose proof (max_date_spec _ _ Hhi) as [Hhi_in Hhi_le].
  assert (Vlo : valid_date lo = true) by auto.
  exists rng, merged, vp0. repeat split; try assumption.
  - rewrite <- Hrng. now apply date_range_unique.
  - intros d Hin. rewrite <- Hrng. apply in_date_range; [assumption|].
    split; [auto|].
    apply Hcov, has_key_In, ordinal_in_keys in Hin.
    destruct Hin as (d' & Hd' & He).
    specialize (Hlo_le _ Hd'). specialize (Hhi_le _ Hd').
    unfold date_ltb.
    destruct (Z.ltb_spec (toordinal hi) (toordinal (dec31 (year hi)))); lia.
Qed.

(** ** Values given for a date *)


Lemma combine_map_self : forall (A B : Type) (f : A -> B) (l : list A),
  combine l (map f l) = map (fun a => (a, f a)) l.
Proof.
  induction l as [|a l IH]; cbn; [reflexivity | now rewrite IH].
Qed.




Lemma create_met_file_radn : forall np_exp maxt mint rain radn hurs out,
  fst (create_met_file np_exp (inputs_of maxt mint rain radn hurs)) = Some out ->
  radn <> [].
Proof.
  intros np_exp maxt mint rain radn hurs out H.
  destruct (create_met_file np_exp _) as [o s'] eqn:E. cbn [fst] in H. subst o.
  apply create_met_file_run in E.
  destruct E as (_ & _ & _ & df & _ & _ & _ & _ & _ & _ & Hdf & Hlen & _).
  cbn in Hdf. injection Hdf as <-. intros ->. now apply Hlen.
Qed.



(** ** Vapor pressure on every row *)

Lemma complete_on_values : forall rng (s : series),
  map snd (complete_on rng s)
  = bfill (ffill (map (fun r => snd (snd r))
                      (left_merge None (map (fun d => (d, tt)) rng) s))).
Proof.
  intros rng s. unfold complete_on. cbv zeta.
  apply map_snd_combine.
  now rewrite bfill_length, ffill_length, !length_map.
Qed.

Lemma complete_on_no_nan : forall rng (s : series) d x,
  In d rng -> In (d, Some x) s -> no_nan (map snd (complete_on rng s)).
Proof.
  intros rng s d x Hd Hx. rewrite complete_on_values.
  apply fill_no_nan with (x := x). apply in_map_iff.
  exists (d, (tt, Some x)). split; [reflexivity|].
  apply in_left_merge.
  - apply in_map_iff. now exists d.
  - apply in_matches_iff. exists d. split; [assumption | apply date_eqb_refl].
Qed.

Lemma complete_on_has_key : forall rng (s : series) d,
  In d rng -> has_key d (complete_on rng s) = true.
Proof.
  intros rng s d Hd.
  rewrite (has_key_keys _ _ (complete_on rng s)
             (left_merge None (map (fun d => (d, tt)) rng) s)).
  - rewrite has_key_left_merge. apply has_key_exists.
    exists (d, tt). split; [|apply date_eqb_refl].
    apply in_map_iff. now exists d.
  - unfold complete_on. cbv zeta. apply map_fst_combine.
    now rewrite bfill_length, ffill_length, !length_map.
Qed.

Lemma in_values : forall (s : series) d v, In (d, v) s -> In v (map snd s).
Proof.
  intros s d v H. apply in_map_iff. now exists (d, v).
Qed.

Section WithExp.

Variable np_exp : Q -> Q.

Lemma vapor_pressure_has_key : forall (h a b : series) d,
  has_key d h = true -> has_key d a = true -> has_key d b = true ->
  has_key d (calculate_vapor_pressure np_exp h a b) = true.
Proof.
  intros h a b d Hh Ha Hb. unfold calculate_vapor_pressure.
  match goal with
  | |- has_key d (map ?f ?l) = true =>
      rewrite (has_key_keys _ _ (map f l) l) by (rewrite map_map; reflexivity)
  end.
  apply has_key_inner_merge; [assumption|].
  match goal with
  | |- has_key d (map ?f ?l) = true =>
      rewrite (has_key_keys _ _ (map f l) l) by (rewrite map_map; reflexivity)
  end.
  now apply has_key_inner_merge.
Qed.

Lemma vapor_pressure_no_nan : forall (h a b : series),
  no_nan (map snd h) -> no_nan (map snd a) -> no_nan (map snd b) ->
  no_nan (map snd (calculate_vapor_pressure np_exp h a b)).
Proof.
  intros h a b Nh Na Nb. unfold no_nan in *. rewrite Forall_forall in *.
  intros v Hv. apply in_map_iff in Hv. destruct Hv as ([d v'] & <- & Hin).
  unfold calculate_vapor_pressure in Hin. apply in_map_iff in Hin.
  destruct Hin as ([d0 [rh tm]] & He & Hin). cbn [fst snd] in He.
  injection He as -> <-.
  apply in_inner_merge_iff in Hin. destruct Hin as [Hh (d1 & Ht & _)].
  apply in_map_iff in Ht. destruct Ht as ([d2 [p q]] & He & Ht).
  cbn [fst snd] in He. injection He as -> <-.
  apply in_inner_merge_iff in Ht. destruct Ht as [Ha (d3 & Hb & _)].
  apply in_values in Hh, Ha, Hb.
  specialize (Nh _ Hh). specialize (Na _ Ha). specialize (Nb _ Hb).
  destruct rh, p, q; try congruence. cbn. discriminate.
Qed.

End WithExp.

(** X18. When the humidity frame has a value on a date of the input, and
    both temperature frames have a value somewhere, every row of the table
    has a vapor pressure, the days without humidity included. *)
Theorem vapor_pressure_on_every_row :
  forall np_exp maxt mint rain radn hurs out,
    all_valid maxt -> all_valid mint -> all_valid rain -> all_valid radn ->
    fst (create_met_file np_exp (inputs_of maxt mint rain radn (Some hurs)))
    = Some out ->
    (exists d x, In (d, Some x) hurs /\
       In d (map fst maxt ++ map fst mint ++ map fst rain ++ map fst radn)%list) ->
    (exists d x, In (d, Some x) maxt) ->
    (exists d x, In (d, Some x) mint) ->
    Forall (fun r => r_vp r <> None) (out_data out).
Proof.
  intros np_exp maxt mint rain radn hurs out Vmax Vmin Vrain Vradn H
         (dh & xh & Hh & Hdh) (da & xa & Ha) (db & xb & Hb).
  pose proof (create_met_file_radn _ _ _ _ _ _ _ H) as Hne.
  rewrite create_met_file_series in H by assumption.
  destruct hurs as [|h0 hs]; [contradiction|].
  assert (Vs : all_valid (map (fun r => (fst r, vmul (snd r) (Some 0.0864%Q))) radn)).
  { unfold all_valid in *. now rewrite map_fst_scaled. }
  destruct (assemble_range _ _ _ _ _ _ _ H Vmax Vmin Vrain Vs)
    as (rng & merged & vp0 & _ & Hvp & Hd & Urng & Hin).
  rewrite map_fst_scaled in Hin.
  assert (Hkey : forall (s : series) d x, In (d, Some x) s -> In d (map fst s)).
  { intros s d x Hx. apply in_map_iff. now exists (d, Some x). }
  assert (Rh : In dh rng) by auto.
  assert (Ra : In da rng).
  { apply Hin. rewrite !in_app_iff. left. eauto. }
  assert (Rb : In db rng).
  { apply Hin. rewrite !in_app_iff. right. left. eauto. }
  unfold vp_column in Hvp.
  set (vp_df := calculate_vapor_pressure np_exp (complete_on rng (h0 :: hs))
                  (complete_on rng maxt) (complete_on rng mint)) in *.
  destruct (is_unique (map fst vp_df)); [|discriminate].
  injection Hvp as Hvp0.
  assert (Nv : no_nan (map snd vp_df)).
  { apply vapor_pressure_no_nan.
    - now apply complete_on_no_nan with (d := dh) (x := xh).
    - now apply complete_on_no_nan with (d := da) (x := xa).
    - now apply complete_on_no_nan with (d := db) (x := xb). }
  assert (Kv : has_key dh vp_df = true).
  { apply vapor_pressure_has_key; now apply complete_on_has_key. }
  rewrite has_key_lookup in Kv.
  destruct (lookup dh vp_df) as [w|] eqn:El; [|discriminate].
  destruct (lookup_in _ _ _ _ El) as (d' & Hw & _).
  apply in_values in Hw. unfold no_nan in Nv. rewrite Forall_forall in Nv.
  specialize (Nv _ Hw). destruct w as [v|]; [|congruence].
  assert (Hc : In (dh, Some v) (combine rng vp0)).
  { rewrite <- Hvp0, combine_map_self. apply in_map_iff.
    exists dh. rewrite El. auto. }
  apply copy_day365_keeps, in_values in Hc.
  pose proof (fill_no_nan _ _ Hc) as Hfill.
  rewrite Hd. apply Forall_forall. intros r Hr.
  apply build_rows_cells in Hr. destruct Hr as (_ & _ & _ & _ & Hr & _).
  unfold no_nan in Hfill. rewrite Forall_forall in Hfill. auto.
Qed.

Lemma vapor_pressure_on_every_row_witness :
  let d2 := mkdate 2035 12 30 in
  let d3 := mkdate 2035 12 31 in
  let s := [(d2, Some 20%Q); (d3, Some 21%Q)] in
  let h := [(d3, Some 50%Q)] in
  exists out,
    fst (create_met_file (fun _ => 1%Q) (inputs_of s s s s (Some h))) = Some out /\
    Forall (fun r => r_vp r <> None) (out_data out).
Proof.
  intros d2 d3 s h. eexists. split; [vm_compute; reflexivity|].
  assert (V : all_valid s) by (repeat constructor).
  apply (vapor_pressure_on_every_row (fun _ => 1%Q) s s s s h _ V V V V).
  - vm_compute. reflexivity.
  - exists d3, 50%Q. split; [left; reflexivity | right; left; reflexivity].
  - exists d2, 20%Q. left. reflexivity.
  - exists d2, 20%Q. left. reflexivity.
Defined.

End AssemblerEdgeFacts.

(* ================================================================== *)
(** * Properties of a run ([process_coordinate], the main block)        *)
(* ================================================================== *)

Module PipelineFacts.
Import Calendar CalendarFacts Frame FrameFacts Extractor Met Statements.
Import ExtractorFacts AssemblerFacts WriterFacts JoinFacts ExtractorEdgeFacts
  AssemblerEdgeFacts.
Import Pipeline RunStatements.

(** ** The dictionary of extracted frames *)

Lemma dict_get_set : forall k v d, dict_get k (dict_set k v d) = Some v.
Proof.
  intros k v d. induction d as [|[k' v'] rest IH].
  - cbn. now rewrite String.eqb_refl.
  - cbn. destruct (String.eqb k' k) eqn:E; cbn; now rewrite E.
Qed.

Lemma dict_get_set_other : forall k k' v d,
  String.eqb k k' = false -> dict_get k' (dict_set k v d) = dict_get k' d.
Proof.
  intros k k' v d Hne. induction d as [|[k0 v0] rest IH].
  - cbn. now rewrite Hne.
  - cbn. destruct (String.eqb k0 k) eqn:E; cbn.
    + apply String.eqb_eq in E. subst k0. now rewrite Hne.
    + now rewrite IH.
Qed.

Lemma dict_set_keys : forall k v d x,
  In x (map fst (dict_set k v d)) -> x = k \/ In x (map fst d).
Proof.
  intros k v d x. induction d as [|[k0 v0] rest IH]; cbn.
  - intros [<- | []]. now left.
  - destruct (String.eqb k0 k); cbn; intros [<- | H]; auto.
    destruct (IH H); auto.
Qed.

Lemma dict_set_NoDup : forall k v d,
  NoDup (map fst d) -> NoDup (map fst (dict_set k v d)).
Proof.
  intros k v d. induction d as [|[k0 v0] rest IH]; cbn; intro H.
  - repeat constructor. intros [].
  - inversion H as [|? ? Hn Hr]; subst.
    destruct (String.eqb k0 k) eqn:E; cbn; constructor; auto.
    intro Hin. apply dict_set_keys in Hin. destruct Hin as [-> | Hin]; auto.
    rewrite String.eqb_refl in E. discriminate.
Qed.

Section WithEnvironment.

Variable sort_values : series -> series.
Variable np_exp : Q -> Q.
Variable nc_files_of : string -> list NcFile.
Variables latitude longitude tolerance : Q.

#[local] Abbreviation step :=
  (extract_variable sort_values nc_files_of latitude longitude tolerance).
#[local] Abbreviation found :=
  (extracted sort_values nc_files_of latitude longitude tolerance).

Lemma step_get : forall acc v k,
  dict_get k (step acc v)
  = match found v with
    | Some df => if String.eqb v k && (0 <? List.length df)%nat then Some df
                 else dict_get k acc
    | None => dict_get k acc
    end.
Proof.
  intros acc v k. unfold extract_variable, extracted.
  destruct (fst _) as [df|]; [|reflexivity].
  destruct (0 <? List.length df)%nat; [|now rewrite andb_false_r].
  rewrite andb_true_r. destruct (String.eqb v k) eqn:E.
  - apply String.eqb_eq in E. subst k. apply dict_get_set.
  - now apply dict_get_set_other.
Qed.

Lemma fold_get : forall variables acc k df,
  dict_get k (fold_left step variables acc) = Some df ->
  dict_get k acc = Some df \/
  (In k variables /\ found k = Some df /\ df <> []).
Proof.
  induction variables as [|v vs IH]; intros acc k df H; [now left|].
  cbn [fold_left] in H. apply IH in H. destruct H as [H | (Hin & H)].
  - rewrite step_get in H. destruct (found v) as [df'|] eqn:Ef; [|now left].
    destruct (String.eqb v k) eqn:E; cbn [andb] in H; [|now left].
    destruct (Nat.ltb_spec 0 (List.length df')) as [Hpos | Hz]; [|now left].
    injection H as <-. apply String.eqb_eq in E. subst k. right.
    split; [now left|]. split; [assumption|].
    intros ->. cbn in Hpos. lia.
  - right. split; [now right | assumption].
Qed.

Lemma fold_found : forall variables acc k df,
  In k variables -> found k = Some df -> df <> [] ->
  dict_get k (fold_left step variables acc) = Some df.
Proof.
  induction variables as [|v vs IH]; intros acc k df Hin Hf Hne; [contradiction|].
  cbn [fold_left].
  assert (Hs : dict_get k (step acc k) = Some df).
  { rewrite step_get, Hf, String.eqb_refl.
    destruct df; [congruence | reflexivity]. }
  assert (Hkeep : forall vs' acc',
             dict_get k acc' = Some df ->
             dict_get k (fold_left step vs' acc') = Some df).
  { induction vs' as [|w ws IHw]; intros acc' Ha; [assumption|].
    cbn [fold_left]. apply IHw. rewrite step_get.
    destruct (found w) as [df'|] eqn:Ew; [|assumption].
    destruct (String.eqb w k) eqn:E; cbn [andb]; [|assumption].
    apply String.eqb_eq in E. subst w.
    rewrite Hf in Ew. injection Ew as <-.
    destruct (0 <? List.length df)%nat; [reflexivity | assumption]. }
  destruct Hin as [-> | Hin].
  - now apply Hkeep.
  - now apply IH.
Qed.

Lemma fold_keys : forall variables acc,
  NoDup (map fst acc) ->
  NoDup (map fst (fold_left step variables acc)) /\
  (forall x, In x (map fst (fold_left step variables acc)) ->
             In x (map fst acc) \/ In x variables).
Proof.
  induction variables as [|v vs IH]; intros acc Hn; [cbn; auto|].
  cbn [fold_left].
  assert (Hs : NoDup (map fst (step acc v)) /\
               (forall x, In x (map fst (step acc v)) -> In x (map fst acc) \/ x = v)).
  { unfold extract_variable. destruct (fst _) as [df|]; [|auto].
    destruct (0 <? List.length df)%nat; [|auto]. split.
    - now apply dict_set_NoDup.
    - intros x Hx. apply dict_set_keys in Hx. tauto. }
  destruct Hs as [Hn' Hk]. destruct (IH _ Hn') as [IH1 IH2].
  split; [assumption|].
  intros x Hx. destruct (IH2 x Hx) as [H | H]; [|right; now right].
  destruct (Hk x H) as [H' | ->]; [now left | right; now left].
Qed.

(** ** What the extractor hands to the assembler *)

Lemma strictly_sorted_unique : forall s : series,
  StronglySorted strictly_by_date s -> is_unique (map fst s) = true.
Proof.
  intros s H. apply is_unique_NoDup, sorted_ordinals_NoDup.
  induction H as [|r t Ht IH Hall]; cbn; constructor; [assumption|].
  rewrite Forall_forall in *. intros d Hd. apply in_map_iff in Hd.
  destruct Hd as (x & <- & Hx). now apply Hall.
Qed.

Lemma fit_length_valid : forall t n t',
  Forall (fun d => valid_date d = true) t ->
  fit_length t n = Some t' ->
  Forall (fun d => valid_date d = true) t'.
Proof.
  intros t n t' Hv. unfold fit_length.
  destruct (List.length t =? n)%nat; [intro H; now injection H as <-|].
  destruct (n <? List.length t)%nat.
  - intro H. injection H as <-. rewrite <- (firstn_skipn n t) in Hv.
    apply Forall_app in Hv. tauto.
  - destruct (rev t) as [|x r] eqn:Hrev; [discriminate|].
    intro H. injection H as <-.
    apply Forall_app. split; [assumption|].
    apply date_range_periods_valid, next_day_valid.
    rewrite Forall_forall in Hv. apply Hv.
    apply in_rev. rewrite Hrev. now left.
Qed.

Lemma file_frame_valid : forall f i j s m,
  match nc_time f with
  | Some t => Forall (fun d => valid_date d = true) t
  | None => True
  end ->
  file_frame f i j = (Some s, m) -> all_valid s.
Proof.
  intros f i j s m Hf H. apply file_frame_some in H.
  destruct H as (_ & _ & _ & Hfit). unfold all_valid.
  apply fit_length_valid in Hfit; [assumption|].
  unfold time_values. destruct (nc_time f) as [t|]; [assumption|].
  unfold dates_from_filename.
  destruct (filename_year (nc_name f));
    apply date_range_periods_valid, jan1_valid.
Qed.

Lemma all_frames_in : forall files i j frame,
  In frame (fst (all_frames files i j)) ->
  exists f m, In f files /\ file_frame f i j = (Some frame, m).
Proof.
  induction files as [|f files IH]; intros i j frame H; [contradiction|].
  cbn [all_frames] in H.
  destruct (file_frame f i j) as [fr m1] eqn:Ef.
  destruct (all_frames files i j) as [frs m2] eqn:Ea. cbn [fst] in H.
  assert (Hrest : In frame frs -> exists f0 m, In f0 (f :: files) /\
                                   file_frame f0 i j = (Some frame, m)).
  { intro Hin. destruct (IH i j frame) as (f0 & m & Hf0 & Hm).
    - now rewrite Ea.
    - exists f0, m. split; [now right | assumption]. }
  destruct fr as [s|]; [|auto].
  destruct H as [<- | H]; [|auto].
  exists f, m1. split; [now left | assumption].
Qed.

(** A frame returned by the extractor is a Daily Series of calendar dates. *)
Lemma extracted_frame_ok : forall files s,
  (forall s0, Permutation (sort_values s0) s0) ->
  (forall s0, StronglySorted by_date (sort_values s0)) ->
  axes_valid files ->
  fst (extract_daily_data_from_netcdf sort_values files latitude longitude tolerance)
  = Some s ->
  s <> [] /\ unique_dates s /\ all_valid s.
Proof.
  intros files s Hperm Hsorted Hax H.
  apply extract_some in H.
  destruct H as (sample & rest & p & all_data & _ & _ & _ & Hall & Hne & ->).
  split; [|split].
  - apply combine_frames_not_empty; try assumption.
    rewrite <- Hall. apply all_frames_not_empty.
  - apply strictly_sorted_unique. unfold combine_frames, drop_duplicates.
    apply drop_duplicates_from_sorted, Hsorted.
  - unfold all_valid. apply Forall_forall. intros d Hd.
    apply in_map_iff in Hd. destruct Hd as (r & <- & Hr).
    unfold combine_frames, drop_duplicates in Hr.
    apply drop_duplicates_from_in in Hr. destruct Hr as [Hr _].
    apply (Permutation_in _ (Hperm _)) in Hr.
    apply in_concat in Hr. destruct Hr as (frame & Hf & Hr).
    rewrite <- Hall in Hf. apply all_frames_in in Hf.
    destruct Hf as (f & m & Hfin & Hff).
    unfold axes_valid in Hax. rewrite Forall_forall in Hax.
    pose proof (file_frame_valid _ _ _ _ _ (Hax f Hfin) Hff) as Hv.
    unfold all_valid in Hv. rewrite Forall_forall in Hv.
    apply Hv. now apply in_map.
Qed.

(** ** A whole run *)

(** X19. With a [sort_values] that orders by date and files whose time axes
    hold calendar dates, a run for which the extractor returns a frame for
    each of tasmax, tasmin, pr and rsds always completes: the frames the
    extractor returns are accepted by [create_met_file], which does not
    raise, and the summary reports the rows of the table written.  Humidity
    is optional. *)
Theorem run_completes :
  forall variables,
    (forall s, Permutation (sort_values s) s) ->
    (forall s, StronglySorted by_date (sort_values s)) ->
    (forall v, axes_valid (nc_files_of v)) ->
    (forall v, In v required_vars -> In v variables /\ found v <> None) ->
    exists summary out,
      process_coordinate sort_values np_exp nc_files_of true variables
        latitude longitude tolerance = (Returned summary, Some out) /\
      num_rows summary = List.length (out_data out) /\
      out_lines out = map format_row (out_data out).
Proof.
  intros variables Hperm Hsorted Hax Hreq.
  assert (Hget : forall v, In v required_vars ->
            exists df, dict_get v (extract_variables sort_values nc_files_of variables
                                     latitude longitude tolerance) = Some df /\
                       df <> [] /\ unique_dates df /\ all_valid df).
  { intros v Hv. destruct (Hreq v Hv) as [Hin Hf].
    destruct (found v) as [df|] eqn:Ef; [|congruence].
    pose proof (extracted_frame_ok _ _ Hperm Hsorted (Hax v) Ef) as (Hne & Hu & Hva).
    exists df. split; [|auto]. unfold extract_variables. now apply fold_found. }
  destruct (Hget "tasmax"%string) as (tasmax & G1 & N1 & U1 & V1); [cbn; tauto|].
  destruct (Hget "tasmin"%string) as (tasmin & G2 & N2 & U2 & V2); [cbn; tauto|].
  destruct (Hget "pr"%string) as (pr & G3 & N3 & U3 & V3); [cbn; tauto|].
  destruct (Hget "rsds"%string) as (rsds & G4 & N4 & U4 & V4); [cbn; tauto|].
  unfold process_coordinate. cbn [negb].
  set (extracted_data := extract_variables sort_values nc_files_of variables
                           latitude longitude tolerance) in *.
  cbn [filter required_vars]. unfold dict_mem.
  rewrite G1, G2, G3, G4. cbn [negb].
  set (hurs := dict_get "hurs" extracted_data).
  assert (Uh : match hurs with Some h => unique_dates h | None => True end).
  { subst hurs. destruct (dict_get "hurs" extracted_data) as [h|] eqn:Gh; [|exact I].
    unfold extracted_data, extract_variables in Gh. apply fold_get in Gh.
    destruct Gh as [Gh | (_ & Gh & _)]; [discriminate|].
    now destruct (extracted_frame_ok _ _ Hperm Hsorted (Hax _) Gh) as (_ & Hu & _). }
  change (mkInputs (frame_of tasmax) (frame_of tasmin) (frame_of pr)
            (Some (frame_of rsds)) (option_map frame_of hurs))
    with (inputs_of tasmax tasmin pr rsds hurs).
  rewrite create_met_file_series by assumption.
  destruct (assemble_rows np_exp tasmax tasmin pr
              (map (fun r => (fst r, vmul (snd r) (Some 0.0864%Q))) rsds)
              (match hurs with Some (h :: hs) => Some (h :: hs) | _ => None end))
    as (out & lo & hi & Hout & _ & _ & _ & _ & _ & Hlines & Htot & _);
    unfold unique_dates, all_valid in *; rewrite ?map_fst_scaled; auto.
  { destruct rsds; [congruence | discriminate]. }
  { destruct hurs as [[|h hs]|]; auto. }
  rewrite Hout. eexists. exists out. split; [reflexivity|].
  cbn [num_rows]. auto.
Qed.

(** X20. A run returns a summary only if the coordinates are in range, the
    data directory exists and the extractor has returned a frame for each
    of tasmax, tasmin, pr and rsds, all four named in the variable list;
    the summary then lists each extracted variable once, all of them from
    the variable list, and reports the rows of the table written. *)
Theorem completed_run_had_required_variables :
  forall data_dir_exists variables summary met,
    main sort_values np_exp nc_files_of data_dir_exists variables
      latitude longitude tolerance = (Returned summary, met) ->
    (-90 <= latitude <= 90)%Q /\ (-180 <= longitude <= 180)%Q /\
    data_dir_exists = true /\
    (forall v, In v required_vars ->
       In v variables /\ exists df, found v = Some df /\ df <> []) /\
    NoDup (variables_extracted summary) /\
    incl (variables_extracted summary) variables /\
    num_variables summary = List.length (variables_extracted summary) /\
    exists out, met = Some out /\ num_rows summary = List.length (out_data out).
Proof.
  intros data_dir_exists variables summary met H. unfold main in H.
  destruct (Qle_bool (-90) latitude) eqn:L1; [|discriminate].
  destruct (Qle_bool latitude 90) eqn:L2; [|discriminate].
  destruct (Qle_bool (-180) longitude) eqn:L3; [|discriminate].
  destruct (Qle_bool longitude 180) eqn:L4; [|discriminate].
  cbn [andb negb] in H. apply Qle_bool_iff in L1, L2, L3, L4.
  unfold process_coordinate in H.
  destruct data_dir_exists; [|discriminate]. cbn [negb] in H.
  set (extracted_data := extract_variables sort_values nc_files_of variables
                           latitude longitude tolerance) in *.
  cbn [filter required_vars] in H. unfold dict_mem in H.
  destruct (dict_get "tasmax" extracted_data) as [tasmax|] eqn:G1; [|discriminate].
  destruct (dict_get "tasmin" extracted_data) as [tasmin|] eqn:G2; [|discriminate].
  destruct (dict_get "pr" extracted_data) as [pr|] eqn:G3; [|discriminate].
  destruct (dict_get "rsds" extracted_data) as [rsds|] eqn:G4; [|discriminate].
  cbn [negb] in H.
  destruct (fst (create_met_file np_exp _)) as [out|] eqn:Ec; [|discriminate].
  injection H as <- <-.
  cbn [variables_extracted num_variables num_rows].
  destruct (fold_keys variables [] (NoDup_nil _)) as [Hnd Hk].
  split; [split; assumption|]. split; [split; assumption|].
  split; [reflexivity|]. split; [|split; [assumption|]; split; [|split]].
  - intros v Hv. cbn in Hv.
    assert (Hg : exists df, dict_get v extracted_data = Some df).
    { destruct Hv as [<- | [<- | [<- | [<- | []]]]]; eauto. }
    destruct Hg as (df & Hg). unfold extracted_data, extract_variables in Hg.
    apply fold_get in Hg. destruct Hg as [Hg | (Hin & Hf & Hne)]; [discriminate|].
    split; [assumption|]. eauto.
  - intros x Hx. destruct (Hk x Hx) as [[] | Hin]. exact Hin.
  - symmetry. apply length_map.
  - exists out. split; [reflexivity|].
    apply create_met_file_assemble in Ec.
    destruct Ec as (a & b & c & d & e & Ec).
    apply assemble_parts in Ec.
    destruct Ec as (rng & merged & vp0 & _ & _ & _ & _ & _ & Htot & _).
    exact Htot.
Qed.

End WithEnvironment.

Lemma run_completes_witness :
  let f := mkNcFile "day_2036.nc" true (Some [(-32)%Q]) (Some [117%Q])
             (fun _ _ => Some [Some 1%Q; Some 2%Q]) None in
  let variables := ["tasmax"; "tasmin"; "pr"; "rsds"]%string in
  exists summary out,
    process_coordinate insertion_sort (fun _ => 1%Q) (fun _ => [f]) true variables
      (-32)%Q 117%Q 0.01%Q = (Returned summary, Some out) /\
    num_rows summary = List.length (out_data out) /\
    out_lines out = map format_row (out_data out).
Proof.
  intros f variables.
  apply (run_completes insertion_sort (fun _ => 1%Q) (fun _ => [f])
           (-32)%Q 117%Q 0.01%Q variables
           insertion_sort_perm insertion_sort_sorted).
  - intro v. repeat constructor.
  - intros v Hv. split; [exact Hv|]. vm_compute. discriminate.
Defined.

Lemma completed_run_had_required_variables_witness :
  let f := mkNcFile "day_2036.nc" true (Some [(-32)%Q]) (Some [117%Q])
             (fun _ _ => Some [Some 1%Q; Some 2%Q]) None in
  let variables := ["tasmax"; "tasmin"; "pr"; "rsds"]%string in
  exists summary met,
    main insertion_sort (fun _ => 1%Q) (fun _ => [f]) true variables
      (-32)%Q 117%Q 0.01%Q = (Returned summary, met) /\
    (-90 <= -32 <= 90)%Q /\ (-180 <= 117 <= 180)%Q /\
    true = true /\
    (forall v, In v required_vars ->
       In v variables /\
       exists df, extracted insertion_sort (fun _ => [f]) (-32)%Q 117%Q 0.01%Q v
                  = Some df /\ df <> []) /\
    NoDup (variables_extracted summary) /\
    incl (variables_extracted summary) variables /\
    num_variables summary = List.length (variables_extracted summary) /\
    exists out, met = Some out /\ num_rows summary = List.length (out_data out).
Proof.
  intros f variables. eexists. eexists. split; [vm_compute; reflexivity|].
  eapply (completed_run_had_required_variables insertion_sort (fun _ => 1%Q)
            (fun _ => [f]) (-32)%Q 117%Q 0.01%Q true variables).
  vm_compute. reflexivity.
Defined.

End PipelineFacts.

(* ================================================================== *)
(** * Properties of the earlier [create_met_file]                       *)
(* ================================================================== *)

Module LegacyFacts.
Import Calendar CalendarFacts Frame FrameFacts Derived Text Met Statements.
Import ExtractorFacts AssemblerFacts JoinFacts.

Lemma left_merge_keys_in : forall A B (nb : B) (l : keyed A) (r : keyed B) d,
  In d (map fst (left_merge nb l r)) -> In d (map fst l).
Proof.
  intros A B nb l r d H. apply in_map_iff in H.
  destruct H as ([k v] & <- & H). unfold left_merge in H.
  apply in_flat_map in H. destruct H as ([k0 a] & Hl & H). cbn [fst snd] in H.
  apply in_map_iff. exists (k0, a). split; [|assumption]. cbn [fst].
  destruct (matches k0 r) as [|b ms].
  - destruct H as [H | []]. injection H as E _. exact E.
  - apply in_map_iff in H. destruct H as (b' & H & _).
    injection H as E _. exact E.
Qed.

(** The dates of an outer join are dates of its sides. *)
Lemma outer_merge_keys_in : forall A B (na : A) (nb : B) (l : keyed A) (r : keyed B) d,
  In d (map fst (outer_merge na nb l r)) -> In d (map fst l) \/ In d (map fst r).
Proof.
  intros A B na nb l r d H. unfold outer_merge in H.
  rewrite map_app, in_app_iff in H. destruct H as [H | H].
  - left. now apply left_merge_keys_in in H.
  - right. rewrite map_map in H. cbn [fst] in H.
    apply in_map_iff in H. destruct H as (y & <- & Hy).
    apply filter_In in Hy. apply in_map. tauto.
Qed.

Section WithSort.

Variable sort_values : keyed merged_row -> keyed merged_row.
Hypothesis sort_perm : forall m, Permutation (sort_values m) m.

(** The earlier [create_met_file] on the frames of series. *)
Lemma legacy_create_met_file_series : forall maxt mint rain radn hurs,
  fst (Legacy.create_met_file sort_values (inputs_of maxt mint rain radn hurs))
  = Some (Legacy.assemble sort_values maxt mint rain
            (match radn with
             | [] => None
             | _ => Some (map (fun r => (fst r, vmul (snd r) (Some 0.0864%Q))) radn)
             end)).
Proof.
  intros maxt mint rain radn hurs.
  transitivity
    (Some (Legacy.assemble sort_values
             (combine (map fst maxt) (map snd maxt))
             (combine (map fst mint) (map snd mint))
             (combine (map fst rain) (map snd rain))
             (match radn with
              | [] => None
              | _ => Some (combine (map fst radn)
                             (map (fun x => vmul x (Some 0.0864%Q)) (map snd radn)))
              end))).
  - destruct radn as [|r radn']; unfold Legacy.create_met_file, inputs_of;
      cbn -[Legacy.assemble]; reflexivity.
  - rewrite !combine_fst_snd. do 2 f_equal.
    destruct radn as [|r radn']; [reflexivity|]. f_equal.
    generalize (r :: radn'). intro l.
    induction l as [|x t IH]; cbn [map combine]; [reflexivity|].
    f_equal. exact IH.
Qed.

(** X21. The earlier [create_met_file] neither completes the calendar nor
    fills: the table holds rows for the dates of its input frames and for
    no other date, and every row has a blank evaporation, a blank vapor
    pressure and a blank code. *)
Theorem legacy_writes_input_dates_only :
  forall maxt mint rain radn hurs,
    let all := (map fst maxt ++ map fst mint ++ map fst rain ++ map fst radn)%list in
    exists out,
      fst (Legacy.create_met_file sort_values (inputs_of maxt mint rain radn hurs))
      = Some out /\
      (forall row, In row (Legacy.met_data out) ->
         (exists d, In d all /\ row_key row = date_key d) /\
         r_evap row = None /\ r_vp row = None /\ r_code row = EmptyString) /\
      (forall d, In d all ->
         exists d', date_eqb d' d = true /\
                    In (date_key d') (map row_key (Legacy.met_data out))) /\
      Legacy.num_rows out = List.length (Legacy.met_data out) /\
      Legacy.lines out = map Legacy.format_row (Legacy.met_data out).
Proof.
  intros maxt mint rain radn hurs. cbv zeta.
  rewrite legacy_create_met_file_series. eexists. split; [reflexivity|].
  match goal with
  | |- context [Legacy.assemble _ _ _ _ ?r] => set (radn' := r)
  end.
  assert (Hradn : match radn' with Some r => map fst r | None => [] end = map fst radn).
  { unfold radn'. destruct radn as [|r t]; [reflexivity|]. apply map_fst_scaled. }
  rewrite <- Hradn. clearbody radn'. clear Hradn.
  unfold Legacy.assemble. cbv zeta.
  set (m2 := outer_merge (None, None) None (outer_merge None None maxt mint) rain).
  set (merged := match radn' with
                 | Some r => outer_merge (None, None, None) None m2 r
                 | None => map (fun x => (fst x, (snd x, None))) m2
                 end).
  destruct (calculate_tav_amp _) as [t a].
  cbn [Legacy.met_data Legacy.num_rows Legacy.lines].
  assert (Hsub : forall d, In d (map fst merged) ->
            In d (map fst maxt ++ map fst mint ++ map fst rain ++
                  match radn' with Some r => map fst r | None => [] end)%list).
  { intros d Hd. rewrite !in_app_iff.
    assert (H2 : In d (map fst m2) ->
                 In d (map fst maxt) \/ In d (map fst mint) \/ In d (map fst rain)).
    { intro H. unfold m2 in H. apply outer_merge_keys_in in H.
      destruct H as [H | H]; [|tauto].
      apply outer_merge_keys_in in H. tauto. }
    unfold merged in Hd. destruct radn' as [r|].
    - apply outer_merge_keys_in in Hd. destruct Hd as [Hd | Hd]; [|tauto].
      apply H2 in Hd. tauto.
    - rewrite map_map in Hd. cbn [fst] in Hd. apply H2 in Hd. tauto. }
  assert (Hcov : forall d,
            In d (map fst maxt ++ map fst mint ++ map fst rain ++
                  match radn' with Some r => map fst r | None => [] end)%list ->
            has_key d merged = true).
  { intros d Hd. rewrite !in_app_iff in Hd.
    assert (Hk : forall s : series, In d (map fst s) -> has_key d s = true).
    { intros s0 Hs. apply has_key_In. now apply in_map. }
    assert (H2 : In d (map fst maxt) \/ In d (map fst mint) \/ In d (map fst rain) ->
                 has_key d m2 = true).
    { intro H. unfold m2. rewrite !has_key_outer_merge, !orb_true_iff.
      destruct H as [H | [H | H]]; apply Hk in H; auto. }
    unfold merged. destruct radn' as [r|].
    - rewrite has_key_outer_merge, orb_true_iff.
      destruct Hd as [Hd | [Hd | [Hd | Hd]]]; auto.
    - rewrite (has_key_keys _ _ _ m2) by (rewrite map_map; reflexivity).
      destruct Hd as [Hd | [Hd | [Hd | []]]]; auto. }
  split; [|split; [|split; reflexivity]].
  - intros row Hrow. apply in_map_iff in Hrow. destruct Hrow as (r & <- & Hr).
    split; [|repeat split].
    exists (fst r). split; [|reflexivity].
    apply Hsub. apply in_map. now apply (Permutation_in _ (sort_perm merged)).
  - intros d Hd. apply Hcov in Hd. apply has_key_exists in Hd.
    destruct Hd as (r & Hr & He). exists (fst r). split; [assumption|].
    rewrite map_map. apply in_map_iff. exists r. split; [reflexivity|].
    now apply (Permutation_in _ (Permutation_sym (sort_perm merged))).
Qed.

End WithSort.

Lemma legacy_writes_input_dates_only_witness :
  let s := [(mkdate 2035 12 29, Some 5%Q); (mkdate 2035 12 31, None)] in
  let all := (map fst s ++ map fst s ++ map fst s ++ map fst s)%list in
  exists out,
    fst (Legacy.create_met_file (fun m => m) (inputs_of s s s s None)) = Some out /\
    (forall row, In row (Legacy.met_data out) ->
       (exists d, In d all /\ row_key row = date_key d) /\
       r_evap row = None /\ r_vp row = None /\ r_code row = EmptyString) /\
    (forall d, In d all ->
       exists d', date_eqb d' d = true /\
                  In (date_key d') (map row_key (Legacy.met_data out))) /\
    Legacy.num_rows out = List.length (Legacy.met_data out) /\
    Legacy.lines out = map Legacy.format_row (Legacy.met_data out).
Proof.
  intros s all.
  apply (legacy_writes_input_dates_only (fun m => m)
           (fun m => Permutation_refl m) s s s s None).
Defined.

End LegacyFacts.

(* ================================================================== *)
(** * Properties of the check for missing files                         *)
(* ================================================================== *)

Module MissingFilesFacts.
Import MissingFiles.

Section WithFileSystem.

Variable path_exists : string -> bool.
Variable join : string -> string -> string.

#[local] Abbreviation sound o :=
  (forall p : string, o = Some p -> path_exists p = true).

Lemma first_existing_sound : forall paths cur,
  sound cur -> sound (first_existing path_exists paths cur).
Proof.
  induction paths as [|q rest IH]; intros cur Hc; cbn; [assumption|].
  destruct (path_exists q) eqn:E; [|now apply IH].
  intros p H. now injection H as <-.
Qed.

Lemma until_truthy_sound : forall A (body : A -> option string -> option string) l cur,
  (forall a c, sound c -> sound (body a c)) ->
  sound cur -> sound (until_truthy body l cur).
Proof.
  intros A body l. induction l as [|a rest IH]; intros cur Hb Hc; cbn;
    [assumption|].
  destruct (truthy (body a cur)); [now apply Hb|].
  apply IH; [assumption | now apply Hb].
Qed.

Lemma future_proxy_sound : forall dir model scenario lat_var lon_var kind obs cur,
  sound obs -> sound cur ->
  sound (future_proxy path_exists join dir model scenario lat_var lon_var kind
           obs cur).
Proof.
  intros dir model scenario lat_var lon_var kind obs cur Ho Hc.
  unfold future_proxy. destruct (is_obs scenario); [assumption|].
  apply until_truthy_sound; [|assumption].
  intros a c Hs. now apply first_existing_sound.
Qed.

Lemma until_all_invariant : forall (P : Proxies -> Prop) A
  (body : A -> Proxies -> Proxies) l p,
  (forall a q, P q -> P (body a q)) -> P p -> P (until_all body l p).
Proof.
  intros P A body l. induction l as [|a rest IH]; intros p Hb Hp; cbn;
    [assumption|].
  destruct (all_found (body a p)); [now apply Hb|].
  apply IH; [assumption | now apply Hb].
Qed.

Lemma find_proxies_invariant : forall (P : Proxies -> Prop) model scenario lat lon dir,
  (forall lat_var lon_var q, P q ->
     P (proxies_step path_exists join dir model scenario lat_var lon_var q)) ->
  P (mkProxies None None None None) ->
  P (find_proxies path_exists join model scenario lat lon dir).
Proof.
  intros P model scenario lat lon dir Hs H0. unfold find_proxies.
  apply until_all_invariant; [|assumption].
  intros lat_var q Hq. apply until_all_invariant; [|assumption].
  intros lon_var q' Hq'. now apply Hs.
Qed.

(** X22. Every path [find_files_for_target] returns is the path of an
    existing file: an entry is either [None] or a path for which
    [os.path.exists] answered yes. *)
Theorem found_paths_exist :
  forall model scenario lat lon input_met_dir proxy_output_dir,
    let files := find_files_for_target path_exists join model scenario lat lon
                   input_met_dir proxy_output_dir in
    forall p,
      In (Some p) [silo_met files; cmip6_obs_met files; cmip6_future_met files;
                   vp_obs files; vp_future files; evap_obs files;
                   evap_future files] ->
      path_exists p = true.
Proof.
  intros model scenario lat lon input_met_dir proxy_output_dir. cbv zeta.
  unfold find_files_for_target. cbv zeta.
  cbn [silo_met cmip6_obs_met cmip6_future_met vp_obs vp_future evap_obs
       evap_future].
  assert (Hnone : sound None) by discriminate.
  assert (Hsilo : sound (find_silo path_exists join lat lon input_met_dir)).
  { unfold find_silo. apply until_truthy_sound; [|assumption].
    intros a c Hc. apply until_truthy_sound; [|assumption].
    intros b c' Hc'. now apply first_existing_sound. }
  assert (Hobs : sound (find_obs path_exists join model lat lon input_met_dir)).
  { unfold find_obs. apply until_truthy_sound; [|assumption].
    intros a c Hc. now apply first_existing_sound. }
  assert (Hfut : sound (find_future path_exists join model scenario lat lon
                          input_met_dir)).
  { unfold find_future. apply until_truthy_sound; [|assumption].
    intros a c Hc. apply until_truthy_sound; [|assumption].
    intros b c' Hc'. now apply first_existing_sound. }
  assert (Hp : (fun q => sound (p_vp_obs q) /\ sound (p_vp_future q) /\
                         sound (p_evap_obs q) /\ sound (p_evap_future q))
                 (find_proxies path_exists join model scenario lat lon
                    proxy_output_dir)).
  { apply find_proxies_invariant; [|cbn; auto].
    intros lat_var lon_var q (H1 & H2 & H3 & H4).
    unfold proxies_step. cbv zeta.
    cbn [p_vp_obs p_vp_future p_evap_obs p_evap_future].
    repeat split;
      try apply future_proxy_sound; try apply first_existing_sound; assumption. }
  destruct Hp as (H1 & H2 & H3 & H4).
  intros p Hin. cbn [In] in Hin.
  destruct Hin as [H | [H | [H | [H | [H | [H | [H | []]]]]]]]; auto.
  destruct (is_obs scenario); auto.
Qed.

(** X23. For the scenario "obs" (in any letter case) the future entries are
    the observed ones: [cmip6_future_met] is [cmip6_obs_met], [vp_future] is
    [vp_obs] and [evap_future] is [evap_obs]; and the report of missing
    files never names a future entry. *)
Theorem obs_scenario_reuses_obs_files :
  forall model scenario lat lon input_met_dir proxy_output_dir,
    is_obs scenario = true ->
    let files := find_files_for_target path_exists join model scenario lat lon
                   input_met_dir proxy_output_dir in
    cmip6_future_met files = cmip6_obs_met files /\
    vp_future files = vp_obs files /\
    evap_future files = evap_obs files /\
    incl (missing scenario files)
         ["silo_met"; "cmip6_obs_met"; "vp_obs"; "evap_obs"]%string.
Proof.
  intros model scenario lat lon input_met_dir proxy_output_dir Hobs. cbv zeta.
  unfold find_files_for_target. cbv zeta. rewrite Hobs.
  cbn [silo_met cmip6_obs_met cmip6_future_met vp_obs vp_future evap_obs
       evap_future].
  assert (Hp : (fun q => p_vp_future q = p_vp_obs q /\
                         p_evap_future q = p_evap_obs q)
                 (find_proxies path_exists join model scenario lat lon
                    proxy_output_dir)).
  { apply find_proxies_invariant; [|cbn; auto].
    intros lat_var lon_var q _. unfold proxies_step, future_proxy. cbv zeta.
    rewrite Hobs. cbn. auto. }
  destruct Hp as [H1 H2].
  split; [reflexivity|]. split; [assumption|]. split; [assumption|].
  unfold missing. rewrite Hobs. intros key Hk.
  apply filter_In in Hk. tauto.
Qed.

Lemma first_existing_none : forall paths cur,
  first_existing path_exists paths cur = None <->
  cur = None /\ forall p, In p paths -> path_exists p = false.
Proof.
  induction paths as [|q rest IH]; intro cur; cbn.
  - split; [intro H; split; [assumption | intros p []] | tauto].
  - destruct (path_exists q) eqn:E.
    + split; [discriminate|]. intros [_ H]. specialize (H q (or_introl eq_refl)).
      congruence.
    + rewrite IH. split; intros [Hc H]; split; auto.
      intros p [<- | Hp]; auto.
Qed.

Lemma until_truthy_none : forall A (body : A -> option string -> option string) l cur,
  (forall a c, body a c = None <-> c = None /\ body a None = None) ->
  (until_truthy body l cur = None <->
   cur = None /\ forall a, In a l -> body a None = None).
Proof.
  intros A body l. induction l as [|a rest IH]; intros cur Hb; cbn.
  - split; [intro H; split; [assumption | intros a []] | tauto].
  - destruct (truthy (body a cur)) eqn:T.
    + split.
      * intro H. rewrite H in T. discriminate.
      * intros [Hc H]. subst cur. rewrite (H a (or_introl eq_refl)) in T.
        discriminate.
    + rewrite (IH _ Hb), Hb. split.
      * intros [[Hc Ha] H]. split; [assumption|]. intros x [<- | Hx]; auto.
      * intros [Hc H]. split; [split; [assumption | apply H; now left]|].
        intros x Hx. apply H. now right.
Qed.

(** X24. The baseline file is reported missing exactly when none of its
    candidate names exists: [silo_met] is [None] if and only if no file
    named SILO_<years>_<lat>_<lon>.met exists in the input directory for any
    of the two year ranges, three latitude texts and two longitude texts. *)
Theorem silo_missing_iff_no_candidate :
  forall lat lon input_met_dir,
    find_silo path_exists join lat lon input_met_dir = None <->
    (forall lat_var lon_var year_range,
       In lat_var (lat_str_variants lat) ->
       In lon_var (lon_str_variants lon) ->
       In year_range ["1986-2014"; "1985-2014"]%string ->
       path_exists
         (join input_met_dir
            ("SILO_" ++ year_range ++ "_" ++ lat_var ++ "_" ++ lon_var ++ ".met"))
       = false).
Proof.
  intros lat lon input_met_dir. unfold find_silo.
  set (paths := fun lat_var lon_var : string =>
         map (fun year_range : string =>
                join input_met_dir
                  ("SILO_" ++ year_range ++ "_" ++ lat_var ++ "_" ++ lon_var
                   ++ ".met"))
             ["1986-2014"; "1985-2014"]%string).
  assert (H1 : forall lat_var lon_var c,
            first_existing path_exists (paths lat_var lon_var) c = None <->
            c = None /\ first_existing path_exists (paths lat_var lon_var) None = None).
  { intros lat_var lon_var c. rewrite !first_existing_none. tauto. }
  assert (H2 : forall lat_var c,
            until_truthy (fun lon_var => first_existing path_exists (paths lat_var lon_var))
              (lon_str_variants lon) c = None <->
            c = None /\
            until_truthy (fun lon_var => first_existing path_exists (paths lat_var lon_var))
              (lon_str_variants lon) None = None).
  { intros lat_var c. rewrite !until_truthy_none by apply H1. tauto. }
  match goal with
  | |- _ <-> ?R =>
      change (until_truthy
                (fun lat_var =>
                   until_truthy
                     (fun lon_var =>
                        first_existing path_exists (paths lat_var lon_var))
                     (lon_str_variants lon))
                (lat_str_variants lat) None = None <-> R)
  end.
  rewrite until_truthy_none by apply H2.
  split.
  - intros [_ H] lat_var lon_var year_range Hlat Hlon Hy.
    specialize (H lat_var Hlat).
    rewrite until_truthy_none in H by apply H1. destruct H as [_ H].
    specialize (H lon_var Hlon). rewrite first_existing_none in H.
    destruct H as [_ H]. apply H. unfold paths.
    apply in_map_iff. exists year_range. auto.
  - intro H. split; [reflexivity|]. intros lat_var Hlat.
    rewrite until_truthy_none by apply H1. split; [reflexivity|].
    intros lon_var Hlon. rewrite first_existing_none. split; [reflexivity|].
    intros p Hp. unfold paths in Hp. apply in_map_iff in Hp.
    destruct Hp as (year_range & <- & Hy). now apply H.
Qed.

End WithFileSystem.

Lemma found_paths_exist_witness :
  let the_file := "in/SILO_1985-2014_neg31.45_117_55.met"%string in
  let path_exists := String.eqb the_file in
  let join := fun d n : string => (d ++ "/" ++ n)%string in
  let files := find_files_for_target path_exists join "ACCESS_CM2" "ssp245"
                 (-31.45)%Q 117.55%Q "in" "out" in
  silo_met files = Some the_file /\ path_exists the_file = true.
Proof.
  intros the_file path_exists join files. split; [vm_compute; reflexivity|].
  apply (found_paths_exist path_exists join "ACCESS_CM2" "ssp245"
           (-31.45)%Q 117.55%Q "in" "out" the_file).
  left. vm_compute. reflexivity.
Defined.

Lemma obs_scenario_reuses_obs_files_witness :
  let the_file := "out/ACCESS_CM2_obs_-31.45_117.55_vp"%string in
  let path_exists := String.eqb the_file in
  let join := fun d n : string => (d ++ "/" ++ n)%string in
  let files := find_files_for_target path_exists join "ACCESS_CM2" "Obs"
                 (-31.45)%Q 117.55%Q "in" "out" in
  vp_obs files = Some the_file /\
  cmip6_future_met files = cmip6_obs_met files /\
  vp_future files = vp_obs files /\
  evap_future files = evap_obs files /\
  incl (missing "Obs" files)
       ["silo_met"; "cmip6_obs_met"; "vp_obs"; "evap_obs"]%string.
Proof.
  intros the_file path_exists join files. split; [vm_compute; reflexivity|].
  apply (obs_scenario_reuses_obs_files path_exists join "ACCESS_CM2" "Obs"
           (-31.45)%Q 117.55%Q "in" "out").
  reflexivity.
Defined.

End MissingFilesFacts.
